(** * Green-wave corridor coordination and fuzzy green-time adjustment

    Shallow embedding of [controlador_fl/coordinacion.py] and of the fuzzy
    controller of [controlador_fl/main.py].

    Number model.  Python floats are read as exact numbers: reals in
    [Coordinacion] (the module needs [sin], [cos], [atan2] and [sqrt]) and
    rationals in [Main] (only [+ - * /], comparisons and truncation occur
    there, so the model stays executable).  Rounding, infinities and NaN
    are outside the model.  Python integers are [Z].

    Exceptions.  Operations that raise in Python ([/] on a zero divisor,
    [math.sqrt] on a negative argument, list indexing out of range and the
    fuzzy centroid on an empty aggregate) return in the error monad
    [resultado]. *)

From Stdlib Require Import ZArith QArith Qround Qminmax Reals Psatz List String Bool.
From Stdlib Require Import Sorted Permutation.
Import ListNotations.

(** ** Python exceptions as an error monad *)

Inductive excepcion : Type :=
| ZeroDivisionError
| ValueError
| IndexError.

Definition resultado (A : Type) : Type := (excepcion + A)%type.

Definition ret {A : Type} (a : A) : resultado A := inr a.

Definition raise {A : Type} (e : excepcion) : resultado A := inl e.

Definition bind {A B : Type} (m : resultado A) (k : A -> resultado B)
  : resultado B :=
  match m with
  | inl e => inl e
  | inr a => k a
  end.

Notation "x <- m ;; k" := (bind m (fun x => k))
  (at level 61, m at next level, right associativity).

(** [for x in xs: s = body(s, x)], stopping at the first exception. *)
Fixpoint for_in {A S : Type} (xs : list A) (body : S -> A -> resultado S)
  (s : S) : resultado S :=
  match xs with
  | [] => ret s
  | x :: xs' => s' <- body s x ;; for_in xs' body s'
  end.

(** [range(n)] for a length [n]. *)
Definition range (n : nat) : list Z := map Z.of_nat (seq 0 n).

(** [xs[idx]] for a non-negative index. *)
Definition getitem {A : Type} (xs : list A) (idx : Z) : resultado A :=
  match nth_error xs (Z.to_nat idx) with
  | Some x => ret x
  | None => raise IndexError
  end.

(** ** [coordinacion.py] *)

Module Coordinacion.

Local Open Scope R_scope.

(** *** Float operations of the Python runtime, over the reals *)

(** [max(a, b)]: the first argument unless the second is strictly greater. *)
Definition py_max (a b : R) : R := if Rlt_dec a b then b else a.

(** [min(a, b)]: the first argument unless the second is strictly smaller. *)
Definition py_min (a b : R) : R := if Rlt_dec b a then b else a.

(** [x / y] raises [ZeroDivisionError] on a zero divisor. *)
Definition truediv (x y : R) : resultado R :=
  if Req_dec_T y 0 then raise ZeroDivisionError else ret (x / y).

(** [math.sqrt] raises [ValueError] below zero. *)
Definition math_sqrt (x : R) : resultado R :=
  if Rlt_dec x 0 then raise ValueError else ret (sqrt x).

Definition math_radians (x : R) : R := x * (PI / 180).

(** [math.atan2(y, x)]: the angle of the point [(x, y)], in [(-pi, pi]]. *)
Definition math_atan2 (y x : R) : R :=
  if Rlt_dec 0 x then atan (y / x)
  else if Rlt_dec x 0 then
         if Rle_dec 0 y then atan (y / x) + PI else atan (y / x) - PI
  else if Rlt_dec 0 y then PI / 2
  else if Rlt_dec y 0 then - (PI / 2)
  else 0.

(** [sum(xs)]: left to right from [0]. *)
Definition sum (xs : list R) : R := fold_left Rplus xs 0.

(** *** Geometry *)

Definition haversine (lat1 lon1 lat2 lon2 : R) : resultado R :=
  let R_tierra := 6371e3 in
  let phi1 := math_radians lat1 in
  let phi2 := math_radians lat2 in
  let dphi := math_radians (lat2 - lat1) in
  let dlambda := math_radians (lon2 - lon1) in
  let a := sin (dphi / 2) ^ 2
           + cos phi1 * cos phi2 * sin (dlambda / 2) ^ 2 in
  ra <- math_sqrt a ;;
  rb <- math_sqrt (1 - a) ;;
  let c := 2 * math_atan2 ra rb in
  ret (R_tierra * c).

(** *** Data model *)

Record Semaforo : Type := mkSemaforo {
  id_local : Z;
  lat : R;
  lon : R
}.

Record TramoVelocidad : Type := mkTramoVelocidad {
  i_inicio : Z;
  i_fin : Z;
  vd_kmh : R
}.

(** The fields [via_id], [i], [j] and [vd_kmh] of the dataclass carry the
    prefix [tc_] here, the other names are the source's. *)
Record TramoCoordinacion : Type := mkTramoCoordinacion {
  tc_via_id : string;
  tc_i : Z;
  tc_j : Z;
  dist_m : R;
  tc_vd_kmh : R;
  offset_s : R;
  tiempo_viaje_s : R
}.

Record PlanCoordinacion : Type := mkPlanCoordinacion {
  via_id : string;
  tramos : list TramoCoordinacion;
  ciclo_base_s : R;
  banda_objetivo_s : R
}.

(** *** Computation *)

Fixpoint asignar_vd_a_tramo (idx : Z) (tramos_vd : list TramoVelocidad)
  (vd_default_kmh : R) : R :=
  match tramos_vd with
  | [] => vd_default_kmh
  | tv :: resto =>
      if ((i_inicio tv <=? idx) && (idx <? i_fin tv))%Z
      then vd_kmh tv
      else asignar_vd_a_tramo idx resto vd_default_kmh
  end.

(** One pass of the loop body of [construir_tramos_coordinacion]: the plan
    of the segment [idx -> idx + 1], appended to [acc]. *)
Definition cuerpo_tramo (via : string) (semaforos : list Semaforo)
  (tramos_vd : list TramoVelocidad) (vd_default_kmh : R)
  (acc : list TramoCoordinacion) (idx : Z)
  : resultado (list TramoCoordinacion) :=
  s_i <- getitem semaforos idx ;;
  s_j <- getitem semaforos (idx + 1)%Z ;;
  d <- haversine (lat s_i) (lon s_i) (lat s_j) (lon s_j) ;;
  let vd := asignar_vd_a_tramo idx tramos_vd vd_default_kmh in
  let vd_ms := vd * 1000 / 3600 in
  let vd_ms := if Rle_dec vd_ms 0 then 0.1 else vd_ms in
  o <- truediv d vd_ms ;;
  let t := o in
  ret (acc ++ [mkTramoCoordinacion via (id_local s_i) (id_local s_j)
                 d vd o t]).

Definition construir_tramos_coordinacion (via : string)
  (semaforos : list Semaforo) (tramos_vd : list TramoVelocidad)
  (vd_default_kmh : R) : resultado (list TramoCoordinacion) :=
  if (List.length semaforos <? 2)%nat then ret []
  else for_in (range (List.length semaforos - 1))
         (cuerpo_tramo via semaforos tramos_vd vd_default_kmh) [].

Definition lost_time_s_default : R := 12.

Definition estimar_ciclo_webster (flujos_criticos : list R)
  (lost_time_s : R) : resultado R :=
  let y := match flujos_criticos with
           | [] => 0.6
           | _ :: _ => py_min (py_max (sum flujos_criticos) 0.2) 0.9
           end in
  let y := if Rge_dec y 1 then 0.9 else y in
  C0 <- truediv (1.5 * lost_time_s + 5) (1 - y) ;;
  ret (py_max 40 (py_min C0 140)).

Definition porcentaje_default : R := 0.45.

Definition calcular_banda_objetivo (ciclo_s porcentaje : R) : R :=
  let porcentaje := py_max 0.3 (py_min porcentaje 0.7) in
  ciclo_s * porcentaje.

(** [flujos_criticos or []]: [None] and the empty list both give [[]]. *)
Definition o_lista_vacia (flujos_criticos : option (list R)) : list R :=
  match flujos_criticos with
  | None => []
  | Some [] => []
  | Some (x :: xs) => x :: xs
  end.

Definition generar_plan_para_via (via : string)
  (semaforos : list Semaforo) (tramos_vd : list TramoVelocidad)
  (vd_default_kmh : R) (flujos_criticos : option (list R))
  (lost_time_s banda_porcentaje : R) : resultado PlanCoordinacion :=
  ts <- construir_tramos_coordinacion via semaforos tramos_vd
          vd_default_kmh ;;
  c <- estimar_ciclo_webster (o_lista_vacia flujos_criticos) lost_time_s ;;
  let b := calcular_banda_objetivo c banda_porcentaje in
  ret (mkPlanCoordinacion via ts c b).

(** The dictionaries [generar_plan_global] receives and returns, as
    records over their keys. *)
Record DictSemaforo : Type := mkDictSemaforo {
  d_id : Z;
  d_lat : R;
  d_lon : R
}.

Record DictTramoVd : Type := mkDictTramoVd {
  d_i_inicio : Z;
  d_i_fin : Z;
  d_vd_kmh : R
}.

Record DictPlan : Type := mkDictPlan {
  dp_via_id : string;
  dp_ciclo_base_s : R;
  dp_banda_objetivo_s : R;
  dp_tramos : list TramoCoordinacion
}.

Record DictGlobal : Type := mkDictGlobal {
  V1 : DictPlan;
  V2 : DictPlan
}.

Definition dict_de_plan (p : PlanCoordinacion) : DictPlan :=
  mkDictPlan (via_id p) (ciclo_base_s p) (banda_objetivo_s p) (tramos p).

Definition vd_default_via_kmh_default : R := 40.

Definition generar_plan_global
  (via1_semaforos via2_semaforos : list DictSemaforo)
  (via1_tramos_vd via2_tramos_vd : list DictTramoVd)
  (vd_default_via1_kmh vd_default_via2_kmh : R)
  (flujos_criticos_via1 flujos_criticos_via2 : option (list R))
  (lost_time_s banda_porcentaje : R) : resultado DictGlobal :=
  let sem_v1 :=
    map (fun s => mkSemaforo (d_id s) (d_lat s) (d_lon s)) via1_semaforos in
  let sem_v2 :=
    map (fun s => mkSemaforo (d_id s) (d_lat s) (d_lon s)) via2_semaforos in
  let tramos_v1 :=
    map (fun t => mkTramoVelocidad (d_i_inicio t) (d_i_fin t) (d_vd_kmh t))
      via1_tramos_vd in
  let tramos_v2 :=
    map (fun t => mkTramoVelocidad (d_i_inicio t) (d_i_fin t) (d_vd_kmh t))
      via2_tramos_vd in
  plan_v1 <- generar_plan_para_via "V1" sem_v1 tramos_v1
               vd_default_via1_kmh flujos_criticos_via1 lost_time_s
               banda_porcentaje ;;
  plan_v2 <- generar_plan_para_via "V2" sem_v2 tramos_v2
               vd_default_via2_kmh flujos_criticos_via2 lost_time_s
               banda_porcentaje ;;
  ret (mkDictGlobal (dict_de_plan plan_v1) (dict_de_plan plan_v2)).

End Coordinacion.

(** ** [main.py]: the fuzzy controller and its caller *)

Module Main.

Local Open Scope Q_scope.

(** *** Integer and float operations of the Python runtime *)

(** [int(x)] on a float: truncation towards zero. *)
Definition int_ (x : Q) : Z := Z.quot (Qnum x) (Zpos (Qden x)).

(** [max(a, b)] and [min(a, b)] on integers. *)
Definition py_max (a b : Z) : Z := if (a <? b)%Z then b else a.

Definition py_min (a b : Z) : Z := if (b <? a)%Z then b else a.

(** [float(n)] for the integer a table cell shows. *)
Definition float_ (n : Z) : Q := inject_Z n.

(** *** Fuzzy variables, from [FuzzyTraffic.__init__] *)

(** A triangular set is its three control points. *)
Definition triangulo : Type := (Q * Q * Q)%type.

Definition vehiculos_bajo : triangulo := (0, 0, 15).
Definition vehiculos_medio : triangulo := (10, 25, 40).
Definition vehiculos_alto : triangulo := (35, 50, 50).

Definition detencion_corto : triangulo := (0, 0, 20).
Definition detencion_medio : triangulo := (15, 30, 45).
Definition detencion_largo : triangulo := (40, 60, 60).

Definition tiempo_verde_corto : triangulo := (10, 10, 30).
Definition tiempo_verde_medio : triangulo := (25, 45, 65).
Definition tiempo_verde_largo : triangulo := (60, 90, 90).

(** [np.arange(10, 91, 1)]: the sample points of the output variable. *)
Definition universo_tiempo_verde : list Q :=
  map (fun k => inject_Z (10 + Z.of_nat k)) (seq 0 81).

(** *** The inference engine *)

(** Modelled from the spec: the membership degree of a triangular set,
    which the source takes from the fuzzy-logic library ([fuzz.trimf]).
    Piecewise linear between the three control points, zero outside the
    support and one at the apex. *)
Definition trimf (abc : triangulo) (x : Q) : Q :=
  let '(a, b, c) := abc in
  if Qeq_dec x b then 1
  else if Qlt_le_dec a x then
         if Qlt_le_dec x b then (x - a) / (b - a)
         else if Qlt_le_dec x c then (c - x) / (c - b)
         else 0
  else 0.

(** The three rules of [FuzzyTraffic.__init__]: [&] is the minimum and [|]
    the maximum of the two degrees. *)
Definition fuerza_regla1 (vehiculos detencion : Q) : Q :=
  Qmin (trimf vehiculos_bajo vehiculos) (trimf detencion_corto detencion).

Definition fuerza_regla2 (vehiculos detencion : Q) : Q :=
  Qmax (trimf vehiculos_medio vehiculos) (trimf detencion_medio detencion).

Definition fuerza_regla3 (vehiculos detencion : Q) : Q :=
  Qmax (trimf vehiculos_alto vehiculos) (trimf detencion_largo detencion).

(** Modelled from the spec: the aggregated output set, which the source
    leaves to the library's [compute].  Each rule clips its output set at
    its firing strength and the three clipped sets are joined by their
    point-wise maximum. *)
Definition agregada (vehiculos detencion : Q) (x : Q) : Q :=
  Qmax (Qmin (fuerza_regla1 vehiculos detencion) (trimf tiempo_verde_corto x))
    (Qmax
       (Qmin (fuerza_regla2 vehiculos detencion)
          (trimf tiempo_verde_medio x))
       (Qmin (fuerza_regla3 vehiculos detencion)
          (trimf tiempo_verde_largo x))).

Definition suma (xs : list Q) : Q := fold_right Qplus 0 xs.

(** Modelled from the spec: defuzzification by the centroid of the
    aggregated set sampled on the output universe, which the source leaves
    to the library's [compute].  With an empty aggregate the quotient is
    undefined. *)
Definition centroide (xs : list Q) (mu : Q -> Q) : resultado Q :=
  let num := suma (map (fun x => x * mu x) xs) in
  let den := suma (map mu xs) in
  if Qeq_dec den 0 then raise ZeroDivisionError else ret (num / den).

(** Modelled from the spec: [fuzzy_controller.compute()] followed by the
    read of [output['tiempo_verde']]. *)
Definition compute (vehiculos detencion : Q) : resultado Q :=
  centroide universo_tiempo_verde (agregada vehiculos detencion).

Definition calcular_tiempo (vehiculos detencion : Q) : resultado Z :=
  salida <- compute vehiculos detencion ;;
  ret (py_max 10 (py_min 90 (int_ salida))).

(** *** The caller, [EditorMapaSemaforos.simular_ajuste_difuso] *)

(** The two inputs the loop body derives from a base time. *)
Definition entradas_difusas (t_seg : Q) : Z * Z :=
  let veh := py_min 50 (int_ (t_seg / 2)) in
  let det := py_min 60 (py_max 5 (int_ (70 - t_seg))) in
  (veh, det).

(** One pass of the loop body over the cell of the column of base times. *)
Definition cuerpo_ajuste (acc : list Q * list Z) (celda : Z)
  : resultado (list Q * list Z) :=
  let '(tiempos_base, tiempos_ajust) := acc in
  let t_seg := float_ celda in
  let '(veh, det) := entradas_difusas t_seg in
  t_new <- calcular_tiempo (inject_Z veh) (inject_Z det) ;;
  ret (tiempos_base ++ [t_seg], tiempos_ajust ++ [t_new]).

(** The series the method plots; [None] when the table is empty and the
    method returns after its warning. *)
Definition simular_ajuste_difuso (celdas : list Z)
  : resultado (option (list Q * list Z)) :=
  match celdas with
  | [] => ret None
  | _ :: _ =>
      series <- for_in celdas cuerpo_ajuste ([], []) ;;
      ret (Some series)
  end.

End Main.

(** ** [main.py]: the editor, [EditorMapaSemaforos] *)

Module Editor.

Local Open Scope R_scope.

(** *** Operations of the Python runtime *)

(** [int(x)] on a float: truncation towards zero. *)
Definition int_ (x : R) : Z :=
  if Rle_dec 0 x then Int_part x else (- Int_part (- x))%Z.

(** [round(x, 1)]: the nearest multiple of a tenth, a tie going to the
    even one. *)
Definition round1 (x : R) : R :=
  let y := x * 10 in
  let f := Int_part y in
  let r := y - IZR f in
  let n := if Rlt_dec r (1 / 2) then f
           else if Rlt_dec (1 / 2) r then (f + 1)%Z
           else if Z.even f then f else (f + 1)%Z in
  IZR n / 10.

(** [max(xs)] on a non-empty list of integers, [x] its first item. *)
Definition max_lista (x : Z) (xs : list Z) : Z := fold_left Z.max xs x.

(** [xs.pop(idx)]: the list without its item at [idx]. *)
Definition pop_en {A : Type} (xs : list A) (idx : Z) : list A :=
  firstn (Z.to_nat idx) xs ++ skipn (S (Z.to_nat idx)) xs.

(** [enumerate(xs)]. *)
Definition enumerate {A : Type} (xs : list A) : list (Z * A) :=
  combine (range (List.length xs)) xs.

(** [sorted(xs, key=...)]: a stable sort, here by insertion.  An item goes
    before the first one whose key is not below its own. *)
Fixpoint insertar {A : Type} (key : A -> R) (x : A) (xs : list A) : list A :=
  match xs with
  | [] => [x]
  | y :: ys => if Rle_dec (key x) (key y) then x :: y :: ys
               else y :: insertar key x ys
  end.

Fixpoint sorted {A : Type} (key : A -> R) (xs : list A) : list A :=
  match xs with
  | [] => []
  | x :: xs' => insertar key x (sorted key xs')
  end.

(** A [dict] in insertion order.  [d[k] = v] replaces the value of a key
    where it stands and puts a new key at the end; [d.get(k, v)] is the
    value of the key, or [v]. *)
Section Dict.

Context {K V : Type} (eqb : K -> K -> bool).

Fixpoint dict_set (d : list (K * V)) (k : K) (v : V) : list (K * V) :=
  match d with
  | [] => [(k, v)]
  | (k', v') :: resto =>
      if eqb k' k then (k', v) :: resto else (k', v') :: dict_set resto k v
  end.

Fixpoint dict_get (d : list (K * V)) (k : K) (def : V) : V :=
  match d with
  | [] => def
  | (k', v') :: resto => if eqb k' k then v' else dict_get resto k def
  end.

End Dict.

(** *** The state of the editor *)

(** A marker of the map, by the order in which the map created it: two
    markers are the same object when their numbers agree. *)
Definition marcador : Type := nat.

(** An item of [controladores_esp]. *)
Record ControladorEsp : Type := mkControladorEsp {
  esp_id : Z;
  esp_lat : R;
  esp_lon : R;
  esp_marker : marcador
}.

(** A row of the table of times: the columns [via], [i], [j], [dist_m],
    [vel_kmh], [offset_s] and [t_seg]. *)
Record Fila : Type := mkFila {
  f_via : string;
  f_i : Z;
  f_j : Z;
  f_dist_m : Z;
  f_vel_kmh : R;
  f_offset_s : R;
  f_t_seg : Z
}.

(** The key of [tramos_vel_manuales]: corridor, start and end index. *)
Definition clave : Type := (string * Z * Z)%type.

Definition clave_eqb (a b : clave) : bool :=
  let '(va, ia, ja) := a in
  let '(vb, ib, jb) := b in
  String.eqb va vb && Z.eqb ia ib && Z.eqb ja jb.

(** The attributes of the editor the methods below read and write.  Of
    the widgets, [tree] is the list of rows of the table and [map_widget]
    the number of markers the map has created; labels, buttons and
    message boxes hold no state the methods read back. *)
Record EditorMapaSemaforos : Type := mkEditor {
  marcadores_via1 : list (R * R * marcador);
  marcadores_via2 : list (R * R * marcador);
  controladores_esp : list ControladorEsp;
  via_activa : Z;
  modo_esp : bool;
  undo_stack : list (string * marcador);
  tramos_vel_manuales : list (clave * R);
  tree : list Fila;
  map_widget : nat
}.

(** [self.map_widget.set_marker(...)]: a new marker. *)
Definition set_marker (st : EditorMapaSemaforos)
  : marcador * EditorMapaSemaforos :=
  (map_widget st,
   mkEditor (marcadores_via1 st) (marcadores_via2 st) (controladores_esp st)
     (via_activa st) (modo_esp st) (undo_stack st) (tramos_vel_manuales st)
     (tree st) (S (map_widget st))).

(** The content of [semaforos_rn3.yaml]; a key may be missing. *)
Record Datos : Type := mkDatos {
  dato_via1 : option (list (R * R));
  dato_via2 : option (list (R * R));
  dato_controladores_esp : option (list (Z * R * R))
}.

(** [data.get(key, [])]. *)
Definition get_o_vacia {A : Type} (campo : option (list A)) : list A :=
  match campo with
  | Some xs => xs
  | None => []
  end.

(** *** Markers and controllers *)

Definition toggle_modo_esp (st : EditorMapaSemaforos) : EditorMapaSemaforos :=
  mkEditor (marcadores_via1 st) (marcadores_via2 st) (controladores_esp st)
    (via_activa st) (negb (modo_esp st)) (undo_stack st)
    (tramos_vel_manuales st) (tree st) (map_widget st).

Definition seleccionar_via (via : Z) (st : EditorMapaSemaforos)
  : EditorMapaSemaforos :=
  mkEditor (marcadores_via1 st) (marcadores_via2 st) (controladores_esp st)
    via (modo_esp st) (undo_stack st) (tramos_vel_manuales st) (tree st)
    (map_widget st).

Definition agregar_semaforo (lat lon : R) (st : EditorMapaSemaforos)
  : EditorMapaSemaforos :=
  let '(marker, st) := set_marker st in
  if (via_activa st =? 1)%Z then
    mkEditor (marcadores_via1 st ++ [(lat, lon, marker)])
      (marcadores_via2 st) (controladores_esp st) (via_activa st)
      (modo_esp st) (undo_stack st ++ [("V1"%string, marker)])
      (tramos_vel_manuales st) (tree st) (map_widget st)
  else
    mkEditor (marcadores_via1 st)
      (marcadores_via2 st ++ [(lat, lon, marker)]) (controladores_esp st)
      (via_activa st) (modo_esp st)
      (undo_stack st ++ [("V2"%string, marker)])
      (tramos_vel_manuales st) (tree st) (map_widget st).

Definition agregar_controlador_esp (lat lon : R) (st : EditorMapaSemaforos)
  : EditorMapaSemaforos :=
  let nuevos_ids := map esp_id (controladores_esp st) in
  let next_id := match nuevos_ids with
                 | [] => 1%Z
                 | x :: xs => (max_lista x xs + 1)%Z
                 end in
  let '(marker, st) := set_marker st in
  mkEditor (marcadores_via1 st) (marcadores_via2 st)
    (controladores_esp st ++ [mkControladorEsp next_id lat lon marker])
    (via_activa st) (modo_esp st) (undo_stack st ++ [("ESP"%string, marker)])
    (tramos_vel_manuales st) (tree st) (map_widget st).

Definition click_mapa (coords : R * R) (st : EditorMapaSemaforos)
  : EditorMapaSemaforos :=
  let '(lat, lon) := coords in
  if modo_esp st then agregar_controlador_esp lat lon st
  else agregar_semaforo lat lon st.

(** The loop [for idx in range(len(xs) - 1, -1, -1)] of
    [deshacer_ultima_accion] over the indices [idxs]: the first item
    found that is the marker is popped and the loop ends. *)
Fixpoint quitar_marcador {A : Type} (es : A -> bool) (idxs : list Z)
  (xs : list A) : resultado (list A) :=
  match idxs with
  | [] => ret xs
  | idx :: resto =>
      x <- getitem xs idx ;;
      if es x then ret (pop_en xs idx) else quitar_marcador es resto xs
  end.

(** [range(n - 1, -1, -1)]. *)
Definition range_desc (n : nat) : list Z := rev (range n).

Definition deshacer_ultima_accion (st : EditorMapaSemaforos)
  : resultado EditorMapaSemaforos :=
  match rev (undo_stack st) with
  | [] => ret st
  | (tipo, marker) :: resto =>
      let pila := rev resto in
      if String.eqb tipo "V1" then
        v1 <- quitar_marcador (fun p => Nat.eqb (snd p) marker)
                (range_desc (List.length (marcadores_via1 st)))
                (marcadores_via1 st) ;;
        ret (mkEditor v1 (marcadores_via2 st) (controladores_esp st)
               (via_activa st) (modo_esp st) pila (tramos_vel_manuales st)
               (tree st) (map_widget st))
      else if String.eqb tipo "V2" then
        v2 <- quitar_marcador (fun p => Nat.eqb (snd p) marker)
                (range_desc (List.length (marcadores_via2 st)))
                (marcadores_via2 st) ;;
        ret (mkEditor (marcadores_via1 st) v2 (controladores_esp st)
               (via_activa st) (modo_esp st) pila (tramos_vel_manuales st)
               (tree st) (map_widget st))
      else if String.eqb tipo "ESP" then
        esp <- quitar_marcador (fun c => Nat.eqb (esp_marker c) marker)
                 (range_desc (List.length (controladores_esp st)))
                 (controladores_esp st) ;;
        ret (mkEditor (marcadores_via1 st) (marcadores_via2 st) esp
               (via_activa st) (modo_esp st) pila (tramos_vel_manuales st)
               (tree st) (map_widget st))
      else
        ret (mkEditor (marcadores_via1 st) (marcadores_via2 st)
               (controladores_esp st) (via_activa st) (modo_esp st) pila
               (tramos_vel_manuales st) (tree st) (map_widget st))
  end.

(** *** Saving and opening *)

(** The data [guardar_config] writes, its time stamp apart. *)
Definition guardar_config (st : EditorMapaSemaforos) : Datos :=
  mkDatos
    (Some (map (fun m => (fst (fst m), snd (fst m))) (marcadores_via1 st)))
    (Some (map (fun m => (fst (fst m), snd (fst m))) (marcadores_via2 st)))
    (Some (map (fun c => (esp_id c, esp_lat c, esp_lon c))
             (controladores_esp st))).

(** One pass of each of the three loops of [re_dibujar_todo]. *)
Definition dibujar_via1 (st : EditorMapaSemaforos) (p : R * R)
  : EditorMapaSemaforos :=
  let '(lat, lon) := p in
  let '(marker, st) := set_marker st in
  mkEditor (marcadores_via1 st ++ [(lat, lon, marker)]) (marcadores_via2 st)
    (controladores_esp st) (via_activa st) (modo_esp st) (undo_stack st)
    (tramos_vel_manuales st) (tree st) (map_widget st).

Definition dibujar_via2 (st : EditorMapaSemaforos) (p : R * R)
  : EditorMapaSemaforos :=
  let '(lat, lon) := p in
  let '(marker, st) := set_marker st in
  mkEditor (marcadores_via1 st) (marcadores_via2 st ++ [(lat, lon, marker)])
    (controladores_esp st) (via_activa st) (modo_esp st) (undo_stack st)
    (tramos_vel_manuales st) (tree st) (map_widget st).

Definition dibujar_esp (st : EditorMapaSemaforos) (c : Z * R * R)
  : EditorMapaSemaforos :=
  let '(cid, lat, lon) := c in
  let '(marker, st) := set_marker st in
  mkEditor (marcadores_via1 st) (marcadores_via2 st)
    (controladores_esp st ++ [mkControladorEsp cid lat lon marker])
    (via_activa st) (modo_esp st) (undo_stack st) (tramos_vel_manuales st)
    (tree st) (map_widget st).

Definition re_dibujar_todo (guardados_via1 guardados_via2 : list (R * R))
  (esp_guardados : list (Z * R * R)) (st : EditorMapaSemaforos)
  : EditorMapaSemaforos :=
  let st := fold_left dibujar_via1 guardados_via1 st in
  let st := fold_left dibujar_via2 guardados_via2 st in
  fold_left dibujar_esp esp_guardados st.

(** [__init__]: the editor after it opens, from the content of the file
    or from [None] when there is no file. *)
Definition init (archivo : option Datos) : EditorMapaSemaforos :=
  let st := mkEditor [] [] [] 1 false [] [] [] 0 in
  let '(g1, g2, ge) :=
    match archivo with
    | Some data => (get_o_vacia (dato_via1 data),
                    get_o_vacia (dato_via2 data),
                    get_o_vacia (dato_controladores_esp data))
    | None => ([], [], [])
    end in
  re_dibujar_todo g1 g2 ge st.

(** *** The table of times *)

(** [agregar_tramo_manual]; the texts of the three entries come parsed,
    [None] where [int] or [float] raises [ValueError].  The texts [nan]
    and [inf], which [float] reads without raising, have no real number
    and stay outside the model. *)
Definition agregar_tramo_manual (es_via1 : bool) (entry_idx_i entry_idx_j
  : option Z) (entry_vel_tramo : option R) (st : EditorMapaSemaforos)
  : EditorMapaSemaforos :=
  let via := if es_via1 then "V1"%string else "V2"%string in
  match entry_idx_i, entry_idx_j, entry_vel_tramo with
  | Some i, Some j, Some vel =>
      if Rlt_dec vel 5 then st
      else if Rlt_dec 110 vel then st
      else mkEditor (marcadores_via1 st) (marcadores_via2 st)
             (controladores_esp st) (via_activa st) (modo_esp st)
             (undo_stack st)
             (dict_set clave_eqb (tramos_vel_manuales st) (via, i, j) vel)
             (tree st) (map_widget st)
  | _, _, _ => st
  end.

(** The two global speeds after the lines
    [vel_min = max(5.0, min(vel_min, vel_max))] and
    [vel_max = max(vel_min, min(vel_max, 110.0))] of both calculations. *)
Definition limites_velocidad (vel_min vel_max : R) : R * R :=
  let vel_min := Coordinacion.py_max 5 (Coordinacion.py_min vel_min vel_max) in
  let vel_max := Coordinacion.py_max vel_min
                   (Coordinacion.py_min vel_max 110) in
  (vel_min, vel_max).

(** [main.py] repeats [haversine] of [coordinacion.py] line by line. *)
Definition haversine : R -> R -> R -> R -> resultado R :=
  Coordinacion.haversine.

(** One pass of the loop of [calcular_onda_verde]. *)
Definition cuerpo_onda_verde (via : string)
  (sorted_markers : list (R * R * marcador)) (manuales : list (clave * R))
  (vel_min vel_max : R) (acc : list Fila) (idx : Z) : resultado (list Fila) :=
  m1 <- getitem sorted_markers idx ;;
  m2 <- getitem sorted_markers (idx + 1)%Z ;;
  let '(lat1, lon1, _) := m1 in
  let '(lat2, lon2, _) := m2 in
  d_m <- haversine lat1 lon1 lat2 lon2 ;;
  let vel_tramo := dict_get clave_eqb manuales (via, idx, (idx + 1)%Z)
                     vel_max in
  let vel_tramo := Coordinacion.py_max vel_min
                     (Coordinacion.py_min vel_tramo vel_max) in
  let v_ms := vel_tramo * 1000 / 3600 in
  t_seg <- (if Rlt_dec 0 v_ms then Coordinacion.truediv d_m v_ms
            else ret 999) ;;
  ret (acc ++ [mkFila via idx (idx + 1)%Z (int_ d_m) (round1 vel_tramo)
                 (round1 t_seg) (int_ t_seg)]).

(** [calcular_onda_verde]; [es_via1] is the test ["Vía 1" in via_sel] on
    the text of the combo box, and the texts of the two speed entries come
    parsed, [None] where [float] raises [ValueError]. *)
Definition calcular_onda_verde (es_via1 : bool)
  (entry_vel_min entry_vel_max : option R) (st : EditorMapaSemaforos)
  : resultado EditorMapaSemaforos :=
  let '(marcadores, via) :=
    if es_via1 then (marcadores_via1 st, "V1"%string)
    else (marcadores_via2 st, "V2"%string) in
  if (List.length marcadores <? 2)%nat then ret st
  else
    match entry_vel_min, entry_vel_max with
    | Some vel_min, Some vel_max =>
        let '(vel_min, vel_max) := limites_velocidad vel_min vel_max in
        let sorted_markers := sorted (fun x => snd (fst x)) marcadores in
        filas <- for_in (range (List.length sorted_markers - 1))
                   (cuerpo_onda_verde via sorted_markers
                      (tramos_vel_manuales st) vel_min vel_max) [] ;;
        ret (mkEditor (marcadores_via1 st) (marcadores_via2 st)
               (controladores_esp st) (via_activa st) (modo_esp st)
               (undo_stack st) (tramos_vel_manuales st) filas
               (map_widget st))
    | _, _ => ret st
    end.

(** The signals [calcular_coordinacion_avanzada] hands over for a
    corridor: its markers sorted by longitude and numbered from 0. *)
Definition semaforos_de (marcadores : list (R * R * marcador))
  : list Coordinacion.DictSemaforo :=
  map (fun e => Coordinacion.mkDictSemaforo (fst e) (fst (fst (snd e)))
                  (snd (fst (snd e))))
    (enumerate (sorted (fun x => snd (fst x)) marcadores)).

(** The loop over [tramos_vel_manuales.items()]: the manual speeds as
    zones of corridor 1 and of corridor 2. *)
Definition repartir_tramos (manuales : list (clave * R))
  : list Coordinacion.DictTramoVd * list Coordinacion.DictTramoVd :=
  fold_left
    (fun acc e =>
       let '(via1_tramos_vd, via2_tramos_vd) := acc in
       let '((via, i, j), vel) := e in
       if String.eqb via "V1"
       then (via1_tramos_vd ++ [Coordinacion.mkDictTramoVd i j vel],
             via2_tramos_vd)
       else (via1_tramos_vd,
             via2_tramos_vd ++ [Coordinacion.mkDictTramoVd i j vel]))
    manuales ([], []).

(** The rows of one corridor of the plan. *)
Definition filas_de_plan (via_key : string) (p : Coordinacion.DictPlan)
  : list Fila :=
  map (fun t => mkFila via_key (Coordinacion.tc_i t) (Coordinacion.tc_j t)
                  (int_ (Coordinacion.dist_m t))
                  (round1 (Coordinacion.tc_vd_kmh t))
                  (round1 (Coordinacion.offset_s t))
                  (int_ (Coordinacion.tiempo_viaje_s t)))
    (Coordinacion.dp_tramos p).

(** The call of [coordinacion.generar_plan_global] in
    [calcular_coordinacion_avanzada]: flows, lost time and bandwidth
    fraction are left to their defaults. *)
Definition plan_avanzado (vel_min vel_max : R) (st : EditorMapaSemaforos)
  : resultado Coordinacion.DictGlobal :=
  let '(vel_min, vel_max) := limites_velocidad vel_min vel_max in
  let '(via1_tramos_vd, via2_tramos_vd) :=
    repartir_tramos (tramos_vel_manuales st) in
  Coordinacion.generar_plan_global (semaforos_de (marcadores_via1 st))
    (semaforos_de (marcadores_via2 st)) via1_tramos_vd via2_tramos_vd
    vel_max vel_max None None Coordinacion.lost_time_s_default
    Coordinacion.porcentaje_default.

Definition calcular_coordinacion_avanzada
  (entry_vel_min entry_vel_max : option R) (st : EditorMapaSemaforos)
  : resultado EditorMapaSemaforos :=
  let via1_semaforos := semaforos_de (marcadores_via1 st) in
  let via2_semaforos := semaforos_de (marcadores_via2 st) in
  if ((List.length via1_semaforos <? 2)%nat
      && (List.length via2_semaforos <? 2)%nat)%bool then ret st
  else
    match entry_vel_min, entry_vel_max with
    | Some vel_min, Some vel_max =>
        plan <- plan_avanzado vel_min vel_max st ;;
        let filas := filas_de_plan "V1" (Coordinacion.V1 plan)
                     ++ filas_de_plan "V2" (Coordinacion.V2 plan) in
        ret (mkEditor (marcadores_via1 st) (marcadores_via2 st)
               (controladores_esp st) (via_activa st) (modo_esp st)
               (undo_stack st) (tramos_vel_manuales st) filas
               (map_widget st))
    | _, _ => ret st
    end.

(** [simular_ajuste_difuso] on the table of the editor: the two series it
    plots. *)
Definition simular_ajuste_difuso (st : EditorMapaSemaforos)
  : resultado (option (list Q * list Z)) :=
  Main.simular_ajuste_difuso (map f_t_seg (tree st)).

End Editor.

(** * Specification vocabulary *)

Module Espec.

Import Coordinacion.

Local Open Scope R_scope.

(** The zone [tv] covers the segment [idx]: [i_inicio <= idx < i_fin]. *)
Definition cubre (idx : Z) (tv : TramoVelocidad) : Prop :=
  (i_inicio tv <= idx < i_fin tv)%Z.

(** The quantity [a] of [haversine]. *)
Definition hav_a (lat1 lon1 lat2 lon2 : R) : R :=
  sin (math_radians (lat2 - lat1) / 2) ^ 2
  + cos (math_radians lat1) * cos (math_radians lat2)
    * sin (math_radians (lon2 - lon1) / 2) ^ 2.

(** The value [haversine] returns. *)
Definition distancia (lat1 lon1 lat2 lon2 : R) : R :=
  let a := hav_a lat1 lon1 lat2 lon2 in
  6371e3 * (2 * math_atan2 (sqrt a) (sqrt (1 - a))).

(** The point of the unit sphere at a latitude and a longitude. *)
Definition vx (la lo : R) : R := cos (math_radians la) * cos (math_radians lo).
Definition vy (la lo : R) : R := cos (math_radians la) * sin (math_radians lo).
Definition vz (la : R) : R := sin (math_radians la).




(** The speed [construir_tramos_coordinacion] divides by, in m/s, for a
    design speed in km/h. *)
Definition divisor_ms (vd : R) : R :=
  let vd_ms := vd * 1000 / 3600 in
  if Rle_dec vd_ms 0 then 0.1 else vd_ms.

(** The segment plan of the pair [s_i], [s_j] at index [idx]. *)
Definition tramo_de (via : string) (tramos_vd : list TramoVelocidad)
  (vd_default_kmh : R) (idx : Z) (s_i s_j : Semaforo) : TramoCoordinacion :=
  let d := distancia (lat s_i) (lon s_i) (lat s_j) (lon s_j) in
  let vd := asignar_vd_a_tramo idx tramos_vd vd_default_kmh in
  mkTramoCoordinacion via (id_local s_i) (id_local s_j) d vd
    (d / divisor_ms vd) (d / divisor_ms vd).


End Espec.

(** * Further vocabulary *)

Module EspecAmpliada.

Import Coordinacion.

Local Open Scope R_scope.

(** The saturation [y] of [estimar_ciclo_webster] before its guard
    [y >= 1.0]. *)
Definition saturacion (flujos_criticos : list R) : R :=
  match flujos_criticos with
  | [] => 0.6
  | _ :: _ => py_min (py_max (sum flujos_criticos) 0.2) 0.9
  end.

(** The cycle of the simplified Webster formula for a saturation [y],
    cut to [[40, 140]]. *)
Definition ciclo_de (y lost_time_s : R) : R :=
  py_max 40 (py_min ((1.5 * lost_time_s + 5) / (1 - y)) 140).

(** The last two lines of [haversine], from the quantity [a] on:
    [c = 2 * math.atan2(math.sqrt(a), math.sqrt(1 - a))] and
    [return R * c]. *)
Definition arco_de (a : R) : resultado R :=
  ra <- math_sqrt a ;;
  rb <- math_sqrt (1 - a) ;;
  ret (6371e3 * (2 * math_atan2 ra rb)).

(** The test of [asignar_vd_a_tramo]: [i_inicio <= idx < i_fin]. *)
Definition cubre_b (idx : Z) (tv : TramoVelocidad) : bool :=
  ((i_inicio tv <=? idx) && (idx <? i_fin tv))%Z.

(** An entry of the undo stack names a marker that stands in the list of
    its kind. *)
Definition entrada_vigente (st : Editor.EditorMapaSemaforos)
  (e : string * Editor.marcador) : Prop :=
  (fst e = "V1"%string
   /\ In (snd e) (map snd (Editor.marcadores_via1 st)))
  \/ (fst e = "V2"%string
      /\ In (snd e) (map snd (Editor.marcadores_via2 st)))
  \/ (fst e = "ESP"%string
      /\ In (snd e) (map Editor.esp_marker (Editor.controladores_esp st))).

(** The undo stack is sound: its markers are distinct, were created by the
    map, and each stands in the list of its kind. *)
Definition pila_vigente (st : Editor.EditorMapaSemaforos) : Prop :=
  NoDup (map snd (Editor.undo_stack st))
  /\ Forall (fun e => (snd e < Editor.map_widget st)%nat)
       (Editor.undo_stack st)
  /\ Forall (entrada_vigente st) (Editor.undo_stack st).

(** The number of markers and controllers on the map. *)
Definition total_marcadores (st : Editor.EditorMapaSemaforos) : nat :=
  (List.length (Editor.marcadores_via1 st)
   + List.length (Editor.marcadores_via2 st)
   + List.length (Editor.controladores_esp st))%nat.

(** The markers of a corridor as [calcular_onda_verde] and
    [calcular_coordinacion_avanzada] order them. *)
Definition por_longitud (marcadores : list (R * R * Editor.marcador))
  : list (R * R * Editor.marcador) :=
  Editor.sorted (fun x => snd (fst x)) marcadores.

(** The speed of the segment [k] in [calcular_onda_verde]. *)
Definition vel_onda_verde (via : string)
  (manuales : list (Editor.clave * R)) (vel_min vel_max : R) (k : nat) : R :=
  py_max vel_min
    (py_min (Editor.dict_get Editor.clave_eqb manuales
               (via, Z.of_nat k, (Z.of_nat k + 1)%Z) vel_max) vel_max).

(** The row of the segment [k] in [calcular_onda_verde]. *)
Definition fila_onda_verde (via : string)
  (ordenados : list (R * R * Editor.marcador))
  (manuales : list (Editor.clave * R)) (vel_min vel_max : R) (k : nat)
  : Editor.Fila :=
  let m1 := nth k ordenados (0, 0, 0%nat) in
  let m2 := nth (S k) ordenados (0, 0, 0%nat) in
  let d_m := Espec.distancia (fst (fst m1)) (snd (fst m1))
               (fst (fst m2)) (snd (fst m2)) in
  let vel := vel_onda_verde via manuales vel_min vel_max k in
  let t_seg := d_m / (vel * 1000 / 3600) in
  Editor.mkFila via (Z.of_nat k) (Z.of_nat k + 1)%Z (Editor.int_ d_m)
    (Editor.round1 vel) (Editor.round1 t_seg) (Editor.int_ t_seg).

(** The signals of a corridor as [generar_plan_global] builds them from
    what [calcular_coordinacion_avanzada] hands over. *)
Definition semaforos_objeto (marcadores : list (R * R * Editor.marcador))
  : list Semaforo :=
  map (fun s => mkSemaforo (d_id s) (d_lat s) (d_lon s))
    (Editor.semaforos_de marcadores).

(** The zones of a corridor as [generar_plan_global] builds them from the
    manual speeds. *)
Definition zonas_objeto (es_via1 : bool) (manuales : list (Editor.clave * R))
  : list TramoVelocidad :=
  map (fun e => mkTramoVelocidad (snd (fst (fst e))) (snd (fst e)) (snd e))
    (filter (fun e => if es_via1 then String.eqb (fst (fst (fst e))) "V1"
                      else negb (String.eqb (fst (fst (fst e))) "V1"))
       manuales).

(** The segment plans of a corridor in the plan of
    [calcular_coordinacion_avanzada], for the default speed [vel_max]. *)
Definition tramos_avanzados (es_via1 : bool) (vel_max : R)
  (st : Editor.EditorMapaSemaforos) : list TramoCoordinacion :=
  let marcadores := if es_via1 then Editor.marcadores_via1 st
                    else Editor.marcadores_via2 st in
  let via := if es_via1 then "V1"%string else "V2"%string in
  let sems := semaforos_objeto marcadores in
  map (fun k => Espec.tramo_de via
                  (zonas_objeto es_via1 (Editor.tramos_vel_manuales st))
                  vel_max (Z.of_nat k) (nth k sems (mkSemaforo 0 0 0))
                  (nth (S k) sems (mkSemaforo 0 0 0)))
    (seq 0 (List.length sems - 1)).

(** The row of a segment plan. *)
Definition fila_de_tramo (via_key : string) (t : TramoCoordinacion)
  : Editor.Fila :=
  Editor.mkFila via_key (tc_i t) (tc_j t) (Editor.int_ (dist_m t))
    (Editor.round1 (tc_vd_kmh t)) (Editor.round1 (offset_s t))
    (Editor.int_ (tiempo_viaje_s t)).

(** The states of the editor: the one it opens with and those the
    methods lead to. *)
Inductive alcanzable : Editor.EditorMapaSemaforos -> Prop :=
| alc_init : forall archivo, alcanzable (Editor.init archivo)
| alc_click : forall coords st,
    alcanzable st -> alcanzable (Editor.click_mapa coords st)
| alc_toggle : forall st,
    alcanzable st -> alcanzable (Editor.toggle_modo_esp st)
| alc_via : forall via st,
    alcanzable st -> alcanzable (Editor.seleccionar_via via st)
| alc_deshacer : forall st st',
    alcanzable st -> Editor.deshacer_ultima_accion st = inr st' ->
    alcanzable st'
| alc_tramo : forall es_via1 i j vel st,
    alcanzable st ->
    alcanzable (Editor.agregar_tramo_manual es_via1 i j vel st)
| alc_onda_verde : forall es_via1 a b st st',
    alcanzable st -> Editor.calcular_onda_verde es_via1 a b st = inr st' ->
    alcanzable st'
| alc_avanzada : forall a b st st',
    alcanzable st ->
    Editor.calcular_coordinacion_avanzada a b st = inr st' ->
    alcanzable st'.

(** What the methods keep, for speed entries that are numbers: a sound undo
    stack, manual speeds between 5 and 110 km/h under distinct keys, and
    base times in the table that are not negative. *)
Definition estado_valido (st : Editor.EditorMapaSemaforos) : Prop :=
  pila_vigente st
  /\ Forall (fun e => 5 <= snd e <= 110) (Editor.tramos_vel_manuales st)
  /\ NoDup (map fst (Editor.tramos_vel_manuales st))
  /\ Forall (fun f => (0 <= Editor.f_t_seg f)%Z) (Editor.tree st).

(** An editor opened without a file, after two clicks on the map for
    corridor 1 and a manual speed of 40 km/h for the segment between the
    two markers. *)
Definition editor_con_marcadores : Editor.EditorMapaSemaforos :=
  Editor.agregar_tramo_manual true (Some 0%Z) (Some 1%Z) (Some 40)
    (Editor.click_mapa (0, 1)
       (Editor.click_mapa (0, 0) (Editor.init None))).

(** That editor after [calcular_onda_verde] for corridor 1 with the speed
    entries 30 and 60. *)
Definition editor_con_tabla : Editor.EditorMapaSemaforos :=
  match Editor.calcular_onda_verde true (Some 30) (Some 60)
          editor_con_marcadores with
  | inr st => st
  | inl _ => editor_con_marcadores
  end.

End EspecAmpliada.

(** * Properties *)

Import Coordinacion Espec.

Local Open Scope R_scope.

(** ** The error monad and loops *)

Lemma bind_inr {A B : Type} (m : resultado A) (k : A -> resultado B) (a : A) :
  m = inr a -> bind m k = k a.
Proof. intros ->. reflexivity. Qed.

(** A loop whose body appends one item per element appends their image. *)
Lemma for_in_append {A B : Type} (g : A -> B)
  (body : list B -> A -> resultado (list B)) (xs : list A) :
  (forall x acc, In x xs -> body acc x = inr (acc ++ [g x])) ->
  forall acc, for_in xs body acc = inr (acc ++ map g xs).
Proof.
  induction xs as [|x xs IH]; intros Hbody acc; simpl.
  - now rewrite app_nil_r.
  - rewrite (Hbody x acc (or_introl eq_refl)). simpl.
    rewrite IH by (intros; apply Hbody; now right).
    now rewrite <- app_assoc.
Qed.

Lemma in_range (n : nat) (z : Z) :
  In z (range n) <-> exists k, (k < n)%nat /\ z = Z.of_nat k.
Proof.
  unfold range. rewrite in_map_iff. split.
  - intros (k & <- & Hk). apply in_seq in Hk. exists k. split; [lia|easy].
  - intros (k & Hk & ->). exists k. split; [easy|]. apply in_seq. lia.
Qed.

Lemma getitem_nth {A : Type} (xs : list A) (k : nat) (d : A) :
  (k < List.length xs)%nat -> getitem xs (Z.of_nat k) = inr (nth k xs d).
Proof.
  intros Hk. unfold getitem. rewrite Nat2Z.id.
  now rewrite (nth_error_nth' xs d Hk).
Qed.

(** ** Clamps *)

(** Case analysis on the comparisons of the goal, innermost first. *)
Ltac sin_comparacion t :=
  lazymatch t with
  | context [Rlt_dec _ _] => fail
  | context [Rle_dec _ _] => fail
  | context [Rge_dec _ _] => fail
  | context [Req_dec_T _ _] => fail
  | _ => idtac
  end.

Ltac caso_orden :=
  repeat match goal with
    | |- context [Rlt_dec ?a ?b] =>
        sin_comparacion a; sin_comparacion b; destruct (Rlt_dec a b)
    | |- context [Rle_dec ?a ?b] =>
        sin_comparacion a; sin_comparacion b; destruct (Rle_dec a b)
    | |- context [Rge_dec ?a ?b] =>
        sin_comparacion a; sin_comparacion b; destruct (Rge_dec a b)
    | |- context [Req_dec_T ?a ?b] =>
        sin_comparacion a; sin_comparacion b; destruct (Req_dec_T a b)
    end.

Lemma py_max_spec (a b : R) : py_max a b = Rmax a b.
Proof. unfold py_max, Rmax. caso_orden; lra. Qed.

Lemma py_min_spec (a b : R) : py_min a b = Rmin b a.
Proof. unfold py_min, Rmin. caso_orden; lra. Qed.

Lemma recorte_acotado (lo hi x : R) :
  lo <= hi -> lo <= py_max lo (py_min x hi) <= hi.
Proof. intros H. unfold py_max, py_min. caso_orden; lra. Qed.

Lemma truediv_ok (x y : R) : y <> 0 -> truediv x y = inr (x / y).
Proof. intros H. unfold truediv. now destruct (Req_dec_T y 0). Qed.

(** ** Speed zones *)

Lemma cubre_bool (idx : Z) (tv : TramoVelocidad) :
  ((i_inicio tv <=? idx) && (idx <? i_fin tv))%Z = true <-> cubre idx tv.
Proof. unfold cubre. rewrite andb_true_iff, Z.leb_le, Z.ltb_lt. tauto. Qed.

(** C5. [asignar_vd_a_tramo] returns the design speed of the first zone, in
    list order, whose half-open range [[i_inicio, i_fin)] holds the segment
    index, and the default speed when no zone holds it.  The function is
    total: empty and overlapping lists give a value like any other. *)
Theorem asignar_vd_primera_zona (idx : Z) (tramos_vd : list TramoVelocidad)
  (vd_default_kmh : R) :
  (exists antes tv despues,
      tramos_vd = antes ++ tv :: despues
      /\ Forall (fun z => ~ cubre idx z) antes
      /\ cubre idx tv
      /\ asignar_vd_a_tramo idx tramos_vd vd_default_kmh = vd_kmh tv)
  \/ (Forall (fun z => ~ cubre idx z) tramos_vd
      /\ asignar_vd_a_tramo idx tramos_vd vd_default_kmh = vd_default_kmh).
Proof.
  induction tramos_vd as [|z zs IH]; simpl.
  - right. split; [constructor | reflexivity].
  - destruct ((i_inicio z <=? idx) && (idx <? i_fin z))%Z eqn:Hz.
    + left. exists [], z, zs. apply cubre_bool in Hz. simpl. auto.
    + assert (Hno : ~ cubre idx z).
      { intros Hc. apply cubre_bool in Hc. congruence. }
      destruct IH as [(antes & tv & despues & -> & Hantes & Htv & Heq)
                     | [Hall Heq]].
      * left. exists (z :: antes), tv, despues. simpl. auto.
      * right. auto.
Qed.

(** ** Cycle length *)

Lemma saturacion_bajo_uno (flujos_criticos : list R) :
  let y := match flujos_criticos with
           | [] => 0.6
           | _ :: _ => py_min (py_max (sum flujos_criticos) 0.2) 0.9
           end in
  (if Rge_dec y 1 then 0.9 else y) < 1.
Proof.
  destruct flujos_criticos as [|x xs]; cbv zeta.
  - caso_orden; lra.
  - unfold py_min, py_max. caso_orden; lra.
Qed.

(** The cycle the function returns, with the saturation [y] it used. *)
Lemma estimar_ciclo_webster_valor (flujos_criticos : list R)
  (lost_time_s : R) :
  exists y,
    y < 1
    /\ estimar_ciclo_webster flujos_criticos lost_time_s
       = inr (py_max 40 (py_min ((1.5 * lost_time_s + 5) / (1 - y)) 140)).
Proof.
  unfold estimar_ciclo_webster.
  pose proof (saturacion_bajo_uno flujos_criticos) as Hy. cbv zeta in Hy.
  set (y := if Rge_dec _ 1 then 0.9 else _) in *.
  exists y. split; [exact Hy|]. now rewrite truediv_ok by lra.
Qed.

(** C2. For every list of critical-flow ratios, the empty one and those
    with negative or large entries included, and every lost time,
    [estimar_ciclo_webster] returns a cycle [C] with [40 <= C <= 140]; it
    raises nothing. *)
Theorem estimar_ciclo_webster_acotado (flujos_criticos : list R)
  (lost_time_s : R) :
  exists C, estimar_ciclo_webster flujos_criticos lost_time_s = inr C
            /\ 40 <= C <= 140.
Proof.
  destruct (estimar_ciclo_webster_valor flujos_criticos lost_time_s)
    as (y & _ & Hv).
  eexists. split; [exact Hv|]. apply recorte_acotado. lra.
Qed.

(** ** Target bandwidth *)

(** C7. For every cycle [C] and every requested fraction [f],
    [calcular_banda_objetivo C f] is [C] times the fraction clamped to
    [[0.3, 0.7]], so it lies between [0.3 * C] and [0.7 * C]: in this order
    for a cycle length [C >= 0], in the reverse order below zero. *)
Theorem calcular_banda_objetivo_entre (C f : R) :
  let B := calcular_banda_objetivo C f in
  let p := py_max 0.3 (py_min f 0.7) in
  B = C * p
  /\ 0.3 <= p <= 0.7
  /\ Rmin (0.3 * C) (0.7 * C) <= B <= Rmax (0.3 * C) (0.7 * C)
  /\ (0 <= C -> 0.3 * C <= B <= 0.7 * C).
Proof.
  cbv zeta. unfold calcular_banda_objetivo.
  pose proof (recorte_acotado 0.3 0.7 f ltac:(lra)) as Hp.
  set (p := py_max 0.3 (py_min f 0.7)) in *.
  split; [reflexivity|]. split; [exact Hp|]. split.
  - unfold Rmin, Rmax. destruct (Rle_dec (0.3 * C) (0.7 * C)); nra.
  - intros HC. nra.
Qed.

(** ** Great-circle distance *)

Lemma sin_mitad_cuadrado (x : R) : sin (x / 2) ^ 2 = (1 - cos x) / 2.
Proof.
  pose proof (cos_2a_sin (x / 2)) as H.
  replace (2 * (x / 2)) with x in H by field. rewrite H. field.
Qed.

Lemma math_radians_resta (x y : R) :
  math_radians (x - y) = math_radians x - math_radians y.
Proof. unfold math_radians. ring. Qed.

Lemma seno_coseno_uno (x : R) : sin x * sin x + cos x * cos x = 1.
Proof. exact (sin2_cos2 x). Qed.

(** [hav_a] through the latitude sines and cosines and the cosine of the
    longitude difference. *)
Lemma hav_a_producto (lat1 lon1 lat2 lon2 : R) :
  4 * hav_a lat1 lon1 lat2 lon2 =
  2 - 2 * sin (math_radians lat1) * sin (math_radians lat2)
  - 2 * cos (math_radians lat1) * cos (math_radians lat2)
    * (cos (math_radians lon1) * cos (math_radians lon2)
       + sin (math_radians lon1) * sin (math_radians lon2)).
Proof.
  unfold hav_a. rewrite !sin_mitad_cuadrado, !math_radians_resta, !cos_minus.
  field.
Qed.

Lemma cuerda_algebra (c1 s1 c2 s2 cl1 sl1 cl2 sl2 : R) :
  s1 * s1 + c1 * c1 = 1 -> s2 * s2 + c2 * c2 = 1 ->
  sl1 * sl1 + cl1 * cl1 = 1 -> sl2 * sl2 + cl2 * cl2 = 1 ->
  2 - 2 * s1 * s2 - 2 * c1 * c2 * (cl1 * cl2 + sl1 * sl2) =
  (c1 * cl1 - c2 * cl2) ^ 2 + (c1 * sl1 - c2 * sl2) ^ 2 + (s1 - s2) ^ 2.
Proof.
  intros H1 H2 H3 H4.
  replace ((c1 * cl1 - c2 * cl2) ^ 2 + (c1 * sl1 - c2 * sl2) ^ 2
           + (s1 - s2) ^ 2)
    with ((s1 * s1 + c1 * c1 * (sl1 * sl1 + cl1 * cl1))
          + (s2 * s2 + c2 * c2 * (sl2 * sl2 + cl2 * cl2))
          - 2 * s1 * s2 - 2 * c1 * c2 * (cl1 * cl2 + sl1 * sl2)) by ring.
  rewrite H3, H4, !Rmult_1_r, H1, H2. ring.
Qed.

(** Four times [hav_a] is the squared chord between the two points. *)
Lemma hav_a_cuerda (lat1 lon1 lat2 lon2 : R) :
  4 * hav_a lat1 lon1 lat2 lon2 =
  (vx lat1 lon1 - vx lat2 lon2) ^ 2 + (vy lat1 lon1 - vy lat2 lon2) ^ 2
  + (vz lat1 - vz lat2) ^ 2.
Proof.
  rewrite hav_a_producto. unfold vx, vy, vz.
  apply cuerda_algebra; apply seno_coseno_uno.
Qed.

(** Four times [1 - hav_a] is the squared chord to the antipode. *)
Lemma hav_a_cuerda_antipoda (lat1 lon1 lat2 lon2 : R) :
  4 * (1 - hav_a lat1 lon1 lat2 lon2) =
  (vx lat1 lon1 + vx lat2 lon2) ^ 2 + (vy lat1 lon1 + vy lat2 lon2) ^ 2
  + (vz lat1 + vz lat2) ^ 2.
Proof.
  pose proof (hav_a_producto lat1 lon1 lat2 lon2) as Hp.
  pose proof (cuerda_algebra (cos (math_radians lat1)) (sin (math_radians lat1))
                (- cos (math_radians lat2)) (- sin (math_radians lat2))
                (cos (math_radians lon1)) (sin (math_radians lon1))
                (cos (math_radians lon2)) (sin (math_radians lon2))) as Hc.
  unfold vx, vy, vz.
  replace ((cos (math_radians lat1) * cos (math_radians lon1)
            + cos (math_radians lat2) * cos (math_radians lon2)) ^ 2
           + (cos (math_radians lat1) * sin (math_radians lon1)
              + cos (math_radians lat2) * sin (math_radians lon2)) ^ 2
           + (sin (math_radians lat1) + sin (math_radians lat2)) ^ 2)
    with ((cos (math_radians lat1) * cos (math_radians lon1)
           - - cos (math_radians lat2) * cos (math_radians lon2)) ^ 2
          + (cos (math_radians lat1) * sin (math_radians lon1)
             - - cos (math_radians lat2) * sin (math_radians lon2)) ^ 2
          + (sin (math_radians lat1) - - sin (math_radians lat2)) ^ 2) by ring.
  rewrite <- Hc.
  - lra.
  - apply seno_coseno_uno.
  - pose proof (seno_coseno_uno (math_radians lat2)). lra.
  - apply seno_coseno_uno.
  - apply seno_coseno_uno.
Qed.

Lemma cuadrados_no_negativos (x y z : R) : 0 <= x ^ 2 + y ^ 2 + z ^ 2.
Proof. nra. Qed.

Lemma hav_a_rango (lat1 lon1 lat2 lon2 : R) :
  0 <= hav_a lat1 lon1 lat2 lon2 <= 1.
Proof.
  pose proof (hav_a_cuerda lat1 lon1 lat2 lon2) as H1.
  pose proof (hav_a_cuerda_antipoda lat1 lon1 lat2 lon2) as H2.
  pose proof (cuadrados_no_negativos (vx lat1 lon1 - vx lat2 lon2)
                (vy lat1 lon1 - vy lat2 lon2) (vz lat1 - vz lat2)).
  pose proof (cuadrados_no_negativos (vx lat1 lon1 + vx lat2 lon2)
                (vy lat1 lon1 + vy lat2 lon2) (vz lat1 + vz lat2)).
  lra.
Qed.

(** Over the reals [haversine] raises nothing: both square roots have an
    argument in [[0, 1]]. *)
Lemma haversine_valor (lat1 lon1 lat2 lon2 : R) :
  haversine lat1 lon1 lat2 lon2 = inr (distancia lat1 lon1 lat2 lon2).
Proof.
  pose proof (hav_a_rango lat1 lon1 lat2 lon2) as Ha.
  unfold haversine, distancia. cbv zeta. fold (hav_a lat1 lon1 lat2 lon2).
  unfold math_sqrt.
  destruct (Rlt_dec (hav_a lat1 lon1 lat2 lon2) 0); [lra|]. simpl.
  destruct (Rlt_dec (1 - hav_a lat1 lon1 lat2 lon2) 0); [lra|]. reflexivity.
Qed.

Lemma hav_a_simetrica (lat1 lon1 lat2 lon2 : R) :
  hav_a lat1 lon1 lat2 lon2 = hav_a lat2 lon2 lat1 lon1.
Proof.
  apply (Rmult_eq_reg_l 4); [|lra]. rewrite !hav_a_producto. ring.
Qed.

Lemma hav_a_mismo (la lo : R) : hav_a la lo la lo = 0.
Proof.
  unfold hav_a. rewrite !Rminus_diag. unfold math_radians.
  replace (0 * (PI / 180) / 2) with 0 by field. rewrite sin_0. ring.
Qed.

(** C9. The great-circle distance is symmetric in its two points, and it
    is zero from a point to itself. *)
Theorem haversine_simetrica_y_nula (lat1 lon1 lat2 lon2 : R) :
  haversine lat1 lon1 lat2 lon2 = haversine lat2 lon2 lat1 lon1
  /\ haversine lat1 lon1 lat1 lon1 = inr 0.
Proof.
  rewrite !haversine_valor. unfold distancia. cbv zeta. split.
  - now rewrite (hav_a_simetrica lat1 lon1 lat2 lon2).
  - rewrite hav_a_mismo, Rminus_0_r, sqrt_0, sqrt_1. f_equal.
    unfold math_atan2. destruct (Rlt_dec 0 1); [|lra].
    replace (0 / 1) with 0 by field. rewrite atan_0. ring.
Qed.

Lemma atan_positivo (x : R) : 0 < x -> 0 < atan x.
Proof. intros H. rewrite <- atan_0. now apply atan_increasing. Qed.

(** The angle of [(sqrt (1 - a), sqrt a)] is zero at [a = 0] and positive
    on the rest of [[0, 1]]. *)
Lemma atan2_raices (a : R) :
  0 <= a <= 1 ->
  (a = 0 -> math_atan2 (sqrt a) (sqrt (1 - a)) = 0)
  /\ (a <> 0 -> 0 < math_atan2 (sqrt a) (sqrt (1 - a))).
Proof.
  intros [H0 H1]. split.
  - intros ->. rewrite Rminus_0_r, sqrt_0, sqrt_1. unfold math_atan2.
    destruct (Rlt_dec 0 1); [|lra].
    replace (0 / 1) with 0 by field. apply atan_0.
  - intros Hne. assert (Hra : 0 < sqrt a) by (apply sqrt_lt_R0; lra).
    unfold math_atan2.
    destruct (Rlt_dec 0 (sqrt (1 - a))) as [Hpos|Hnpos].
    + apply atan_positivo. now apply Rdiv_lt_0_compat.
    + pose proof (sqrt_pos (1 - a)).
      destruct (Rlt_dec (sqrt (1 - a)) 0); [lra|].
      destruct (Rlt_dec 0 (sqrt a)); [|lra].
      pose proof PI_RGT_0. lra.
Qed.








(** ** Segment plans *)

Lemma divisor_ms_positivo (vd : R) : 0 < divisor_ms vd.
Proof. unfold divisor_ms. cbv zeta. caso_orden; lra. Qed.

Lemma cuerpo_tramo_valor (via : string) (semaforos : list Semaforo)
  (tramos_vd : list TramoVelocidad) (vd_default_kmh : R) (d : Semaforo)
  (acc : list TramoCoordinacion) (k : nat) :
  (S k < List.length semaforos)%nat ->
  cuerpo_tramo via semaforos tramos_vd vd_default_kmh acc (Z.of_nat k)
  = inr (acc ++ [tramo_de via tramos_vd vd_default_kmh (Z.of_nat k)
                   (nth k semaforos d) (nth (S k) semaforos d)]).
Proof.
  intros Hk. unfold cuerpo_tramo.
  rewrite (getitem_nth semaforos k d) by lia. simpl.
  replace (Z.of_nat k + 1)%Z with (Z.of_nat (S k)) by lia.
  rewrite (getitem_nth semaforos (S k) d) by lia. simpl.
  rewrite haversine_valor. simpl.
  fold (divisor_ms (asignar_vd_a_tramo (Z.of_nat k) tramos_vd vd_default_kmh)).
  rewrite truediv_ok.
  - reflexivity.
  - pose proof (divisor_ms_positivo
                  (asignar_vd_a_tramo (Z.of_nat k) tramos_vd vd_default_kmh)).
    lra.
Qed.

(** Over the reals [construir_tramos_coordinacion] raises nothing and
    returns the plans of the consecutive pairs, in order. *)
Lemma construir_tramos_valor (via : string) (semaforos : list Semaforo)
  (tramos_vd : list TramoVelocidad) (vd_default_kmh : R) (d : Semaforo) :
  construir_tramos_coordinacion via semaforos tramos_vd vd_default_kmh
  = inr (map (fun k => tramo_de via tramos_vd vd_default_kmh (Z.of_nat k)
                         (nth k semaforos d) (nth (S k) semaforos d))
           (seq 0 (List.length semaforos - 1))).
Proof.
  unfold construir_tramos_coordinacion.
  destruct (List.length semaforos <? 2)%nat eqn:Hn.
  - apply Nat.ltb_lt in Hn.
    replace (List.length semaforos - 1)%nat with 0%nat by lia. reflexivity.
  - apply Nat.ltb_ge in Hn.
    rewrite (for_in_append
               (fun z => tramo_de via tramos_vd vd_default_kmh z
                           (nth (Z.to_nat z) semaforos d)
                           (nth (S (Z.to_nat z)) semaforos d))).
    + unfold range. rewrite map_map. simpl. f_equal.
      apply map_ext. intros k. now rewrite Nat2Z.id.
    + intros z acc Hz. apply in_range in Hz as (k & Hk & ->).
      rewrite Nat2Z.id. apply cuerpo_tramo_valor. lia.
Qed.

Lemma nth_error_map_seq {B : Type} (f : nat -> B) (n k : nat) (b : B) :
  nth_error (map f (seq 0 n)) k = Some b -> (k < n)%nat /\ b = f k.
Proof.
  intros H. assert (Hk : (k < n)%nat).
  { assert (Hn : nth_error (map f (seq 0 n)) k <> None) by congruence.
    apply nth_error_Some in Hn. now rewrite length_map, length_seq in Hn. }
  split; [exact Hk|].
  rewrite (nth_error_nth' _ (f 0%nat)) in H by (now rewrite length_map, length_seq).
  rewrite (map_nth f), seq_nth in H by exact Hk. simpl in H. congruence.
Qed.

(** C6. In every segment [construir_tramos_coordinacion] builds, the
    speed the distance is divided by is strictly positive: the resolved
    design speed in m/s, or 0.1 m/s when that is zero or negative.  The
    division raises nothing, whatever the design speeds. *)
Theorem divisor_de_tramo_positivo (via : string) (semaforos : list Semaforo)
  (tramos_vd : list TramoVelocidad) (vd_default_kmh : R) :
  exists ts,
    construir_tramos_coordinacion via semaforos tramos_vd vd_default_kmh
    = inr ts
    /\ forall k t, nth_error ts k = Some t ->
         let vd_ms := tc_vd_kmh t * 1000 / 3600 in
         let divisor := if Rle_dec vd_ms 0 then 0.1 else vd_ms in
         tc_vd_kmh t
         = asignar_vd_a_tramo (Z.of_nat k) tramos_vd vd_default_kmh
         /\ 0 < divisor
         /\ truediv (dist_m t) divisor = inr (offset_s t)
         /\ offset_s t = dist_m t / divisor.
Proof.
  eexists. split.
  - apply (construir_tramos_valor _ _ _ _ (mkSemaforo 0 0 0)).
  - intros k t Ht. apply nth_error_map_seq in Ht as [_ ->]. cbv zeta.
    unfold tramo_de. simpl.
    fold (divisor_ms (asignar_vd_a_tramo (Z.of_nat k) tramos_vd vd_default_kmh)).
    pose proof (divisor_ms_positivo
                  (asignar_vd_a_tramo (Z.of_nat k) tramos_vd vd_default_kmh)).
    split; [reflexivity|]. split; [assumption|].
    split; [apply truediv_ok; lra | reflexivity].
Qed.








(** ** Plans *)

(** Without flow ratios the saturation is the fallback [0.6]. *)
Lemma estimar_ciclo_webster_sin_flujos (lost_time_s : R) :
  estimar_ciclo_webster [] lost_time_s
  = inr (py_max 40 (py_min ((1.5 * lost_time_s + 5) / (1 - 0.6)) 140)).
Proof.
  unfold estimar_ciclo_webster. cbv zeta.
  destruct (Rge_dec 0.6 1); [lra|]. now rewrite truediv_ok by lra.
Qed.

Lemma generar_plan_para_via_valor (via : string) (semaforos : list Semaforo)
  (tramos_vd : list TramoVelocidad) (vd_default_kmh : R)
  (flujos_criticos : option (list R)) (lost_time_s banda_porcentaje : R) :
  exists ts C,
    construir_tramos_coordinacion via semaforos tramos_vd vd_default_kmh
    = inr ts
    /\ estimar_ciclo_webster (o_lista_vacia flujos_criticos) lost_time_s
       = inr C
    /\ generar_plan_para_via via semaforos tramos_vd vd_default_kmh
         flujos_criticos lost_time_s banda_porcentaje
       = inr (mkPlanCoordinacion via ts C
                (calcular_banda_objetivo C banda_porcentaje)).
Proof.
  pose proof (construir_tramos_valor via semaforos tramos_vd vd_default_kmh
                (mkSemaforo 0 0 0)) as Hts.
  destruct (estimar_ciclo_webster_valor (o_lista_vacia flujos_criticos)
              lost_time_s) as (y & _ & HC).
  eexists. eexists. split; [exact Hts|]. split; [exact HC|].
  unfold generar_plan_para_via. rewrite Hts. simpl. rewrite HC. reflexivity.
Qed.

(** C10. With [flujos_criticos = None], the default of the parameter,
    [generar_plan_para_via] and [generar_plan_global] return the plan they
    return for the empty list: [None] becomes [[]] before the cycle is
    estimated, the fallback saturation [0.6] is used, and nothing is
    raised. *)
Theorem plan_sin_flujos_como_lista_vacia (via : string)
  (semaforos : list Semaforo) (tramos_vd : list TramoVelocidad)
  (vd_default_kmh lost_time_s banda_porcentaje : R) :
  let C := py_max 40 (py_min ((1.5 * lost_time_s + 5) / (1 - 0.6)) 140) in
  generar_plan_para_via via semaforos tramos_vd vd_default_kmh None
    lost_time_s banda_porcentaje
  = generar_plan_para_via via semaforos tramos_vd vd_default_kmh (Some [])
      lost_time_s banda_porcentaje
  /\ (exists ts,
         generar_plan_para_via via semaforos tramos_vd vd_default_kmh None
           lost_time_s banda_porcentaje
         = inr (mkPlanCoordinacion via ts C
                  (calcular_banda_objetivo C banda_porcentaje)))
  /\ forall via1_semaforos via2_semaforos via1_tramos_vd via2_tramos_vd
       vd_default_via1_kmh vd_default_via2_kmh,
      generar_plan_global via1_semaforos via2_semaforos via1_tramos_vd
        via2_tramos_vd vd_default_via1_kmh vd_default_via2_kmh None None
        lost_time_s banda_porcentaje
      = generar_plan_global via1_semaforos via2_semaforos via1_tramos_vd
          via2_tramos_vd vd_default_via1_kmh vd_default_via2_kmh
          (Some []) (Some []) lost_time_s banda_porcentaje
      /\ exists plan,
          generar_plan_global via1_semaforos via2_semaforos via1_tramos_vd
            via2_tramos_vd vd_default_via1_kmh vd_default_via2_kmh None None
            lost_time_s banda_porcentaje
          = inr plan
          /\ dp_ciclo_base_s (V1 plan) = C
          /\ dp_ciclo_base_s (V2 plan) = C.
Proof.
  cbv zeta. split; [reflexivity|]. split.
  - destruct (generar_plan_para_via_valor via semaforos tramos_vd
                vd_default_kmh None lost_time_s banda_porcentaje)
      as (ts & C & _ & HC & Hp).
    simpl in HC. rewrite estimar_ciclo_webster_sin_flujos in HC.
    injection HC as <-. now exists ts.
  - intros s1 s2 t1 t2 vd1 vd2. split; [reflexivity|].
    unfold generar_plan_global. cbv zeta.
    set (sem_v1 := map _ s1). set (sem_v2 := map _ s2).
    set (tramos_v1 := map _ t1). set (tramos_v2 := map _ t2).
    destruct (generar_plan_para_via_valor "V1" sem_v1 tramos_v1 vd1 None
                lost_time_s banda_porcentaje) as (ts1 & C1 & _ & HC1 & Hp1).
    destruct (generar_plan_para_via_valor "V2" sem_v2 tramos_v2 vd2 None
                lost_time_s banda_porcentaje) as (ts2 & C2 & _ & HC2 & Hp2).
    simpl in HC1, HC2.
    rewrite estimar_ciclo_webster_sin_flujos in HC1, HC2.
    injection HC1 as <-. injection HC2 as <-.
    rewrite Hp1. simpl. rewrite Hp2. simpl.
    eexists. split; [reflexivity|]. split; reflexivity.
Qed.

(** ** The fuzzy controller *)

Import Main.

Local Open Scope Q_scope.

Lemma py_max_min_cota (z : Z) :
  (10 <= Main.py_max 10 (Main.py_min 90 z) <= 90)%Z.
Proof.
  unfold Main.py_max, Main.py_min.
  destruct (z <? 90)%Z eqn:H1.
  - destruct (10 <? z)%Z eqn:H2; lia.
  - simpl. lia.
Qed.

Lemma trimf_no_negativa (abc : triangulo) (x : Q) : 0 <= trimf abc x.
Proof.
  destruct abc as [[a b] c]. unfold trimf.
  destruct (Qeq_dec x b); [lra|].
  destruct (Qlt_le_dec a x); [|lra].
  destruct (Qlt_le_dec x b).
  - apply Qlt_le_weak, Qlt_shift_div_l; lra.
  - destruct (Qlt_le_dec x c); [|lra].
    apply Qlt_le_weak, Qlt_shift_div_l; lra.
Qed.

(** A triangular set is positive at its apex and inside its support. *)
Lemma trimf_positiva (a b c x : Q) :
  x == b \/ (a < x /\ x < c) -> 0 < trimf (a, b, c) x.
Proof.
  intros H. unfold trimf.
  destruct (Qeq_dec x b) as [Heq|Hne]; [lra|].
  destruct H as [Heq | [Hax Hxc]]; [contradiction|].
  destruct (Qlt_le_dec a x); [|lra].
  destruct (Qlt_le_dec x b).
  - apply Qlt_shift_div_l; lra.
  - destruct (Qlt_le_dec x c); [|lra].
    assert (b < x).
    { apply Qle_lteq in q0. destruct q0 as [Hlt|Heq]; [exact Hlt|].
      exfalso. apply Hne. now symmetry. }
    apply Qlt_shift_div_l; lra.
Qed.

Lemma trimf_apice (a b c : Q) : trimf (a, b, c) b == 1.
Proof.
  unfold trimf. destruct (Qeq_dec b b) as [_|Hne]; [reflexivity|].
  exfalso. now apply Hne.
Qed.

(** Inside the declared domains one of the three rules fires. *)
Lemma alguna_regla_dispara (v d : Q) :
  0 <= v <= 50 -> 0 <= d <= 60 ->
  0 < fuerza_regla1 v d \/ 0 < fuerza_regla2 v d \/ 0 < fuerza_regla3 v d.
Proof.
  intros [Hv0 Hv50] [Hd0 Hd60].
  unfold fuerza_regla1, fuerza_regla2, fuerza_regla3.
  unfold vehiculos_bajo, vehiculos_medio, vehiculos_alto.
  unfold detencion_corto, detencion_medio, detencion_largo.
  assert (Hmax : forall p q : Q, 0 < p \/ 0 < q -> 0 < Qmax p q).
  { intros p q H. now apply Q.max_lt_iff. }
  assert (Hapice : forall b x : Q, b <= x -> x <= b -> x == b).
  { intros b x H1 H2. now apply Qle_antisym. }
  destruct (Qlt_le_dec 10 v) as [Hv10|Hv10].
  - destruct (Qlt_le_dec v 40) as [Hv40|Hv40].
    + right. left. apply Hmax. left. apply trimf_positiva. right. lra.
    + right. right. apply Hmax. left. apply trimf_positiva.
      destruct (Qlt_le_dec v 50) as [Hlt|Hge].
      * right. lra.
      * left. now apply Hapice.
  - assert (Hbajo : 0 < trimf (0, 0, 15) v).
    { apply trimf_positiva. destruct (Qlt_le_dec 0 v) as [Hlt|Hge].
      - right. lra.
      - left. now apply Hapice. }
    destruct (Qlt_le_dec d 20) as [Hd20|Hd20].
    + left. apply Q.min_glb_lt; [exact Hbajo|].
      apply trimf_positiva. destruct (Qlt_le_dec 0 d) as [Hlt|Hge].
      * right. lra.
      * left. now apply Hapice.
    + destruct (Qlt_le_dec d 45) as [Hd45|Hd45].
      * right. left. apply Hmax. right. apply trimf_positiva. right. lra.
      * right. right. apply Hmax. right. apply trimf_positiva.
        destruct (Qlt_le_dec d 60) as [Hlt|Hge].
        -- right. lra.
        -- left. now apply Hapice.
Qed.

Lemma agregada_no_negativa (v d x : Q) : 0 <= agregada v d x.
Proof.
  unfold agregada.
  apply Qle_trans with (2 := Q.le_max_l _ _).
  apply Q.min_glb; [|apply trimf_no_negativa].
  unfold fuerza_regla1. apply Q.min_glb; apply trimf_no_negativa.
Qed.

Lemma suma_no_negativa (xs : list Q) :
  (forall x, In x xs -> 0 <= x) -> 0 <= suma xs.
Proof.
  induction xs as [|x xs IH]; intros H; simpl.
  - lra.
  - assert (0 <= x) by (apply H; now left).
    assert (0 <= suma xs) by (apply IH; intros; apply H; now right).
    lra.
Qed.

Lemma suma_positiva (xs : list Q) (x : Q) :
  (forall y, In y xs -> 0 <= y) -> In x xs -> 0 < x -> 0 < suma xs.
Proof.
  induction xs as [|y ys IH]; intros Hnn Hin Hx; simpl.
  - destruct Hin.
  - assert (0 <= y) by (apply Hnn; now left).
    assert (0 <= suma ys) by (apply suma_no_negativa; intros; apply Hnn; now right).
    destruct Hin as [->|Hin].
    + lra.
    + assert (0 < suma ys) by (apply IH; auto; intros; apply Hnn; now right).
      lra.
Qed.

Lemma en_universo (k : nat) :
  (k < 81)%nat -> In (inject_Z (10 + Z.of_nat k)) universo_tiempo_verde.
Proof.
  intros Hk. unfold universo_tiempo_verde.
  apply (in_map (fun k => inject_Z (10 + Z.of_nat k))). apply in_seq. lia.
Qed.

(** With a rule firing, the aggregated set has positive total degree over
    the output universe. *)
Lemma agregada_suma_positiva (v d : Q) :
  0 < fuerza_regla1 v d \/ 0 < fuerza_regla2 v d \/ 0 < fuerza_regla3 v d ->
  0 < suma (map (agregada v d) universo_tiempo_verde).
Proof.
  intros H.
  assert (Hnn : forall y, In y (map (agregada v d) universo_tiempo_verde)
                          -> 0 <= y).
  { intros y Hy. apply in_map_iff in Hy as (x & <- & _).
    apply agregada_no_negativa. }
  assert (Hclip : forall w abc, 0 < w -> 0 < trimf abc (snd (fst abc)) ->
                                0 < Qmin w (trimf abc (snd (fst abc)))).
  { intros w abc Hw Ht. now apply Q.min_glb_lt. }
  assert (Hap : forall a b c, 0 < trimf (a, b, c) b).
  { intros a b c. apply trimf_positiva. left. reflexivity. }
  destruct H as [H1 | [H2 | H3]].
  - apply (suma_positiva _ (agregada v d (inject_Z (10 + Z.of_nat 0)))).
    + exact Hnn.
    + apply in_map. apply en_universo. lia.
    + unfold agregada. apply Q.max_lt_iff. left.
      apply Q.min_glb_lt; [exact H1|]. apply (Hap 10 10 30).
  - apply (suma_positiva _ (agregada v d (inject_Z (10 + Z.of_nat 35)))).
    + exact Hnn.
    + apply in_map. apply en_universo. lia.
    + unfold agregada. apply Q.max_lt_iff. right.
      apply Q.max_lt_iff. left.
      apply Q.min_glb_lt; [exact H2|]. apply (Hap 25 45 65).
  - apply (suma_positiva _ (agregada v d (inject_Z (10 + Z.of_nat 80)))).
    + exact Hnn.
    + apply in_map. apply en_universo. lia.
    + unfold agregada. apply Q.max_lt_iff. right.
      apply Q.max_lt_iff. right.
      apply Q.min_glb_lt; [exact H3|]. apply (Hap 60 90 90).
Qed.

(** [calcular_tiempo] has no branch of its own for a failing engine: an
    exception of [compute] reaches the caller as it is, and a crisp value
    is truncated and clamped. *)
Lemma calcular_tiempo_sin_respaldo (vehiculos detencion : Q) :
  (forall e, compute vehiculos detencion = inl e ->
             calcular_tiempo vehiculos detencion = inl e)
  /\ (forall salida, compute vehiculos detencion = inr salida ->
                     calcular_tiempo vehiculos detencion
                     = inr (Main.py_max 10 (Main.py_min 90 (int_ salida)))).
Proof.
  unfold calcular_tiempo. split; intros x ->; reflexivity.
Qed.

(** Inside the declared domains the engine yields a crisp value, which
    [calcular_tiempo] truncates and clamps. *)
Lemma calcular_tiempo_valor (vehiculos detencion : Q) :
  0 <= vehiculos <= 50 -> 0 <= detencion <= 60 ->
  exists salida : Q,
    compute vehiculos detencion = inr salida
    /\ calcular_tiempo vehiculos detencion
       = inr (Main.py_max 10 (Main.py_min 90 (int_ salida))).
Proof.
  intros Hv Hd.
  pose proof (agregada_suma_positiva vehiculos detencion
                (alguna_regla_dispara vehiculos detencion Hv Hd)) as Hpos.
  unfold calcular_tiempo, compute, centroide. cbv zeta.
  destruct (Qeq_dec (suma (map (agregada vehiculos detencion)
                             universo_tiempo_verde)) 0) as [Hz|Hnz].
  - exfalso. rewrite Hz in Hpos. lra.
  - eexists. split; reflexivity.
Qed.

(** C3. For fuzzy inputs inside the declared domains, vehicles in
    [[0, 50]] and stop duration in [[0, 60]], [calcular_tiempo] returns an
    integer [r] with [10 <= r <= 90]. *)
Theorem calcular_tiempo_en_rango (vehiculos detencion : Q) :
  0 <= vehiculos <= 50 -> 0 <= detencion <= 60 ->
  exists r : Z,
    calcular_tiempo vehiculos detencion = inr r /\ (10 <= r <= 90)%Z.
Proof.
  intros Hv Hd.
  destruct (calcular_tiempo_valor vehiculos detencion Hv Hd)
    as (salida & _ & Hr).
  eexists. split; [exact Hr|]. apply py_max_min_cota.
Qed.

(** ** The inputs the caller derives *)

Lemma int_no_negativo (x : Q) : 0 <= x -> int_ x = Qfloor x.
Proof.
  intros H. unfold int_, Qfloor. destruct x as [n p]. simpl.
  apply Z.quot_div_nonneg; [|lia].
  unfold Qle in H. simpl in H. lia.
Qed.

Lemma int_entero (x : Q) (m : Z) : x == inject_Z m -> int_ x = m.
Proof.
  intros H. unfold int_. destruct x as [n p].
  unfold Qeq in H. simpl in *. rewrite Z.mul_1_r in H. subst n.
  apply Z.quot_mul. lia.
Qed.

Lemma py_min_Zmin (a b : Z) : Main.py_min a b = Z.min a b.
Proof. unfold Main.py_min. destruct (b <? a)%Z eqn:H; lia. Qed.

Lemma py_max_Zmax (a b : Z) : Main.py_max a b = Z.max a b.
Proof. unfold Main.py_max. destruct (a <? b)%Z eqn:H; lia. Qed.





(** The green time for 15 vehicles stopped 40 s. *)
Lemma calcular_tiempo_en_rango_testigo :
  exists r : Z, calcular_tiempo 15 40 = inr r /\ (10 <= r <= 90)%Z.
Proof.
  apply (calcular_tiempo_en_rango 15 40).
  - split; vm_compute; discriminate.
  - split; vm_compute; discriminate.
Defined.

(** ** The adjusted series *)

Lemma entradas_difusas_en_dominio (celda : Z) :
  (0 <= celda)%Z ->
  (0 <= fst (entradas_difusas (float_ celda)) <= 50)%Z
  /\ (5 <= snd (entradas_difusas (float_ celda)) <= 60)%Z.
Proof.
  intros Hc. unfold entradas_difusas. cbv zeta. simpl fst. simpl snd.
  rewrite !py_min_Zmin, py_max_Zmax. split; [|lia].
  assert (H0 : 0 <= float_ celda / 2).
  { apply Qle_shift_div_l; [lra|]. unfold float_.
    rewrite Zle_Qle in Hc. change (inject_Z 0) with 0 in Hc. lra. }
  rewrite (int_no_negativo _ H0).
  pose proof (Qfloor_resp_le _ _ H0) as Hf. change (Qfloor 0) with 0%Z in Hf.
  lia.
Qed.

Lemma inject_Z_rango (z lo hi : Z) :
  (lo <= z <= hi)%Z -> inject_Z lo <= inject_Z z <= inject_Z hi.
Proof. intros [H1 H2]. split; now rewrite <- Zle_Qle. Qed.

(** Over non-negative cells the loop raises nothing: it keeps the base
    times and adds one green time in [[10, 90]] per cell, in order. *)
Lemma for_in_cuerpo_ajuste (celdas : list Z) :
  Forall (fun c => (0 <= c)%Z) celdas ->
  forall tiempos_base tiempos_ajust,
  exists rs,
    for_in celdas cuerpo_ajuste (tiempos_base, tiempos_ajust)
    = inr (tiempos_base ++ map float_ celdas, tiempos_ajust ++ rs)
    /\ List.length rs = List.length celdas
    /\ Forall (fun r => (10 <= r <= 90)%Z) rs.
Proof.
  induction 1 as [|c cs Hc _ IH]; intros tb ta.
  - exists []. simpl. now rewrite !app_nil_r.
  - destruct (entradas_difusas_en_dominio c Hc) as [Hveh Hdet].
    destruct (calcular_tiempo_valor
                (inject_Z (fst (entradas_difusas (float_ c))))
                (inject_Z (snd (entradas_difusas (float_ c)))))
      as (salida & _ & Hr).
    { apply (inject_Z_rango _ 0 50). exact Hveh. }
    { apply (inject_Z_rango _ 0 60). lia. }
    set (r := Main.py_max 10 (Main.py_min 90 (int_ salida))) in Hr.
    destruct (IH (tb ++ [float_ c]) (ta ++ [r])) as (rs & Hrs & Hlen & Hall).
    exists (r :: rs). split; [|split].
    + cbn [for_in]. unfold cuerpo_ajuste at 1.
      destruct (entradas_difusas (float_ c)) as [veh det]. simpl in Hr.
      rewrite Hr. simpl. rewrite Hrs. now rewrite <- !app_assoc.
    + simpl. now rewrite Hlen.
    + constructor; [apply py_max_min_cota | exact Hall].
Qed.

Lemma simular_ajuste_difuso_total (celdas : list Z) :
  Forall (fun c => (0 <= c)%Z) celdas -> celdas <> [] ->
  exists tiempos_ajust,
    simular_ajuste_difuso celdas
    = inr (Some (map float_ celdas, tiempos_ajust))
    /\ List.length tiempos_ajust = List.length celdas
    /\ Forall (fun r => (10 <= r <= 90)%Z) tiempos_ajust.
Proof.
  intros Hc Hne.
  destruct (for_in_cuerpo_ajuste celdas Hc [] []) as (rs & Hrs & Hlen & Hall).
  exists rs. split; [|now split].
  unfold simular_ajuste_difuso. destruct celdas as [|c cs]; [contradiction|].
  rewrite Hrs. reflexivity.
Qed.

(** ** Worked cases *)

(** No flow ratios and the default lost time: [y = 0.6] and the cycle is
    57.5 s, inside the bounds. *)
Example ciclo_sin_flujos :
  estimar_ciclo_webster [] lost_time_s_default = inr 57.5%R.
Proof.
  rewrite estimar_ciclo_webster_sin_flujos. f_equal.
  unfold lost_time_s_default, Coordinacion.py_max, Coordinacion.py_min.
  assert (H : ((1.5 * 12 + 5) / (1 - 0.6) = 57.5)%R) by lra.
  rewrite H. caso_orden; lra.
Qed.

(** One ratio of 0.95: [y] is cut to 0.9, the raw cycle is 230 s and the
    result is the upper bound. *)
Example ciclo_saturado :
  estimar_ciclo_webster [0.95%R] lost_time_s_default = inr 140%R.
Proof.
  unfold estimar_ciclo_webster, sum, lost_time_s_default. simpl fold_left.
  assert (Hy : Coordinacion.py_min (Coordinacion.py_max (0 + 0.95) 0.2) 0.9
               = 0.9%R).
  { unfold Coordinacion.py_max, Coordinacion.py_min. caso_orden; lra. }
  cbv zeta. rewrite Hy. destruct (Rge_dec 0.9 1); [lra|].
  rewrite truediv_ok by lra. simpl. unfold ret. f_equal.
  assert (H : ((1.5 * 12 + 5) / (1 - 0.9) = 230)%R) by lra.
  rewrite H. unfold Coordinacion.py_max, Coordinacion.py_min.
  caso_orden; lra.
Qed.

(** Of two overlapping zones the first in the list gives the speed. *)
Example zonas_solapadas :
  asignar_vd_a_tramo 1
    [mkTramoVelocidad 0 3 40%R; mkTramoVelocidad 1 2 30%R] 50%R = 40%R
  /\ asignar_vd_a_tramo 1
       [mkTramoVelocidad 1 2 30%R; mkTramoVelocidad 0 3 40%R] 50%R = 30%R
  /\ asignar_vd_a_tramo 3
       [mkTramoVelocidad 0 3 40%R; mkTramoVelocidad 1 2 30%R] 50%R = 50%R.
Proof. repeat split. Qed.

(** Few vehicles and a short stop give a green time near the low end, many
    vehicles and a long stop one near the high end. *)
Example tiempos_extremos :
  calcular_tiempo 2 5 = inr 16%Z /\ calcular_tiempo 48 58 = inr 80%Z.
Proof. split; vm_compute; reflexivity. Qed.

(** Outside the domains, where the specification gives every set the
    degree zero, its centroid has nothing to divide by. *)
Example agregado_vacio : compute 60 70 = inl ZeroDivisionError.
Proof. vm_compute. reflexivity. Qed.

(** Three rows of the table, with base times 4 s, 30 s and 999 s. *)
Example ajuste_de_tres_tramos :
  simular_ajuste_difuso [4; 30; 999]%Z
  = inr (Some ([4; 30; 999], [80; 45; 80]%Z)).
Proof. vm_compute. reflexivity. Qed.

(** * Further properties of [coordinacion.py] *)

Local Open Scope R_scope.

(** ** The distance as an arc *)

Lemma atan2_seno_coseno (u : R) :
  0 <= u <= PI / 2 -> math_atan2 (sin u) (cos u) = u.
Proof.
  intros [H0 H1]. unfold math_atan2. pose proof PI_RGT_0 as Hpi.
  destruct (Req_dec_T u (PI / 2)) as [->|Hne].
  - rewrite cos_PI2, sin_PI2.
    destruct (Rlt_dec 0 0); [lra|]. destruct (Rlt_dec 0 1); [reflexivity|lra].
  - assert (Hc : 0 < cos u) by (apply cos_gt_0; lra).
    destruct (Rlt_dec 0 (cos u)); [|lra].
    change (sin u / cos u) with (tan u). apply atan_tan. lra.
Qed.

(** When [hav_a] is the squared sine of a half angle [x] of at most a
    quarter turn, the angle [c] of [haversine] is [2 * |x|]. *)
Lemma angulo_de_seno_cuadrado (x : R) :
  - (PI / 2) <= x <= PI / 2 ->
  math_atan2 (sqrt (sin x ^ 2)) (sqrt (1 - sin x ^ 2)) = Rabs x.
Proof.
  intros [Hlo Hhi]. pose proof PI_RGT_0 as Hpi.
  assert (Hcos : 1 - sin x ^ 2 = cos x ^ 2).
  { pose proof (seno_coseno_uno x). nra. }
  rewrite Hcos.
  assert (Hc : 0 <= cos x) by (apply cos_ge_0; lra).
  rewrite (sqrt_pow2 (cos x) Hc).
  destruct (Rle_dec 0 x) as [Hx|Hx].
  - assert (Hs : 0 <= sin x) by (apply sin_ge_0; lra).
    rewrite (sqrt_pow2 (sin x) Hs), (Rabs_right x) by lra.
    apply atan2_seno_coseno. lra.
  - assert (Hs : 0 <= sin (- x)) by (apply sin_ge_0; lra).
    replace (sin x ^ 2) with (sin (- x) ^ 2) by (rewrite sin_neg; ring).
    rewrite (sqrt_pow2 (sin (- x)) Hs), <- (cos_neg x), (Rabs_left x) by lra.
    apply atan2_seno_coseno. lra.
Qed.

Lemma Rabs_mitad_radianes (x : R) :
  Rabs x <= 180 ->
  - (PI / 2) <= math_radians x / 2 <= PI / 2
  /\ 2 * Rabs (math_radians x / 2) = Rabs x * (PI / 180).
Proof.
  intros H. pose proof PI_RGT_0 as Hpi. unfold math_radians.
  unfold Rabs in *.
  destruct (Rcase_abs x); destruct (Rcase_abs (x * (PI / 180) / 2));
    split; try nra.
Qed.

(** X1. Between two points of one meridian at most half a turn apart,
    [haversine] is the length of the arc: the earth radius times the
    latitude difference in radians. *)
Theorem haversine_sobre_meridiano (lat1 lat2 lon0 : R) :
  Rabs (lat2 - lat1) <= 180 ->
  haversine lat1 lon0 lat2 lon0
  = inr (6371e3 * (Rabs (lat2 - lat1) * (PI / 180))).
Proof.
  intros H. rewrite haversine_valor. unfold distancia. cbv zeta.
  destruct (Rabs_mitad_radianes _ H) as [Hr Habs].
  assert (Ha : hav_a lat1 lon0 lat2 lon0
               = sin (math_radians (lat2 - lat1) / 2) ^ 2).
  { unfold hav_a. rewrite Rminus_diag. unfold math_radians at 4.
    replace (0 * (PI / 180) / 2) with 0 by field. rewrite sin_0. ring. }
  rewrite Ha, (angulo_de_seno_cuadrado _ Hr), Habs. reflexivity.
Qed.

Lemma Rabs_noventa : Rabs (90 - 0) <= 180.
Proof. unfold Rabs. destruct (Rcase_abs (90 - 0)); lra. Qed.

(** From the equator to the pole along the meridian 0. *)
Lemma haversine_sobre_meridiano_testigo :
  haversine 0 0 90 0 = inr (6371e3 * (Rabs (90 - 0) * (PI / 180))).
Proof.
  apply (haversine_sobre_meridiano 0 90 0). exact Rabs_noventa.
Defined.

(** X2. Between two points of the equator at most half a turn apart,
    [haversine] is the earth radius times the longitude difference in
    radians. *)
Theorem haversine_sobre_ecuador (lon1 lon2 : R) :
  Rabs (lon2 - lon1) <= 180 ->
  haversine 0 lon1 0 lon2
  = inr (6371e3 * (Rabs (lon2 - lon1) * (PI / 180))).
Proof.
  intros H. rewrite haversine_valor. unfold distancia. cbv zeta.
  destruct (Rabs_mitad_radianes _ H) as [Hr Habs].
  assert (Ha : hav_a 0 lon1 0 lon2
               = sin (math_radians (lon2 - lon1) / 2) ^ 2).
  { unfold hav_a. rewrite Rminus_diag. unfold math_radians at 1 2 3.
    replace (0 * (PI / 180) / 2) with 0 by field.
    rewrite Rmult_0_l, sin_0, cos_0. ring. }
  rewrite Ha, (angulo_de_seno_cuadrado _ Hr), Habs. reflexivity.
Qed.

(** A quarter of the equator. *)
Lemma haversine_sobre_ecuador_testigo :
  haversine 0 0 0 90 = inr (6371e3 * (Rabs (90 - 0) * (PI / 180))).
Proof.
  apply (haversine_sobre_ecuador 0 90). exact Rabs_noventa.
Defined.

Lemma atan2_raices_cota (a : R) :
  0 <= a <= 1 -> 0 <= math_atan2 (sqrt a) (sqrt (1 - a)) <= PI / 2.
Proof.
  intros Ha. pose proof PI_RGT_0 as Hpi.
  destruct (atan2_raices a Ha) as [Hz Hp].
  split.
  - destruct (Req_dec_T a 0) as [H0|H0]; [rewrite (Hz H0); lra|].
    specialize (Hp H0). lra.
  - unfold math_atan2. pose proof (atan_bound (sqrt a / sqrt (1 - a))).
    pose proof (sqrt_pos a). pose proof (sqrt_pos (1 - a)).
    destruct (Rlt_dec 0 (sqrt (1 - a))); [lra|].
    destruct (Rlt_dec (sqrt (1 - a)) 0); [lra|].
    destruct (Rlt_dec 0 (sqrt a)); [lra|].
    destruct (Rlt_dec (sqrt a) 0); lra.
Qed.

(** X3. [haversine] raises only from its two square roots.  From the
    quantity [a] on, its last lines raise [ValueError] when [a] is below 0
    or above 1, and otherwise return a distance from zero to half the
    circumference of the earth; this holds for all coordinates, out of the
    geographic range too. *)
Theorem haversine_acotada (lat1 lon1 lat2 lon2 : R) :
  haversine lat1 lon1 lat2 lon2
  = EspecAmpliada.arco_de (hav_a lat1 lon1 lat2 lon2)
  /\ forall a,
      (a < 0 \/ 1 < a -> EspecAmpliada.arco_de a = inl ValueError)
      /\ (0 <= a <= 1 ->
          exists d, EspecAmpliada.arco_de a = inr d
                    /\ 0 <= d <= 6371e3 * PI).
Proof.
  split; [reflexivity|]. intros a. unfold EspecAmpliada.arco_de, math_sqrt.
  split.
  - intros [Ha|Ha].
    + destruct (Rlt_dec a 0); [reflexivity | lra].
    + destruct (Rlt_dec a 0); [reflexivity|]. cbn [bind].
      destruct (Rlt_dec (1 - a) 0); [reflexivity | lra].
  - intros Ha. destruct (Rlt_dec a 0); [lra|]. cbn [bind].
    destruct (Rlt_dec (1 - a) 0); [lra|]. cbn [bind].
    eexists. split; [reflexivity|].
    pose proof (atan2_raices_cota a Ha). nra.
Qed.

Lemma hav_a_periodica (lat1 lon1 lat2 lon2 : R) :
  hav_a lat1 (lon1 + 360) lat2 lon2 = hav_a lat1 lon1 lat2 lon2.
Proof.
  unfold hav_a. f_equal. f_equal.
  replace (math_radians (lon2 - (lon1 + 360)) / 2)
    with (- (- (math_radians (lon2 - lon1) / 2) + PI))
    by (unfold math_radians; field).
  rewrite sin_neg, neg_sin, sin_neg. ring.
Qed.

(** X4. A full turn added to a longitude changes no distance: the
    longitudes 190 and -170 name the same meridian. *)
Theorem haversine_periodica (lat1 lon1 lat2 lon2 : R) :
  haversine lat1 (lon1 + 360) lat2 lon2 = haversine lat1 lon1 lat2 lon2
  /\ haversine lat1 lon1 lat2 (lon2 + 360) = haversine lat1 lon1 lat2 lon2.
Proof.
  rewrite !haversine_valor. unfold distancia. cbv zeta.
  split.
  - now rewrite hav_a_periodica.
  - rewrite (hav_a_simetrica lat1 lon1 lat2 (lon2 + 360)), hav_a_periodica.
    now rewrite (hav_a_simetrica lat2 lon2 lat1 lon1).
Qed.

(** ** The cycle formula *)

Import EspecAmpliada.

Lemma saturacion_rango (flujos_criticos : list R) :
  0.2 <= saturacion flujos_criticos <= 0.9.
Proof.
  unfold saturacion. destruct flujos_criticos as [|x xs]; [lra|].
  unfold Coordinacion.py_min, Coordinacion.py_max. caso_orden; lra.
Qed.

Lemma estimar_ciclo_webster_saturacion (flujos_criticos : list R)
  (lost_time_s : R) :
  estimar_ciclo_webster flujos_criticos lost_time_s
  = inr (ciclo_de (saturacion flujos_criticos) lost_time_s).
Proof.
  pose proof (saturacion_rango flujos_criticos) as Hy.
  unfold estimar_ciclo_webster. cbv zeta.
  fold (saturacion flujos_criticos).
  destruct (Rge_dec (saturacion flujos_criticos) 1); [lra|].
  now rewrite truediv_ok by lra.
Qed.

(** X5. The saturation [estimar_ciclo_webster] works with is [0.6]
    without flow ratios and their sum cut to [[0.2, 0.9]] otherwise; the
    guard [y >= 1.0] never fires, and the cycle is the formula
    [(1.5 * L + 5) / (1 - y)] cut to [[40, 140]]. *)
Theorem estimar_ciclo_webster_guarda_muerta (flujos_criticos : list R)
  (lost_time_s : R) :
  let y := saturacion flujos_criticos in
  0.2 <= y <= 0.9
  /\ (if Rge_dec y 1 then 0.9 else y) = y
  /\ estimar_ciclo_webster flujos_criticos lost_time_s
     = inr (Coordinacion.py_max 40
              (Coordinacion.py_min ((1.5 * lost_time_s + 5) / (1 - y)) 140)).
Proof.
  cbv zeta. pose proof (saturacion_rango flujos_criticos) as Hy.
  split; [exact Hy|]. split.
  - destruct (Rge_dec (saturacion flujos_criticos) 1); [lra|reflexivity].
  - apply estimar_ciclo_webster_saturacion.
Qed.

Lemma recorte_monotono (lo hi x y : R) :
  x <= y ->
  Coordinacion.py_max lo (Coordinacion.py_min x hi)
  <= Coordinacion.py_max lo (Coordinacion.py_min y hi).
Proof.
  intros H. unfold Coordinacion.py_max, Coordinacion.py_min.
  caso_orden; lra.
Qed.

Lemma ciclo_de_monotono_en_tiempo (y l1 l2 : R) :
  y < 1 -> l1 <= l2 -> ciclo_de y l1 <= ciclo_de y l2.
Proof.
  intros Hy Hl. unfold ciclo_de. apply recorte_monotono.
  unfold Rdiv. apply Rmult_le_compat_r.
  - left. apply Rinv_0_lt_compat. lra.
  - lra.
Qed.

Lemma ciclo_de_monotono_en_saturacion (y1 y2 l : R) :
  y1 <= y2 -> y2 < 1 -> 0 <= 1.5 * l + 5 ->
  ciclo_de y1 l <= ciclo_de y2 l.
Proof.
  intros Hy H1 Hl. unfold ciclo_de. apply recorte_monotono.
  unfold Rdiv. apply Rmult_le_compat_l; [exact Hl|].
  apply Rinv_le_contravar; lra.
Qed.

(** X6. A longer lost time never shortens the cycle: for the same flow
    ratios, [L1 <= L2] gives [estimar_ciclo_webster f L1 <=
    estimar_ciclo_webster f L2]. *)
Theorem estimar_ciclo_webster_monotono_en_tiempo (flujos_criticos : list R)
  (l1 l2 : R) :
  l1 <= l2 ->
  exists C1 C2,
    estimar_ciclo_webster flujos_criticos l1 = inr C1
    /\ estimar_ciclo_webster flujos_criticos l2 = inr C2
    /\ C1 <= C2.
Proof.
  intros Hl. rewrite !estimar_ciclo_webster_saturacion.
  eexists. eexists. split; [reflexivity|]. split; [reflexivity|].
  apply ciclo_de_monotono_en_tiempo; [|exact Hl].
  pose proof (saturacion_rango flujos_criticos). lra.
Qed.

(** Lost times of 8 s and 12 s with no flow ratios. *)
Lemma estimar_ciclo_webster_monotono_en_tiempo_testigo :
  exists C1 C2,
    estimar_ciclo_webster [] 8 = inr C1
    /\ estimar_ciclo_webster [] 12 = inr C2
    /\ C1 <= C2.
Proof.
  apply (estimar_ciclo_webster_monotono_en_tiempo [] 8 12). lra.
Defined.

Lemma saturacion_monotona (f1 f2 : list R) :
  f1 <> [] -> f2 <> [] -> Coordinacion.sum f1 <= Coordinacion.sum f2 ->
  saturacion f1 <= saturacion f2.
Proof.
  intros H1 H2 Hs. unfold saturacion.
  destruct f1 as [|a f1]; [contradiction|].
  destruct f2 as [|b f2]; [contradiction|].
  unfold Coordinacion.py_min, Coordinacion.py_max. caso_orden; lra.
Qed.

(** X7. Heavier traffic never shortens the cycle: for two non-empty lists
    of flow ratios and a lost time with [1.5 * L + 5 >= 0], a larger sum
    of ratios gives a cycle at least as long. *)
Theorem estimar_ciclo_webster_monotono_en_flujo (f1 f2 : list R)
  (lost_time_s : R) :
  f1 <> [] -> f2 <> [] ->
  Coordinacion.sum f1 <= Coordinacion.sum f2 ->
  0 <= 1.5 * lost_time_s + 5 ->
  exists C1 C2,
    estimar_ciclo_webster f1 lost_time_s = inr C1
    /\ estimar_ciclo_webster f2 lost_time_s = inr C2
    /\ C1 <= C2.
Proof.
  intros H1 H2 Hs Hl. rewrite !estimar_ciclo_webster_saturacion.
  eexists. eexists. split; [reflexivity|]. split; [reflexivity|].
  apply ciclo_de_monotono_en_saturacion.
  - now apply saturacion_monotona.
  - pose proof (saturacion_rango f2). lra.
  - exact Hl.
Qed.

(** Ratios 0.3 and 0.25 + 0.35 with the default lost time. *)
Lemma estimar_ciclo_webster_monotono_en_flujo_testigo :
  exists C1 C2,
    estimar_ciclo_webster [0.3] 12 = inr C1
    /\ estimar_ciclo_webster [0.25; 0.35] 12 = inr C2
    /\ C1 <= C2.
Proof.
  apply (estimar_ciclo_webster_monotono_en_flujo [0.3] [0.25; 0.35] 12).
  - discriminate.
  - discriminate.
  - unfold Coordinacion.sum. simpl. lra.
  - lra.
Defined.

(** ** Speed zones *)

Lemma asignar_vd_a_tramo_predicado (P : R -> Prop) (idx : Z)
  (tramos_vd : list TramoVelocidad) (vd_default_kmh : R) :
  P vd_default_kmh ->
  Forall (fun tv => P (vd_kmh tv)) tramos_vd ->
  P (asignar_vd_a_tramo idx tramos_vd vd_default_kmh).
Proof.
  intros Hd Hall. induction Hall as [|tv resto Htv _ IH]; simpl.
  - exact Hd.
  - destruct ((i_inicio tv <=? idx) && (idx <? i_fin tv))%Z; assumption.
Qed.

(** X8. The speed [asignar_vd_a_tramo] returns is the default or the
    speed of a zone of the table: whatever holds of the default and of
    every zone speed, a range for instance, holds of the result. *)
Theorem asignar_vd_a_tramo_conserva (P : R -> Prop) (idx : Z)
  (tramos_vd : list TramoVelocidad) (vd_default_kmh : R) :
  P vd_default_kmh ->
  Forall (fun tv => P (vd_kmh tv)) tramos_vd ->
  P (asignar_vd_a_tramo idx tramos_vd vd_default_kmh).
Proof. apply asignar_vd_a_tramo_predicado. Qed.

(** Speeds between 5 and 110 km/h give a speed between 5 and 110 km/h. *)
Lemma asignar_vd_a_tramo_conserva_testigo :
  5 <= asignar_vd_a_tramo 1 [mkTramoVelocidad 0 3 40] 60 <= 110.
Proof.
  apply (asignar_vd_a_tramo_conserva (fun v => 5 <= v <= 110) 1
           [mkTramoVelocidad 0 3 40] 60).
  - lra.
  - constructor; [simpl; lra | constructor].
Defined.

(** X9. Zones that do not cover the segment never influence its speed:
    dropping them all from the table, those with an empty or inverted
    range among them, leaves the result as it was. *)
Theorem asignar_vd_a_tramo_ignora_ajenas (idx : Z)
  (tramos_vd : list TramoVelocidad) (vd_default_kmh : R) :
  asignar_vd_a_tramo idx tramos_vd vd_default_kmh
  = asignar_vd_a_tramo idx (filter (cubre_b idx) tramos_vd) vd_default_kmh
  /\ (forall tv, In tv tramos_vd -> (i_fin tv <= i_inicio tv)%Z ->
                 ~ In tv (filter (cubre_b idx) tramos_vd)).
Proof.
  split.
  - induction tramos_vd as [|tv resto IH]; simpl; [reflexivity|].
    unfold cubre_b at 1.
    destruct ((i_inicio tv <=? idx) && (idx <? i_fin tv))%Z eqn:Hc; simpl.
    + now rewrite Hc.
    + exact IH.
  - intros tv _ Hinv Hin. apply filter_In in Hin as [_ Hc].
    unfold cubre_b in Hc. apply andb_true_iff in Hc as [H1 H2].
    apply Z.leb_le in H1. apply Z.ltb_lt in H2. lia.
Qed.

(** ** Segment plans, further *)

Lemma distancia_no_negativa (lat1 lon1 lat2 lon2 : R) :
  0 <= distancia lat1 lon1 lat2 lon2.
Proof.
  unfold distancia. cbv zeta.
  pose proof (atan2_raices_cota _ (hav_a_rango lat1 lon1 lat2 lon2)).
  nra.
Qed.

Lemma distancia_simetrica (lat1 lon1 lat2 lon2 : R) :
  distancia lat1 lon1 lat2 lon2 = distancia lat2 lon2 lat1 lon1.
Proof.
  unfold distancia. cbv zeta.
  now rewrite (hav_a_simetrica lat1 lon1 lat2 lon2).
Qed.

(** X10. Every segment plan carries the corridor tag and the local ids of
    its two signals, a travel time equal to its offset, and an offset that
    is not negative; the end id of a segment is the start id of the next
    one. *)
Theorem tramos_encadenados (via : string) (semaforos : list Semaforo)
  (tramos_vd : list TramoVelocidad) (vd_default_kmh : R) :
  exists ts,
    construir_tramos_coordinacion via semaforos tramos_vd vd_default_kmh
    = inr ts
    /\ forall k t, nth_error ts k = Some t ->
         exists s_i s_j,
           nth_error semaforos k = Some s_i
           /\ nth_error semaforos (S k) = Some s_j
           /\ tc_via_id t = via
           /\ tc_i t = id_local s_i
           /\ tc_j t = id_local s_j
           /\ tiempo_viaje_s t = offset_s t
           /\ 0 <= offset_s t
           /\ forall t', nth_error ts (S k) = Some t' -> tc_i t' = tc_j t.
Proof.
  eexists. split.
  - apply (construir_tramos_valor _ _ _ _ (mkSemaforo 0 0 0)).
  - intros k t Ht. apply nth_error_map_seq in Ht as [Hk ->].
    exists (nth k semaforos (mkSemaforo 0 0 0)),
      (nth (S k) semaforos (mkSemaforo 0 0 0)).
    split; [apply nth_error_nth'; lia|].
    split; [apply nth_error_nth'; lia|].
    unfold tramo_de. cbn [tc_via_id tc_i tc_j tiempo_viaje_s offset_s].
    repeat (split; [reflexivity|]). split.
    + apply Rmult_le_pos; [apply distancia_no_negativa|].
      left. apply Rinv_0_lt_compat. apply divisor_ms_positivo.
    + intros t' Ht'. apply nth_error_map_seq in Ht' as [_ ->]. reflexivity.
Qed.

Lemma seq_ultimo (n : nat) : seq 0 (S n) = seq 0 n ++ [n].
Proof. now rewrite seq_S. Qed.

Lemma nth_ultimo {A : Type} (xs : list A) (d : A) :
  nth (List.length xs - 1) xs d = last xs d.
Proof.
  induction xs as [|x xs IH]; [reflexivity|].
  destruct xs as [|y ys]; [reflexivity|].
  change (last (x :: y :: ys) d) with (last (y :: ys) d).
  rewrite <- IH. simpl List.length.
  replace (S (S (List.length ys)) - 1)%nat with (S (List.length ys)) by lia.
  replace (S (List.length ys) - 1)%nat with (List.length ys) by lia.
  reflexivity.
Qed.

(** X11. A signal added at the end of a corridor of at least one signal
    adds one segment plan, from the former last signal to the new one, and
    leaves the plans before it as they were. *)
Theorem construir_tramos_al_agregar (via : string)
  (semaforos : list Semaforo) (s : Semaforo)
  (tramos_vd : list TramoVelocidad) (vd_default_kmh : R) :
  semaforos <> [] ->
  exists ts t,
    construir_tramos_coordinacion via semaforos tramos_vd vd_default_kmh
    = inr ts
    /\ construir_tramos_coordinacion via (semaforos ++ [s]) tramos_vd
         vd_default_kmh
       = inr (ts ++ [t])
    /\ tc_i t = id_local (last semaforos s)
    /\ tc_j t = id_local s
    /\ inr (dist_m t)
       = haversine (lat (last semaforos s)) (lon (last semaforos s))
           (lat s) (lon s).
Proof.
  intros Hne.
  assert (Hlen : (0 < List.length semaforos)%nat).
  { destruct semaforos; [contradiction | simpl; lia]. }
  rewrite (construir_tramos_valor via semaforos _ _ s).
  rewrite (construir_tramos_valor via (semaforos ++ [s]) _ _ s).
  rewrite length_app. simpl List.length.
  replace (List.length semaforos + 1 - 1)%nat
    with (S (List.length semaforos - 1)) by lia.
  rewrite seq_ultimo, map_app. simpl map.
  eexists. eexists. split; [reflexivity|]. split.
  - f_equal. f_equal. apply map_ext_in. intros k Hk. apply in_seq in Hk.
    rewrite !app_nth1 by lia. reflexivity.
  - replace (S (List.length semaforos - 1)) with (List.length semaforos)
      by lia.
    rewrite app_nth1 by lia. rewrite app_nth2 by lia.
    rewrite Nat.sub_diag. simpl nth at 2 4 6.
    replace (nth (List.length semaforos - 1) semaforos s)
      with (last semaforos s).
    + unfold tramo_de. cbn [tc_i tc_j dist_m].
      now rewrite haversine_valor.
    + symmetry. apply nth_ultimo.
Qed.

(** A third signal added to a corridor of two. *)
Lemma construir_tramos_al_agregar_testigo :
  exists ts t,
    construir_tramos_coordinacion "V1"
      [mkSemaforo 0 0 0; mkSemaforo 1 0 1] [] 40
    = inr ts
    /\ construir_tramos_coordinacion "V1"
         ([mkSemaforo 0 0 0; mkSemaforo 1 0 1] ++ [mkSemaforo 2 0 2]) [] 40
       = inr (ts ++ [t])
    /\ tc_i t
       = id_local (last [mkSemaforo 0 0 0; mkSemaforo 1 0 1]
                     (mkSemaforo 2 0 2))
    /\ tc_j t = id_local (mkSemaforo 2 0 2)
    /\ inr (dist_m t)
       = haversine
           (lat (last [mkSemaforo 0 0 0; mkSemaforo 1 0 1]
                   (mkSemaforo 2 0 2)))
           (lon (last [mkSemaforo 0 0 0; mkSemaforo 1 0 1]
                   (mkSemaforo 2 0 2)))
           (lat (mkSemaforo 2 0 2)) (lon (mkSemaforo 2 0 2)).
Proof.
  apply (construir_tramos_al_agregar "V1"
           [mkSemaforo 0 0 0; mkSemaforo 1 0 1] (mkSemaforo 2 0 2) [] 40).
  discriminate.
Defined.

Lemma rev_map_seq {B : Type} (g : nat -> B) (m : nat) :
  rev (map g (seq 0 m)) = map (fun k => g (m - 1 - k)%nat) (seq 0 m).
Proof.
  induction m as [|m IH]; [reflexivity|].
  rewrite seq_ultimo at 1. rewrite map_app, rev_app_distr. simpl rev.
  simpl app. rewrite IH.
  change (seq 0 (S m)) with (0%nat :: seq 1 m).
  rewrite <- seq_shift, map_cons, map_map. f_equal.
  - f_equal. lia.
  - apply map_ext. intros k. f_equal. lia.
Qed.

(** X12. A corridor run in the opposite direction has the same segment
    distances in the opposite order, whatever the tags and the speed
    tables of the two directions. *)
Theorem distancias_del_sentido_contrario (via1 via2 : string)
  (semaforos : list Semaforo) (tramos_vd1 tramos_vd2 : list TramoVelocidad)
  (vd1 vd2 : R) :
  exists ts1 ts2,
    construir_tramos_coordinacion via1 semaforos tramos_vd1 vd1 = inr ts1
    /\ construir_tramos_coordinacion via2 (rev semaforos) tramos_vd2 vd2
       = inr ts2
    /\ map dist_m ts2 = rev (map dist_m ts1).
Proof.
  set (d := mkSemaforo 0 0 0).
  rewrite (construir_tramos_valor via1 semaforos _ _ d).
  rewrite (construir_tramos_valor via2 (rev semaforos) _ _ d).
  eexists. eexists. split; [reflexivity|]. split; [reflexivity|].
  rewrite length_rev, !map_map. unfold tramo_de. cbn [dist_m].
  rewrite (rev_map_seq
             (fun k => distancia (lat (nth k semaforos d))
                         (lon (nth k semaforos d))
                         (lat (nth (S k) semaforos d))
                         (lon (nth (S k) semaforos d)))).
  apply map_ext_in. intros k Hk. apply in_seq in Hk.
  rewrite !rev_nth by lia.
  replace (List.length semaforos - S (S k))%nat
    with (List.length semaforos - 1 - 1 - k)%nat by lia.
  replace (List.length semaforos - S k)%nat
    with (S (List.length semaforos - 1 - 1 - k)) by lia.
  apply distancia_simetrica.
Qed.

(** ** Plans, further *)

(** X13. Whenever [construir_tramos_coordinacion] returns the segment
    plans of a corridor, [generar_plan_para_via] returns a plan: the cycle
    and the bandwidth raise nothing.  The plan carries the corridor tag
    and those segment plans, a cycle between 40 s and 140 s and a
    bandwidth between 0.3 and 0.7 of that cycle, so between 12 s and
    98 s. *)
Theorem generar_plan_para_via_acotado (via : string)
  (semaforos : list Semaforo) (tramos_vd : list TramoVelocidad)
  (vd_default_kmh : R) (flujos_criticos : option (list R))
  (lost_time_s banda_porcentaje : R) (ts : list TramoCoordinacion) :
  construir_tramos_coordinacion via semaforos tramos_vd vd_default_kmh
  = inr ts ->
  exists plan,
    generar_plan_para_via via semaforos tramos_vd vd_default_kmh
      flujos_criticos lost_time_s banda_porcentaje
    = inr plan
    /\ via_id plan = via
    /\ tramos plan = ts
    /\ 40 <= ciclo_base_s plan <= 140
    /\ 0.3 * ciclo_base_s plan <= banda_objetivo_s plan
       <= 0.7 * ciclo_base_s plan
    /\ 12 <= banda_objetivo_s plan <= 98.
Proof.
  intros Hts.
  destruct (estimar_ciclo_webster_valor (o_lista_vacia flujos_criticos)
              lost_time_s) as (y & Hy & HC).
  eexists. split.
  - unfold generar_plan_para_via. rewrite Hts. cbn [bind]. rewrite HC.
    cbn [bind]. reflexivity.
  - cbn [via_id tramos ciclo_base_s banda_objetivo_s].
    split; [reflexivity|]. split; [reflexivity|].
    pose proof (recorte_acotado 40 140 ((1.5 * lost_time_s + 5) / (1 - y))
                  ltac:(lra)) as HCr.
    split; [exact HCr|].
    unfold calcular_banda_objetivo.
    pose proof (recorte_acotado 0.3 0.7 banda_porcentaje ltac:(lra)) as Hb.
    set (p := Coordinacion.py_max 0.3 (Coordinacion.py_min banda_porcentaje 0.7))
      in *.
    split; nra.
Qed.

(** A corridor of two signals one degree apart, with heavy traffic. *)
Lemma generar_plan_para_via_acotado_testigo :
  exists ts plan,
    construir_tramos_coordinacion "V1"
      [mkSemaforo 0 0 0; mkSemaforo 1 0 1] [] 50 = inr ts
    /\ List.length ts = 1%nat
    /\ generar_plan_para_via "V1" [mkSemaforo 0 0 0; mkSemaforo 1 0 1] [] 50
         (Some [0.5; 0.3]) 12 0.45
       = inr plan
    /\ via_id plan = "V1"%string
    /\ tramos plan = ts
    /\ 40 <= ciclo_base_s plan <= 140
    /\ 0.3 * ciclo_base_s plan <= banda_objetivo_s plan
       <= 0.7 * ciclo_base_s plan
    /\ 12 <= banda_objetivo_s plan <= 98.
Proof.
  pose proof (construir_tramos_valor "V1"
                [mkSemaforo 0 0 0; mkSemaforo 1 0 1] [] 50 (mkSemaforo 0 0 0))
    as Hts.
  destruct (generar_plan_para_via_acotado "V1"
              [mkSemaforo 0 0 0; mkSemaforo 1 0 1] [] 50 (Some [0.5; 0.3])
              12 0.45 _ Hts) as (plan & Hplan).
  eexists. exists plan. split; [exact Hts|]. split; [reflexivity|].
  exact Hplan.
Defined.

(** X14. [generar_plan_global] plans the two corridors apart.  Whenever
    [generar_plan_para_via] returns a plan for the signals, zones, default
    speed and flows of corridor 1 alone, and one for those of corridor 2,
    [generar_plan_global] returns those two plans under the keys [V1] and
    [V2], each with its own tag on the plan and on every segment. *)
Theorem generar_plan_global_por_via
  (via1_semaforos via2_semaforos : list DictSemaforo)
  (via1_tramos_vd via2_tramos_vd : list DictTramoVd)
  (vd_default_via1_kmh vd_default_via2_kmh : R)
  (flujos_criticos_via1 flujos_criticos_via2 : option (list R))
  (lost_time_s banda_porcentaje : R) (plan_v1 plan_v2 : PlanCoordinacion) :
  let objetos_sem :=
    map (fun s => mkSemaforo (d_id s) (d_lat s) (d_lon s)) in
  let objetos_vd :=
    map (fun t => mkTramoVelocidad (d_i_inicio t) (d_i_fin t) (d_vd_kmh t)) in
  generar_plan_para_via "V1" (objetos_sem via1_semaforos)
    (objetos_vd via1_tramos_vd) vd_default_via1_kmh flujos_criticos_via1
    lost_time_s banda_porcentaje
  = inr plan_v1 ->
  generar_plan_para_via "V2" (objetos_sem via2_semaforos)
    (objetos_vd via2_tramos_vd) vd_default_via2_kmh flujos_criticos_via2
    lost_time_s banda_porcentaje
  = inr plan_v2 ->
  generar_plan_global via1_semaforos via2_semaforos via1_tramos_vd
    via2_tramos_vd vd_default_via1_kmh vd_default_via2_kmh
    flujos_criticos_via1 flujos_criticos_via2 lost_time_s banda_porcentaje
  = inr (mkDictGlobal (dict_de_plan plan_v1) (dict_de_plan plan_v2))
  /\ via_id plan_v1 = "V1"%string
  /\ via_id plan_v2 = "V2"%string
  /\ Forall (fun t => tc_via_id t = "V1"%string) (tramos plan_v1)
  /\ Forall (fun t => tc_via_id t = "V2"%string) (tramos plan_v2).
Proof.
  cbv zeta.
  set (s1 := map _ via1_semaforos). set (s2 := map _ via2_semaforos).
  set (z1 := map _ via1_tramos_vd). set (z2 := map _ via2_tramos_vd).
  intros Hp1 Hp2.
  destruct (generar_plan_para_via_valor "V1" s1 z1 vd_default_via1_kmh
              flujos_criticos_via1 lost_time_s banda_porcentaje)
    as (ts1 & C1 & Hts1 & _ & Hq1).
  destruct (generar_plan_para_via_valor "V2" s2 z2 vd_default_via2_kmh
              flujos_criticos_via2 lost_time_s banda_porcentaje)
    as (ts2 & C2 & Hts2 & _ & Hq2).
  assert (Htag : forall via s z vd ts,
             construir_tramos_coordinacion via s z vd = inr ts ->
             Forall (fun t => tc_via_id t = via) ts).
  { intros via s z vd ts H.
    rewrite (construir_tramos_valor via s z vd (mkSemaforo 0 0 0)) in H.
    injection H as <-. apply Forall_forall. intros t Ht.
    apply in_map_iff in Ht as (k & <- & _). reflexivity. }
  split.
  - unfold generar_plan_global. cbv zeta. fold s1 s2 z1 z2.
    rewrite Hp1. cbn [bind]. rewrite Hp2. reflexivity.
  - rewrite Hq1 in Hp1. rewrite Hq2 in Hp2.
    injection Hp1 as <-. injection Hp2 as <-.
    cbn [via_id tramos]. split; [reflexivity|]. split; [reflexivity|].
    split; [apply (Htag _ _ _ _ _ Hts1) | apply (Htag _ _ _ _ _ Hts2)].
Qed.

(** Two signals on corridor 1 with a zone of 40 km/h, and a single signal
    on corridor 2. *)
Lemma generar_plan_global_por_via_testigo :
  exists plan_v1 plan_v2,
    generar_plan_para_via "V1" [mkSemaforo 0 0 0; mkSemaforo 1 0 1]
      [mkTramoVelocidad 0 1 40] 50 None 12 0.45
    = inr plan_v1
    /\ generar_plan_para_via "V2" [mkSemaforo 0 1 0] [] 60 None 12 0.45
       = inr plan_v2
    /\ generar_plan_global
         [mkDictSemaforo 0 0 0; mkDictSemaforo 1 0 1] [mkDictSemaforo 0 1 0]
         [mkDictTramoVd 0 1 40] [] 50 60 None None 12 0.45
       = inr (mkDictGlobal (dict_de_plan plan_v1) (dict_de_plan plan_v2))
    /\ via_id plan_v1 = "V1"%string
    /\ via_id plan_v2 = "V2"%string
    /\ Forall (fun t => tc_via_id t = "V1"%string) (tramos plan_v1)
    /\ Forall (fun t => tc_via_id t = "V2"%string) (tramos plan_v2).
Proof.
  destruct (generar_plan_para_via_valor "V1"
              [mkSemaforo 0 0 0; mkSemaforo 1 0 1] [mkTramoVelocidad 0 1 40]
              50 None 12 0.45) as (ts1 & C1 & _ & _ & Hp1).
  destruct (generar_plan_para_via_valor "V2" [mkSemaforo 0 1 0] [] 60 None
              12 0.45) as (ts2 & C2 & _ & _ & Hp2).
  eexists. eexists. split; [exact Hp1|]. split; [exact Hp2|].
  exact (generar_plan_global_por_via
           [mkDictSemaforo 0 0 0; mkDictSemaforo 1 0 1] [mkDictSemaforo 0 1 0]
           [mkDictTramoVd 0 1 40] [] 50 60 None None 12 0.45 _ _ Hp1 Hp2).
Defined.

(** * Properties of the editor of [main.py] *)

(** ** Controllers *)

Lemma max_lista_cota (xs : list Z) (x : Z) :
  (x <= Editor.max_lista x xs)%Z
  /\ Forall (fun y => (y <= Editor.max_lista x xs)%Z) xs.
Proof.
  unfold Editor.max_lista. revert x.
  induction xs as [|y ys IH]; intros x; simpl.
  - split; [lia | constructor].
  - destruct (IH (Z.max x y)) as [H1 H2]. split; [lia|].
    constructor; [lia | exact H2].
Qed.

(** X15. [agregar_controlador_esp] puts the new controller at the end of
    the list with the coordinates of the click and an id above every id
    in the list, 1 in an empty list; distinct ids stay distinct. *)
Theorem agregar_controlador_esp_id_nuevo (lat lon : R)
  (st : Editor.EditorMapaSemaforos) :
  exists c,
    Editor.controladores_esp (Editor.agregar_controlador_esp lat lon st)
    = Editor.controladores_esp st ++ [c]
    /\ Editor.esp_lat c = lat /\ Editor.esp_lon c = lon
    /\ Forall (fun c' => (Editor.esp_id c' < Editor.esp_id c)%Z)
         (Editor.controladores_esp st)
    /\ (Editor.controladores_esp st = [] -> Editor.esp_id c = 1%Z)
    /\ (NoDup (map Editor.esp_id (Editor.controladores_esp st)) ->
        NoDup (map Editor.esp_id
                 (Editor.controladores_esp
                    (Editor.agregar_controlador_esp lat lon st)))).
Proof.
  unfold Editor.agregar_controlador_esp. cbv zeta. simpl.
  eexists. split; [reflexivity|]. cbn [Editor.esp_lat Editor.esp_lon Editor.esp_id].
  split; [reflexivity|]. split; [reflexivity|].
  assert (Hmenor : Forall (fun c' =>
                     (Editor.esp_id c'
                      < match map Editor.esp_id (Editor.controladores_esp st)
                        with
                        | [] => 1
                        | x :: xs => Editor.max_lista x xs + 1
                        end)%Z) (Editor.controladores_esp st)).
  { destruct (Editor.controladores_esp st) as [|c0 cs]; [constructor|].
    simpl map. destruct (max_lista_cota (map Editor.esp_id cs)
                           (Editor.esp_id c0)) as [H1 H2].
    constructor; [lia|]. apply Forall_forall. intros c' Hc'.
    rewrite Forall_forall in H2.
    specialize (H2 (Editor.esp_id c') (in_map _ _ _ Hc')). lia. }
  split; [exact Hmenor|]. split.
  - intros ->. reflexivity.
  - intros Hnd. rewrite map_app. simpl map.
    apply NoDup_app.
    + exact Hnd.
    + constructor; [intros []|constructor].
    + intros z Hz [<-|[]]. apply in_map_iff in Hz as (c' & Heq & Hc').
      rewrite Forall_forall in Hmenor. specialize (Hmenor c' Hc').
      cbn [Editor.esp_id] in Heq. lia.
Qed.

(** ** Undo *)

Lemma range_desc_S (n : nat) :
  Editor.range_desc (S n) = Z.of_nat n :: Editor.range_desc n.
Proof.
  unfold Editor.range_desc, range. rewrite seq_ultimo, map_app, rev_app_distr.
  reflexivity.
Qed.

Lemma getitem_medio {A : Type} (l suf : list A) (x : A) :
  getitem (l ++ x :: suf) (Z.of_nat (List.length l)) = inr x.
Proof.
  unfold getitem. rewrite Nat2Z.id, nth_error_app2 by lia.
  now rewrite Nat.sub_diag.
Qed.

Lemma pop_en_medio {A : Type} (l suf : list A) (x : A) :
  Editor.pop_en (l ++ x :: suf) (Z.of_nat (List.length l)) = l ++ suf.
Proof.
  unfold Editor.pop_en. rewrite Nat2Z.id. f_equal.
  - rewrite firstn_app, Nat.sub_diag, firstn_all. simpl. apply app_nil_r.
  - rewrite skipn_app, skipn_all2 by lia.
    replace (S (List.length l) - List.length l)%nat with 1%nat by lia.
    reflexivity.
Qed.

(** The backward search pops the last item that is the marker and leaves
    the list alone when none is. *)
Lemma quitar_marcador_desc {A : Type} (es : A -> bool) (l : list A) :
  forall suf, Forall (fun x => es x = false) suf ->
    (Forall (fun x => es x = false) l
     /\ Editor.quitar_marcador es (Editor.range_desc (List.length l))
          (l ++ suf) = inr (l ++ suf))
    \/ (exists l1 x l2,
           l = l1 ++ x :: l2 /\ es x = true
           /\ Forall (fun y => es y = false) l2
           /\ Editor.quitar_marcador es (Editor.range_desc (List.length l))
                (l ++ suf) = inr (l1 ++ l2 ++ suf)).
Proof.
  induction l as [|y l IH] using rev_ind; intros suf Hsuf.
  - left. split; [constructor | reflexivity].
  - rewrite length_app. simpl List.length.
    replace (List.length l + 1)%nat with (S (List.length l)) by lia.
    rewrite range_desc_S. cbn [Editor.quitar_marcador].
    rewrite <- app_assoc. simpl app. rewrite getitem_medio. simpl.
    destruct (es y) eqn:Hy.
    + right. exists l, y, []. rewrite pop_en_medio.
      repeat split; auto.
    + destruct (IH (y :: suf)) as [[Hl Hq] | (l1 & x & l2 & -> & Hx & Hl2 & Hq)].
      * constructor; assumption.
      * left. split; [|exact Hq].
        apply Forall_app. split; [exact Hl|]. constructor; [exact Hy|constructor].
      * right. exists l1, x, (l2 ++ [y]).
        split; [now rewrite <- app_assoc|]. split; [exact Hx|]. split.
        -- apply Forall_app. split; [exact Hl2|].
           constructor; [exact Hy|constructor].
        -- rewrite Hq. now rewrite <- app_assoc.
Qed.

Lemma quitar_marcador_ultimo {A : Type} (es : A -> bool) (l : list A)
  (x : A) :
  es x = true ->
  Editor.quitar_marcador es (Editor.range_desc (List.length (l ++ [x])))
    (l ++ [x]) = inr l.
Proof.
  intros Hx. rewrite length_app. simpl List.length.
  replace (List.length l + 1)%nat with (S (List.length l)) by lia.
  rewrite range_desc_S. cbn [Editor.quitar_marcador].
  rewrite getitem_medio. simpl. rewrite Hx, pop_en_medio.
  now rewrite app_nil_r.
Qed.

(** X16. Undo straight after a click on the map, in either mode and for
    either corridor, gives back the markers, the controllers and the undo
    stack of before the click; only the count of markers the map has
    created moves on. *)
Theorem deshacer_tras_click (coords : R * R)
  (st : Editor.EditorMapaSemaforos) :
  Editor.deshacer_ultima_accion (Editor.click_mapa coords st)
  = inr (Editor.mkEditor (Editor.marcadores_via1 st)
           (Editor.marcadores_via2 st) (Editor.controladores_esp st)
           (Editor.via_activa st) (Editor.modo_esp st)
           (Editor.undo_stack st) (Editor.tramos_vel_manuales st)
           (Editor.tree st) (S (Editor.map_widget st))).
Proof.
  destruct coords as [la lo]. unfold Editor.click_mapa.
  destruct (Editor.modo_esp st) eqn:Hmodo.
  - unfold Editor.agregar_controlador_esp, Editor.deshacer_ultima_accion.
    cbv zeta. simpl. rewrite rev_app_distr. simpl.
    rewrite quitar_marcador_ultimo by (simpl; apply Nat.eqb_refl).
    simpl. now rewrite rev_involutive, Hmodo.
  - unfold Editor.agregar_semaforo, Editor.deshacer_ultima_accion.
    cbv zeta. simpl.
    destruct (Editor.via_activa st =? 1)%Z; simpl;
      rewrite rev_app_distr; simpl;
      rewrite quitar_marcador_ultimo by (simpl; apply Nat.eqb_refl);
      simpl; now rewrite rev_involutive, Hmodo.
Qed.

Lemma entrada_vigente_crece (st st' : Editor.EditorMapaSemaforos)
  (e : string * Editor.marcador) :
  incl (map snd (Editor.marcadores_via1 st))
    (map snd (Editor.marcadores_via1 st')) ->
  incl (map snd (Editor.marcadores_via2 st))
    (map snd (Editor.marcadores_via2 st')) ->
  incl (map Editor.esp_marker (Editor.controladores_esp st))
    (map Editor.esp_marker (Editor.controladores_esp st')) ->
  entrada_vigente st e -> entrada_vigente st' e.
Proof.
  intros H1 H2 H3 [[Ht Hin] | [[Ht Hin] | [Ht Hin]]].
  - left. split; [exact Ht | now apply H1].
  - right. left. split; [exact Ht | now apply H2].
  - right. right. split; [exact Ht | now apply H3].
Qed.

Lemma pila_vigente_click (coords : R * R) (st : Editor.EditorMapaSemaforos) :
  pila_vigente st -> pila_vigente (Editor.click_mapa coords st).
Proof.
  intros (Hnd & Hlt & Hviv). destruct coords as [la lo].
  assert (Hfresco : ~ In (Editor.map_widget st)
                      (map snd (Editor.undo_stack st))).
  { intros Hin. apply in_map_iff in Hin as (e & He & Hin).
    rewrite Forall_forall in Hlt. specialize (Hlt e Hin). simpl in Hlt.
    unfold Editor.marcador in *. lia. }
  assert (Hnd' : forall t,
             NoDup (map snd (Editor.undo_stack st
                             ++ [(t, Editor.map_widget st)]))).
  { intros t. rewrite map_app. simpl map. apply NoDup_app.
    - exact Hnd.
    - constructor; [intros []|constructor].
    - intros m Hm [<-|[]]. now apply Hfresco. }
  assert (Hlt' : forall t,
             Forall (fun e => (snd e < S (Editor.map_widget st))%nat)
               (Editor.undo_stack st ++ [(t, Editor.map_widget st)])).
  { intros t. apply Forall_app. split.
    - eapply Forall_impl; [|exact Hlt]. simpl. intros; lia.
    - constructor; [simpl; lia|constructor]. }
  unfold Editor.click_mapa, Editor.agregar_controlador_esp,
    Editor.agregar_semaforo.
  destruct (Editor.modo_esp st); [|destruct (Editor.via_activa st =? 1)%Z eqn:Hvia];
    cbv zeta; simpl; rewrite ?Hvia; unfold pila_vigente; simpl;
    (split; [apply Hnd'|]); (split; [apply Hlt'|]);
    apply Forall_app; split.
  - eapply Forall_impl; [|exact Hviv]. intros e He.
    eapply entrada_vigente_crece; [| | |exact He]; simpl;
      try apply incl_refl.
    rewrite map_app. apply incl_appl, incl_refl.
  - constructor; [|constructor]. right. right. simpl. split; [reflexivity|].
    rewrite map_app. apply in_or_app. right. now left.
  - eapply Forall_impl; [|exact Hviv]. intros e He.
    eapply entrada_vigente_crece; [| | |exact He]; simpl;
      try apply incl_refl.
    rewrite map_app. apply incl_appl, incl_refl.
  - constructor; [|constructor]. left. simpl. split; [reflexivity|].
    rewrite map_app. apply in_or_app. right. now left.
  - eapply Forall_impl; [|exact Hviv]. intros e He.
    eapply entrada_vigente_crece; [| | |exact He]; simpl;
      try apply incl_refl.
    rewrite map_app. apply incl_appl, incl_refl.
  - constructor; [|constructor]. right. left. simpl. split; [reflexivity|].
    rewrite map_app. apply in_or_app. right. now left.
Qed.

Lemma quitar_presente {A : Type} (f : A -> nat) (m : nat) (l : list A) :
  In m (map f l) ->
  exists l1 x l2,
    l = l1 ++ x :: l2 /\ f x = m
    /\ Editor.quitar_marcador (fun y => Nat.eqb (f y) m)
         (Editor.range_desc (List.length l)) l = inr (l1 ++ l2).
Proof.
  intros Hin.
  destruct (quitar_marcador_desc (fun y => Nat.eqb (f y) m) l []
              (Forall_nil _))
    as [[Hno _] | (l1 & x & l2 & Hl & Hx & _ & Hq)].
  - exfalso. apply in_map_iff in Hin as (y & Hy & Hyl).
    rewrite Forall_forall in Hno. specialize (Hno y Hyl). simpl in Hno.
    apply Nat.eqb_neq in Hno. contradiction.
  - exists l1, x, l2. rewrite !app_nil_r in Hq.
    split; [exact Hl|]. split; [now apply Nat.eqb_eq|exact Hq].
Qed.

Lemma in_map_quitado {A : Type} (f : A -> nat) (l1 l2 : list A) (x : A)
  (m : nat) :
  m <> f x -> In m (map f (l1 ++ x :: l2)) -> In m (map f (l1 ++ l2)).
Proof.
  intros Hne Hin. rewrite map_app in *. simpl in Hin.
  apply in_app_or in Hin as [Hin | [Hin | Hin]].
  - apply in_or_app. now left.
  - congruence.
  - apply in_or_app. now right.
Qed.

(** With a sound stack that is not empty, undo raises nothing, pops one
    entry, removes one marker or controller and leaves the stack sound. *)
Lemma deshacer_vigente (st : Editor.EditorMapaSemaforos) :
  pila_vigente st -> Editor.undo_stack st <> [] ->
  exists st',
    Editor.deshacer_ultima_accion st = inr st'
    /\ pila_vigente st'
    /\ S (total_marcadores st') = total_marcadores st
    /\ S (List.length (Editor.undo_stack st'))
       = List.length (Editor.undo_stack st).
Proof.
  intros (Hnd & Hlt & Hviv) Hne.
  destruct (exists_last Hne) as (p & [tipo m] & Hp).
  rewrite Hp in Hnd, Hlt, Hviv.
  apply Forall_app in Hlt as [Hltp _].
  apply Forall_app in Hviv as [Hvivp Hvive].
  apply Forall_inv in Hvive.
  rewrite map_app in Hnd. simpl map in Hnd.
  assert (Hndp : NoDup (map snd p)) by (now apply NoDup_app_remove_r in Hnd).
  assert (Hdist : forall e, In e p -> snd e <> m).
  { intros e He Heq. apply NoDup_remove_2 in Hnd.
    apply Hnd. rewrite app_nil_r. rewrite <- Heq. now apply in_map. }
  unfold Editor.deshacer_ultima_accion. rewrite Hp, rev_app_distr. simpl.
  rewrite rev_involutive.
  destruct Hvive as [[Ht Hin] | [[Ht Hin] | [Ht Hin]]];
    simpl in Ht, Hin; subst tipo; simpl;
    destruct (quitar_presente _ m _ Hin) as (l1 & x & l2 & Hl & Hx & Hq);
    unfold Editor.marcador in *; rewrite Hq; simpl; eexists;
    (split; [reflexivity|]);
    unfold pila_vigente, total_marcadores; simpl;
    (split; [split; [exact Hndp|]; split; [exact Hltp|] |
             split; [rewrite Hl, !length_app; simpl; lia
                    | rewrite length_app; simpl; lia]]);
    apply Forall_forall; intros e He;
    rewrite Forall_forall in Hvivp; specialize (Hvivp e He);
    specialize (Hdist e He);
    destruct Hvivp as [[Hte Hine] | [[Hte Hine] | [Hte Hine]]];
    try (left; split; [exact Hte|]; simpl; first
           [exact Hine
           | rewrite Hl in Hine; apply (in_map_quitado _ _ _ x);
             [unfold Editor.marcador in *; congruence | exact Hine]]);
    try (right; left; split; [exact Hte|]; simpl; first
           [exact Hine
           | rewrite Hl in Hine; apply (in_map_quitado _ _ _ x);
             [unfold Editor.marcador in *; congruence | exact Hine]]);
    try (right; right; split; [exact Hte|]; simpl; first
           [exact Hine
           | rewrite Hl in Hine; apply (in_map_quitado _ _ _ x);
             [unfold Editor.marcador in *; congruence | exact Hine]]).
Qed.

Lemma dibujar_via1_campos (l : list (R * R))
  (st : Editor.EditorMapaSemaforos) :
  let st' := fold_left Editor.dibujar_via1 l st in
  map fst (Editor.marcadores_via1 st')
  = map fst (Editor.marcadores_via1 st) ++ l
  /\ Editor.marcadores_via2 st' = Editor.marcadores_via2 st
  /\ Editor.controladores_esp st' = Editor.controladores_esp st
  /\ Editor.undo_stack st' = Editor.undo_stack st.
Proof.
  revert st. induction l as [|[la lo] l IH]; intros st.
  - simpl. now rewrite app_nil_r.
  - cbn [fold_left]. cbv zeta in IH.
    destruct (IH (Editor.dibujar_via1 st (la, lo))) as (H1 & H2 & H3 & H4).
    rewrite H1, H2, H3, H4. simpl. rewrite map_app, <- app_assoc.
    repeat split.
Qed.

Lemma dibujar_via2_campos (l : list (R * R))
  (st : Editor.EditorMapaSemaforos) :
  let st' := fold_left Editor.dibujar_via2 l st in
  Editor.marcadores_via1 st' = Editor.marcadores_via1 st
  /\ map fst (Editor.marcadores_via2 st')
     = map fst (Editor.marcadores_via2 st) ++ l
  /\ Editor.controladores_esp st' = Editor.controladores_esp st
  /\ Editor.undo_stack st' = Editor.undo_stack st.
Proof.
  revert st. induction l as [|[la lo] l IH]; intros st.
  - simpl. now rewrite app_nil_r.
  - cbn [fold_left]. cbv zeta in IH.
    destruct (IH (Editor.dibujar_via2 st (la, lo))) as (H1 & H2 & H3 & H4).
    rewrite H1, H2, H3, H4. simpl. rewrite map_app, <- app_assoc.
    repeat split.
Qed.

Lemma dibujar_esp_campos (l : list (Z * R * R))
  (st : Editor.EditorMapaSemaforos) :
  let st' := fold_left Editor.dibujar_esp l st in
  Editor.marcadores_via1 st' = Editor.marcadores_via1 st
  /\ Editor.marcadores_via2 st' = Editor.marcadores_via2 st
  /\ map (fun c => (Editor.esp_id c, Editor.esp_lat c, Editor.esp_lon c))
       (Editor.controladores_esp st')
     = map (fun c => (Editor.esp_id c, Editor.esp_lat c, Editor.esp_lon c))
         (Editor.controladores_esp st) ++ l
  /\ Editor.undo_stack st' = Editor.undo_stack st.
Proof.
  revert st. induction l as [|[[cid la] lo] l IH]; intros st.
  - simpl. now rewrite app_nil_r.
  - cbn [fold_left]. cbv zeta in IH.
    destruct (IH (Editor.dibujar_esp st (cid, la, lo)))
      as (H1 & H2 & H3 & H4).
    rewrite H1, H2, H3, H4. simpl. rewrite map_app, <- app_assoc.
    repeat split.
Qed.

Lemma re_dibujar_todo_campos (g1 g2 : list (R * R)) (ge : list (Z * R * R))
  (st : Editor.EditorMapaSemaforos) :
  let st' := Editor.re_dibujar_todo g1 g2 ge st in
  map fst (Editor.marcadores_via1 st')
  = map fst (Editor.marcadores_via1 st) ++ g1
  /\ map fst (Editor.marcadores_via2 st')
     = map fst (Editor.marcadores_via2 st) ++ g2
  /\ map (fun c => (Editor.esp_id c, Editor.esp_lat c, Editor.esp_lon c))
       (Editor.controladores_esp st')
     = map (fun c => (Editor.esp_id c, Editor.esp_lat c, Editor.esp_lon c))
         (Editor.controladores_esp st) ++ ge
  /\ Editor.undo_stack st' = Editor.undo_stack st.
Proof.
  unfold Editor.re_dibujar_todo. cbv zeta.
  destruct (dibujar_via1_campos g1 st) as (A1 & A2 & A3 & A4).
  destruct (dibujar_via2_campos g2 (fold_left Editor.dibujar_via1 g1 st))
    as (B1 & B2 & B3 & B4).
  destruct (dibujar_esp_campos ge
              (fold_left Editor.dibujar_via2 g2
                 (fold_left Editor.dibujar_via1 g1 st)))
    as (C1 & C2 & C3 & C4).
  cbv zeta in *.
  rewrite C1, B1, A1, C2, B2, A2, C3, B3, A3, C4, B4, A4. repeat split.
Qed.

(** ** The table of times *)

Lemma int_no_negativo_R (x : R) : 0 <= x -> (0 <= Editor.int_ x)%Z.
Proof.
  intros Hx. unfold Editor.int_. destruct (Rle_dec 0 x); [|contradiction].
  destruct (base_Int_part x) as [_ H].
  assert (Hlt : IZR (-1) < IZR (Int_part x)) by (simpl; lra).
  apply lt_IZR in Hlt. lia.
Qed.

Lemma limites_velocidad_orden (a b : R) :
  5 <= fst (Editor.limites_velocidad a b)
  /\ fst (Editor.limites_velocidad a b) <= snd (Editor.limites_velocidad a b).
Proof.
  unfold Editor.limites_velocidad. cbv zeta. simpl.
  unfold Coordinacion.py_max, Coordinacion.py_min. caso_orden; lra.
Qed.

(** X17. The two global speeds both calculations work with satisfy
    [5 <= vel_min <= vel_max] whatever the two entries hold, inverted or
    negative values included.  The cap of 110 km/h holds when one of the
    entries is at most 110; with both above it, the two speeds are the
    smaller entry. *)
Theorem limites_velocidad_cotas (a b : R) :
  let vel_min := fst (Editor.limites_velocidad a b) in
  let vel_max := snd (Editor.limites_velocidad a b) in
  5 <= vel_min <= vel_max
  /\ (a <= 110 \/ b <= 110 -> vel_max <= 110)
  /\ (110 < a -> 110 < b -> vel_min = Rmin a b /\ vel_max = Rmin a b).
Proof.
  cbv zeta. split; [apply limites_velocidad_orden|].
  unfold Editor.limites_velocidad. cbv zeta. simpl.
  unfold Coordinacion.py_max, Coordinacion.py_min, Rmin.
  split.
  - intros H. caso_orden; lra.
  - intros Ha Hb. caso_orden; lra.
Qed.

(** *** Sorting by longitude *)

Lemma insertar_length {A : Type} (key : A -> R) (x : A) (xs : list A) :
  List.length (Editor.insertar key x xs) = S (List.length xs).
Proof.
  induction xs as [|y ys IH]; simpl; [reflexivity|].
  destruct (Rle_dec (key x) (key y)); simpl; [reflexivity | now rewrite IH].
Qed.

Lemma sorted_length {A : Type} (key : A -> R) (xs : list A) :
  List.length (Editor.sorted key xs) = List.length xs.
Proof.
  induction xs as [|x xs IH]; simpl; [reflexivity|].
  now rewrite insertar_length, IH.
Qed.

Lemma insertar_permutacion {A : Type} (key : A -> R) (x : A) (xs : list A) :
  Permutation (x :: xs) (Editor.insertar key x xs).
Proof.
  induction xs as [|y ys IH]; simpl; [apply Permutation_refl|].
  destruct (Rle_dec (key x) (key y)); [apply Permutation_refl|].
  eapply Permutation_trans; [apply perm_swap|]. now apply perm_skip.
Qed.

Lemma sorted_permutacion {A : Type} (key : A -> R) (xs : list A) :
  Permutation xs (Editor.sorted key xs).
Proof.
  induction xs as [|x xs IH]; simpl; [apply Permutation_refl|].
  eapply Permutation_trans; [|apply insertar_permutacion].
  now apply perm_skip.
Qed.

Lemma insertar_ordenada {A : Type} (key : A -> R) (x : A) (xs : list A) :
  Sorted (fun a b => key a <= key b) xs ->
  Sorted (fun a b => key a <= key b) (Editor.insertar key x xs).
Proof.
  induction xs as [|y ys IH]; intros Hs; simpl.
  - constructor; constructor.
  - destruct (Rle_dec (key x) (key y)) as [Hle|Hgt].
    + constructor; [exact Hs|]. constructor. exact Hle.
    + apply Sorted_inv in Hs as [Hys Hhd].
      constructor; [now apply IH|].
      destruct ys as [|z zs]; simpl.
      * constructor. lra.
      * destruct (Rle_dec (key x) (key z)).
        -- constructor. lra.
        -- constructor. now apply HdRel_inv in Hhd.
Qed.

Lemma sorted_ordenada {A : Type} (key : A -> R) (xs : list A) :
  Sorted (fun a b => key a <= key b) (Editor.sorted key xs).
Proof.
  induction xs as [|x xs IH]; simpl; [constructor|].
  now apply insertar_ordenada.
Qed.

Lemma ordenada_contiguos {A : Type} (key : A -> R) (xs : list A) (d : A) :
  Sorted (fun a b => key a <= key b) xs ->
  forall k, (S k < List.length xs)%nat ->
            key (nth k xs d) <= key (nth (S k) xs d).
Proof.
  induction 1 as [|x xs Hs IH Hhd]; intros k Hk; simpl in Hk; [lia|].
  destruct k as [|k].
  - destruct xs as [|y ys]; simpl in Hk; [lia|].
    simpl. now apply HdRel_inv in Hhd.
  - change (key (nth k xs d) <= key (nth (S k) xs d)). apply IH. lia.
Qed.

(** *** [calcular_onda_verde] *)

Lemma vel_onda_verde_rango (via : string) (manuales : list (Editor.clave * R))
  (vel_min vel_max : R) (k : nat) :
  vel_min <= vel_max ->
  vel_min <= vel_onda_verde via manuales vel_min vel_max k <= vel_max.
Proof.
  intros H. unfold vel_onda_verde. now apply recorte_acotado.
Qed.

Lemma getitem_nth_suc {A : Type} (xs : list A) (k : nat) (d : A) :
  (S k < List.length xs)%nat ->
  getitem xs (Z.of_nat k + 1)%Z = inr (nth (S k) xs d).
Proof.
  intros Hk. replace (Z.of_nat k + 1)%Z with (Z.of_nat (S k)) by lia.
  now apply getitem_nth.
Qed.

Lemma cuerpo_onda_verde_valor (via : string)
  (ordenados : list (R * R * Editor.marcador))
  (manuales : list (Editor.clave * R)) (vel_min vel_max : R)
  (acc : list Editor.Fila) (k : nat) :
  (S k < List.length ordenados)%nat -> 5 <= vel_min <= vel_max ->
  Editor.cuerpo_onda_verde via ordenados manuales vel_min vel_max acc
    (Z.of_nat k)
  = inr (acc ++ [fila_onda_verde via ordenados manuales vel_min vel_max k]).
Proof.
  intros Hk Hv. unfold Editor.cuerpo_onda_verde, fila_onda_verde.
  rewrite (getitem_nth ordenados k (0, 0, 0%nat)) by lia. cbn [bind].
  rewrite (getitem_nth_suc ordenados k (0, 0, 0%nat)) by lia. cbn [bind].
  destruct (nth k ordenados (0, 0, 0%nat)) as [[la1 lo1] m1].
  destruct (nth (S k) ordenados (0, 0, 0%nat)) as [[la2 lo2] m2].
  unfold Editor.haversine. rewrite haversine_valor. cbn [bind fst snd].
  cbv zeta.
  fold (vel_onda_verde via manuales vel_min vel_max k).
  pose proof (vel_onda_verde_rango via manuales vel_min vel_max k
                ltac:(lra)) as Hvel.
  set (vel := vel_onda_verde via manuales vel_min vel_max k) in *.
  destruct (Rlt_dec 0 (vel * 1000 / 3600)) as [Hpos|Hneg]; [|lra].
  rewrite truediv_ok by lra. reflexivity.
Qed.

(** The table [calcular_onda_verde] writes for a corridor of at least two
    markers and two readable speeds. *)
Lemma calcular_onda_verde_valor (es_via1 : bool) (a b : R)
  (st : Editor.EditorMapaSemaforos) :
  let marcadores := if es_via1 then Editor.marcadores_via1 st
                    else Editor.marcadores_via2 st in
  let via := if es_via1 then "V1"%string else "V2"%string in
  (2 <= List.length marcadores)%nat ->
  Editor.calcular_onda_verde es_via1 (Some a) (Some b) st
  = inr (Editor.mkEditor (Editor.marcadores_via1 st)
           (Editor.marcadores_via2 st) (Editor.controladores_esp st)
           (Editor.via_activa st) (Editor.modo_esp st)
           (Editor.undo_stack st) (Editor.tramos_vel_manuales st)
           (map (fila_onda_verde via (por_longitud marcadores)
                   (Editor.tramos_vel_manuales st)
                   (fst (Editor.limites_velocidad a b))
                   (snd (Editor.limites_velocidad a b)))
              (seq 0 (List.length marcadores - 1)))
           (Editor.map_widget st)).
Proof.
  cbv zeta. intros Hn. unfold Editor.calcular_onda_verde.
  set (marcadores := if es_via1 then Editor.marcadores_via1 st
                     else Editor.marcadores_via2 st) in *.
  set (via := if es_via1 then "V1"%string else "V2"%string).
  replace (if es_via1 then (Editor.marcadores_via1 st, "V1"%string)
           else (Editor.marcadores_via2 st, "V2"%string))
    with (marcadores, via) by (unfold marcadores, via; now destruct es_via1).
  destruct (List.length marcadores <? 2)%nat eqn:Hlt.
  - apply Nat.ltb_lt in Hlt. lia.
  - pose proof (limites_velocidad_orden a b) as Hlim.
    destruct (Editor.limites_velocidad a b) as [vmin vmax]. simpl in Hlim.
    fold (por_longitud marcadores).
    assert (Hlen : List.length (por_longitud marcadores)
                   = List.length marcadores) by apply sorted_length.
    rewrite Hlen.
    rewrite (for_in_append
               (fun z => fila_onda_verde via (por_longitud marcadores)
                           (Editor.tramos_vel_manuales st) vmin vmax
                           (Z.to_nat z))).
    + simpl. unfold range, ret. rewrite map_map. do 2 f_equal.
      apply map_ext. intros k. now rewrite Nat2Z.id.
    + intros z acc Hz. apply in_range in Hz as (k & Hk & ->).
      rewrite Nat2Z.id. apply cuerpo_onda_verde_valor; [lia|exact Hlim].
Qed.

(** The rows of [calcular_onda_verde], over the reals. *)
Lemma calcular_onda_verde_filas (es_via1 : bool)
  (entry_vel_min entry_vel_max : option R) (st : Editor.EditorMapaSemaforos) :
  let marcadores := if es_via1 then Editor.marcadores_via1 st
                    else Editor.marcadores_via2 st in
  let via := if es_via1 then "V1"%string else "V2"%string in
  exists filas,
    Editor.calcular_onda_verde es_via1 entry_vel_min entry_vel_max st
    = inr (Editor.mkEditor (Editor.marcadores_via1 st)
             (Editor.marcadores_via2 st) (Editor.controladores_esp st)
             (Editor.via_activa st) (Editor.modo_esp st)
             (Editor.undo_stack st) (Editor.tramos_vel_manuales st) filas
             (Editor.map_widget st))
    /\ ((List.length marcadores < 2)%nat \/ entry_vel_min = None
        \/ entry_vel_max = None -> filas = Editor.tree st)
    /\ forall a b,
        (2 <= List.length marcadores)%nat ->
        entry_vel_min = Some a -> entry_vel_max = Some b ->
        let vel_min := fst (Editor.limites_velocidad a b) in
        let vel_max := snd (Editor.limites_velocidad a b) in
        List.length filas = (List.length marcadores - 1)%nat
        /\ forall k fila, nth_error filas k = Some fila ->
             exists m1 m2 d vel,
               nth_error (por_longitud marcadores) k = Some m1
               /\ nth_error (por_longitud marcadores) (S k) = Some m2
               /\ snd (fst m1) <= snd (fst m2)
               /\ Editor.haversine (fst (fst m1)) (snd (fst m1))
                    (fst (fst m2)) (snd (fst m2)) = inr d
               /\ vel_min <= vel <= vel_max
               /\ Editor.f_via fila = via
               /\ Editor.f_i fila = Z.of_nat k
               /\ Editor.f_j fila = (Z.of_nat k + 1)%Z
               /\ Editor.f_dist_m fila = Editor.int_ d
               /\ Editor.f_vel_kmh fila = Editor.round1 vel
               /\ Editor.f_t_seg fila
                  = Editor.int_ (d / (vel * 1000 / 3600))
               /\ (0 <= Editor.f_dist_m fila)%Z
               /\ (0 <= Editor.f_t_seg fila)%Z.
Proof.
  cbv zeta.
  set (marcadores := if es_via1 then Editor.marcadores_via1 st
                     else Editor.marcadores_via2 st).
  set (via := if es_via1 then "V1"%string else "V2"%string).
  assert (Hfrm : Editor.mkEditor (Editor.marcadores_via1 st)
                   (Editor.marcadores_via2 st) (Editor.controladores_esp st)
                   (Editor.via_activa st) (Editor.modo_esp st)
                   (Editor.undo_stack st) (Editor.tramos_vel_manuales st)
                   (Editor.tree st) (Editor.map_widget st) = st)
    by (now destruct st).
  destruct (le_lt_dec 2 (List.length marcadores)) as [Hn|Hn].
  - destruct entry_vel_min as [a|]; [destruct entry_vel_max as [b|]|].
    + eexists. split; [apply (calcular_onda_verde_valor es_via1 a b st Hn)|].
      split.
      { intros [H|[H|H]]; [fold marcadores in Hn; lia | discriminate
                          | discriminate]. }
      intros a' b' _ Ha Hb. injection Ha as <-. injection Hb as <-.
      fold marcadores via.
      split; [now rewrite length_map, length_seq|].
      intros k fila Hf. apply nth_error_map_seq in Hf as [Hk ->].
      pose proof (limites_velocidad_orden a b) as Hlim.
      assert (Hlen : List.length (por_longitud marcadores)
                     = List.length marcadores) by apply sorted_length.
      exists (nth k (por_longitud marcadores) (0, 0, 0%nat)),
        (nth (S k) (por_longitud marcadores) (0, 0, 0%nat)),
        (distancia
           (fst (fst (nth k (por_longitud marcadores) (0, 0, 0%nat))))
           (snd (fst (nth k (por_longitud marcadores) (0, 0, 0%nat))))
           (fst (fst (nth (S k) (por_longitud marcadores) (0, 0, 0%nat))))
           (snd (fst (nth (S k) (por_longitud marcadores) (0, 0, 0%nat))))),
        (vel_onda_verde via (Editor.tramos_vel_manuales st)
           (fst (Editor.limites_velocidad a b))
           (snd (Editor.limites_velocidad a b)) k).
      pose proof (vel_onda_verde_rango via (Editor.tramos_vel_manuales st)
                    _ _ k (proj2 Hlim)) as Hvel.
      split; [apply nth_error_nth'; lia|].
      split; [apply nth_error_nth'; lia|].
      split.
      { apply (ordenada_contiguos (fun x => snd (fst x))).
        - apply sorted_ordenada.
        - lia. }
      split; [unfold Editor.haversine; apply haversine_valor|].
      split; [exact Hvel|].
      unfold fila_onda_verde. cbv zeta.
      cbn [Editor.f_via Editor.f_i Editor.f_j Editor.f_dist_m
             Editor.f_vel_kmh Editor.f_t_seg].
      repeat (split; [reflexivity|]).
      split.
      * apply int_no_negativo_R, distancia_no_negativa.
      * apply int_no_negativo_R. apply Rmult_le_pos.
        -- apply distancia_no_negativa.
        -- left. apply Rinv_0_lt_compat. lra.
    + exists (Editor.tree st). split.
      * unfold Editor.calcular_onda_verde.
        destruct es_via1; simpl;
          (destruct (_ <? 2)%nat; [now rewrite Hfrm | now rewrite Hfrm]).
      * split; [reflexivity|]. intros a' b' _ _ Hb. discriminate.
    + exists (Editor.tree st). split.
      * unfold Editor.calcular_onda_verde.
        destruct es_via1; simpl;
          (destruct (_ <? 2)%nat; [now rewrite Hfrm | now rewrite Hfrm]).
      * split; [reflexivity|]. intros a' b' _ Ha _. discriminate.
  - exists (Editor.tree st). split.
    + unfold Editor.calcular_onda_verde. fold marcadores.
      assert (Hlt : (List.length marcadores <? 2)%nat = true)
        by (apply Nat.ltb_lt; lia).
      unfold marcadores in Hlt.
      destruct es_via1; simpl; rewrite Hlt; now rewrite Hfrm.
    + split; [reflexivity|]. intros a b Hge. fold marcadores in Hge. lia.
Qed.

(** X18. With fewer than two markers on the corridor, or a speed entry
    that does not parse, [calcular_onda_verde] returns and leaves the
    editor as it was.  Whenever it returns it has changed only the table;
    with two markers or more and two speeds the table then holds one row
    per pair of neighbours of the markers sorted by longitude, numbered
    [k -> k + 1] from 0 and tagged with the corridor; each row has a speed
    inside the two global speeds, so the fallback time of 999 is never
    used, and a distance and a time that are not negative. *)
Theorem calcular_onda_verde_tabla (es_via1 : bool)
  (entry_vel_min entry_vel_max : option R) (st : Editor.EditorMapaSemaforos) :
  let marcadores := if es_via1 then Editor.marcadores_via1 st
                    else Editor.marcadores_via2 st in
  let via := if es_via1 then "V1"%string else "V2"%string in
  ((List.length marcadores < 2)%nat \/ entry_vel_min = None
   \/ entry_vel_max = None ->
   Editor.calcular_onda_verde es_via1 entry_vel_min entry_vel_max st = inr st)
  /\ forall st',
      Editor.calcular_onda_verde es_via1 entry_vel_min entry_vel_max st
      = inr st' ->
      st' = Editor.mkEditor (Editor.marcadores_via1 st)
              (Editor.marcadores_via2 st) (Editor.controladores_esp st)
              (Editor.via_activa st) (Editor.modo_esp st)
              (Editor.undo_stack st) (Editor.tramos_vel_manuales st)
              (Editor.tree st') (Editor.map_widget st)
      /\ forall a b,
          (2 <= List.length marcadores)%nat ->
          entry_vel_min = Some a -> entry_vel_max = Some b ->
          let vel_min := fst (Editor.limites_velocidad a b) in
          let vel_max := snd (Editor.limites_velocidad a b) in
          List.length (Editor.tree st') = (List.length marcadores - 1)%nat
          /\ forall k fila, nth_error (Editor.tree st') k = Some fila ->
               exists m1 m2 d vel,
                 nth_error (por_longitud marcadores) k = Some m1
                 /\ nth_error (por_longitud marcadores) (S k) = Some m2
                 /\ snd (fst m1) <= snd (fst m2)
                 /\ Editor.haversine (fst (fst m1)) (snd (fst m1))
                      (fst (fst m2)) (snd (fst m2)) = inr d
                 /\ vel_min <= vel <= vel_max
                 /\ Editor.f_via fila = via
                 /\ Editor.f_i fila = Z.of_nat k
                 /\ Editor.f_j fila = (Z.of_nat k + 1)%Z
                 /\ Editor.f_dist_m fila = Editor.int_ d
                 /\ Editor.f_vel_kmh fila = Editor.round1 vel
                 /\ Editor.f_t_seg fila
                    = Editor.int_ (d / (vel * 1000 / 3600))
                 /\ (0 <= Editor.f_dist_m fila)%Z
                 /\ (0 <= Editor.f_t_seg fila)%Z.
Proof.
  cbv zeta.
  destruct (calcular_onda_verde_filas es_via1 entry_vel_min entry_vel_max st)
    as (filas & Hret & Hsin & Hfilas).
  cbv zeta in Hsin, Hfilas. split.
  - intros H. rewrite Hret, (Hsin H). now destruct st.
  - intros st' Hst. rewrite Hret in Hst. injection Hst as <-.
    cbn [Editor.tree]. split; [reflexivity|]. exact Hfilas.
Qed.

(** Two markers on corridor 1, one degree of longitude apart, and the
    speed entries 30 and 60. *)
Lemma calcular_onda_verde_tabla_testigo :
  exists st',
    Editor.calcular_onda_verde true (Some 30) (Some 60)
      (Editor.mkEditor [(0%R, 0%R, 0%nat); (0%R, 1%R, 1%nat)] [] [] 1 false
         [] [] [] 2)
    = inr st'
    /\ List.length (Editor.tree st') = 1%nat
    /\ forall fila, nth_error (Editor.tree st') 0 = Some fila ->
         Editor.f_via fila = "V1"%string
         /\ Editor.f_i fila = 0%Z /\ Editor.f_j fila = 1%Z
         /\ (0 <= Editor.f_dist_m fila)%Z /\ (0 <= Editor.f_t_seg fila)%Z.
Proof.
  set (st := Editor.mkEditor [(0%R, 0%R, 0%nat); (0%R, 1%R, 1%nat)] [] []
               1 false [] [] [] 2).
  pose proof (calcular_onda_verde_valor true 30 60 st ltac:(simpl; lia))
    as Hret.
  cbv zeta in Hret. eexists. split; [exact Hret|].
  destruct (proj2 (calcular_onda_verde_tabla true (Some 30) (Some 60) st)
              _ Hret) as [_ Hfilas].
  destruct (Hfilas 30 60 ltac:(simpl; lia) eq_refl eq_refl) as [Hlen Hk].
  split; [exact Hlen|]. intros fila Hf.
  destruct (Hk 0%nat fila Hf)
    as (m1 & m2 & d & vel & _ & _ & _ & _ & _ & Hv & Hi & Hj & _ & _ & _
        & Hd & Ht).
  repeat split; assumption.
Defined.

(** *** [calcular_coordinacion_avanzada] *)

Lemma combine_seq_nth {A B : Type} (g : nat -> B) (xs : list A) (d : A) :
  forall s,
    combine (map g (seq s (List.length xs))) xs
    = map (fun k => (g k, nth (k - s) xs d)) (seq s (List.length xs)).
Proof.
  induction xs as [|x xs IH]; intros s; [reflexivity|].
  simpl. rewrite Nat.sub_diag. f_equal. rewrite IH.
  apply map_ext_in. intros k Hk. apply in_seq in Hk.
  replace (k - s)%nat with (S (k - S s)) by lia. reflexivity.
Qed.

(** The signals handed over are the markers sorted by longitude, numbered
    from 0. *)
Lemma semaforos_objeto_valor (marcadores : list (R * R * Editor.marcador)) :
  semaforos_objeto marcadores
  = map (fun k =>
           mkSemaforo (Z.of_nat k)
             (fst (fst (nth k (por_longitud marcadores) (0, 0, 0%nat))))
             (snd (fst (nth k (por_longitud marcadores) (0, 0, 0%nat)))))
      (seq 0 (List.length marcadores)).
Proof.
  unfold semaforos_objeto, Editor.semaforos_de, Editor.enumerate, range.
  unfold por_longitud.
  rewrite (combine_seq_nth Z.of_nat
             (Editor.sorted (fun x => snd (fst x)) marcadores)
             (0, 0, 0%nat)).
  rewrite sorted_length, !map_map. cbn [fst snd d_id d_lat d_lon].
  apply map_ext. intros k. now rewrite Nat.sub_0_r.
Qed.

Lemma semaforos_objeto_length (marcadores : list (R * R * Editor.marcador)) :
  List.length (semaforos_objeto marcadores) = List.length marcadores.
Proof. now rewrite semaforos_objeto_valor, length_map, length_seq. Qed.

Lemma nth_map_seq {B : Type} (f : nat -> B) (n k : nat) (d : B) :
  (k < n)%nat -> nth k (map f (seq 0 n)) d = f k.
Proof.
  intros Hk. rewrite (nth_indep _ d (f 0%nat))
    by (now rewrite length_map, length_seq).
  now rewrite (map_nth f), seq_nth by exact Hk.
Qed.

Lemma semaforos_objeto_nth (marcadores : list (R * R * Editor.marcador))
  (k : nat) :
  (k < List.length marcadores)%nat ->
  nth k (semaforos_objeto marcadores) (mkSemaforo 0 0 0)
  = mkSemaforo (Z.of_nat k)
      (fst (fst (nth k (por_longitud marcadores) (0, 0, 0%nat))))
      (snd (fst (nth k (por_longitud marcadores) (0, 0, 0%nat)))).
Proof.
  intros Hk. rewrite semaforos_objeto_valor.
  now rewrite nth_map_seq by exact Hk.
Qed.

Lemma repartir_tramos_valor (manuales : list (Editor.clave * R)) :
  Editor.repartir_tramos manuales
  = (map (fun e => mkDictTramoVd (snd (fst (fst e))) (snd (fst e)) (snd e))
       (filter (fun e => String.eqb (fst (fst (fst e))) "V1") manuales),
     map (fun e => mkDictTramoVd (snd (fst (fst e))) (snd (fst e)) (snd e))
       (filter (fun e => negb (String.eqb (fst (fst (fst e))) "V1"))
          manuales)).
Proof.
  unfold Editor.repartir_tramos.
  set (f := fun e : Editor.clave * R =>
              mkDictTramoVd (snd (fst (fst e))) (snd (fst e)) (snd e)).
  set (p := fun e : Editor.clave * R => String.eqb (fst (fst (fst e))) "V1").
  assert (Hgen : forall ms a1 a2,
             fold_left
               (fun acc e =>
                  let '(v1, v2) := acc in
                  let '((via, i, j), vel) := e in
                  if String.eqb via "V1"
                  then (v1 ++ [mkDictTramoVd i j vel], v2)
                  else (v1, v2 ++ [mkDictTramoVd i j vel]))
               ms (a1, a2)
             = (a1 ++ map f (filter p ms),
                a2 ++ map f (filter (fun e => negb (p e)) ms))).
  { induction ms as [|[[[via i] j] vel] ms IH]; intros a1 a2.
    - simpl. now rewrite !app_nil_r.
    - cbn [fold_left]. destruct (String.eqb via "V1") eqn:Hv;
        rewrite IH; unfold p, f; simpl; rewrite Hv; simpl;
        now rewrite <- app_assoc. }
  apply (Hgen manuales [] []).
Qed.

Lemma ciclo_por_defecto :
  estimar_ciclo_webster [] lost_time_s_default = inr 57.5.
Proof.
  rewrite estimar_ciclo_webster_sin_flujos. f_equal.
  unfold lost_time_s_default, Coordinacion.py_max, Coordinacion.py_min.
  assert (H : (1.5 * 12 + 5) / (1 - 0.6) = 57.5) by lra.
  rewrite H. caso_orden; lra.
Qed.

Lemma banda_por_defecto :
  calcular_banda_objetivo 57.5 porcentaje_default = 25.875.
Proof.
  unfold calcular_banda_objetivo, porcentaje_default,
    Coordinacion.py_max, Coordinacion.py_min.
  caso_orden; lra.
Qed.

Lemma plan_por_defecto (via : string) (semaforos : list Semaforo)
  (tramos_vd : list TramoVelocidad) (vd : R) :
  generar_plan_para_via via semaforos tramos_vd vd None lost_time_s_default
    porcentaje_default
  = inr (mkPlanCoordinacion via
           (map (fun k => tramo_de via tramos_vd vd (Z.of_nat k)
                            (nth k semaforos (mkSemaforo 0 0 0))
                            (nth (S k) semaforos (mkSemaforo 0 0 0)))
              (seq 0 (List.length semaforos - 1)))
           57.5 25.875).
Proof.
  unfold generar_plan_para_via.
  rewrite (construir_tramos_valor via semaforos tramos_vd vd
             (mkSemaforo 0 0 0)).
  cbn [bind o_lista_vacia]. rewrite ciclo_por_defecto. cbn [bind].
  now rewrite banda_por_defecto.
Qed.

(** The plan [calcular_coordinacion_avanzada] asks for. *)
Lemma plan_avanzado_valor (a b : R) (st : Editor.EditorMapaSemaforos) :
  Editor.plan_avanzado a b st
  = inr (mkDictGlobal
           (mkDictPlan "V1" 57.5 25.875
              (tramos_avanzados true (snd (Editor.limites_velocidad a b)) st))
           (mkDictPlan "V2" 57.5 25.875
              (tramos_avanzados false (snd (Editor.limites_velocidad a b))
                 st))).
Proof.
  unfold Editor.plan_avanzado.
  destruct (Editor.limites_velocidad a b) as [vmin vmax]. cbn [snd].
  rewrite repartir_tramos_valor. unfold generar_plan_global. cbv zeta.
  rewrite !map_map. cbn [d_i_inicio d_i_fin d_vd_kmh].
  fold (semaforos_objeto (Editor.marcadores_via1 st)).
  fold (semaforos_objeto (Editor.marcadores_via2 st)).
  rewrite !plan_por_defecto. cbn [bind]. reflexivity.
Qed.

(** X19. Whatever the markers, the manual speeds and the two speed
    entries, the plan [calcular_coordinacion_avanzada] asks for has, on
    both corridors, the cycle 57.5 s and the bandwidth 25.875 s: the
    editor passes no flow ratios, lost time or bandwidth fraction, so the
    fallback saturation and the defaults decide them. *)
Theorem plan_avanzado_ciclo_fijo (a b : R) (st : Editor.EditorMapaSemaforos) :
  exists plan,
    Editor.plan_avanzado a b st = inr plan
    /\ dp_ciclo_base_s (V1 plan) = 57.5
    /\ dp_banda_objetivo_s (V1 plan) = 25.875
    /\ dp_ciclo_base_s (V2 plan) = 57.5
    /\ dp_banda_objetivo_s (V2 plan) = 25.875.
Proof.
  eexists. split; [apply plan_avanzado_valor|]. repeat split.
Qed.

Lemma tramos_avanzados_length (es_via1 : bool) (vel_max : R)
  (st : Editor.EditorMapaSemaforos) :
  List.length (tramos_avanzados es_via1 vel_max st)
  = (List.length (if es_via1 then Editor.marcadores_via1 st
                  else Editor.marcadores_via2 st) - 1)%nat.
Proof.
  unfold tramos_avanzados. cbv zeta.
  now rewrite length_map, length_seq, semaforos_objeto_length.
Qed.

(** A row of the advanced table, by its place in its corridor. *)
Lemma fila_avanzada_propiedades (es_via1 : bool) (vel_max : R)
  (st : Editor.EditorMapaSemaforos) (k : nat) (fila : Editor.Fila) :
  let marcadores := if es_via1 then Editor.marcadores_via1 st
                    else Editor.marcadores_via2 st in
  let via := if es_via1 then "V1"%string else "V2"%string in
  nth_error (map (fila_de_tramo via) (tramos_avanzados es_via1 vel_max st)) k
  = Some fila ->
  exists m1 m2 d,
    nth_error (por_longitud marcadores) k = Some m1
    /\ nth_error (por_longitud marcadores) (S k) = Some m2
    /\ snd (fst m1) <= snd (fst m2)
    /\ haversine (fst (fst m1)) (snd (fst m1)) (fst (fst m2)) (snd (fst m2))
       = inr d
    /\ Editor.f_via fila = via
    /\ Editor.f_i fila = Z.of_nat k
    /\ Editor.f_j fila = (Z.of_nat k + 1)%Z
    /\ Editor.f_dist_m fila = Editor.int_ d
    /\ (0 <= Editor.f_dist_m fila)%Z
    /\ (0 <= Editor.f_t_seg fila)%Z.
Proof.
  cbv zeta. unfold tramos_avanzados. cbv zeta.
  set (marcadores := if es_via1 then Editor.marcadores_via1 st
                     else Editor.marcadores_via2 st).
  set (via := if es_via1 then "V1"%string else "V2"%string).
  rewrite map_map, semaforos_objeto_length. intros Hf.
  apply nth_error_map_seq in Hf as [Hk ->].
  rewrite !semaforos_objeto_nth by lia.
  assert (Hlen : List.length (por_longitud marcadores)
                 = List.length marcadores) by apply sorted_length.
  set (m1 := nth k (por_longitud marcadores) (0, 0, 0%nat)).
  set (m2 := nth (S k) (por_longitud marcadores) (0, 0, 0%nat)).
  exists m1, m2,
    (distancia (fst (fst m1)) (snd (fst m1)) (fst (fst m2)) (snd (fst m2))).
  split; [apply nth_error_nth'; lia|].
  split; [apply nth_error_nth'; lia|].
  split.
  { apply (ordenada_contiguos (fun x => snd (fst x))).
    - apply sorted_ordenada.
    - lia. }
  split; [apply haversine_valor|].
  unfold fila_de_tramo, tramo_de.
  cbn [Editor.f_via Editor.f_i Editor.f_j Editor.f_dist_m Editor.f_t_seg
         tc_i tc_j dist_m tiempo_viaje_s id_local lat lon].
  split; [reflexivity|]. split; [reflexivity|]. split; [lia|].
  split; [reflexivity|]. split.
  - apply int_no_negativo_R, distancia_no_negativa.
  - apply int_no_negativo_R. apply Rmult_le_pos.
    + apply distancia_no_negativa.
    + left. apply Rinv_0_lt_compat, divisor_ms_positivo.
Qed.

Lemma calcular_coordinacion_avanzada_valor (a b : R)
  (st : Editor.EditorMapaSemaforos) :
  (2 <= List.length (Editor.marcadores_via1 st))%nat
  \/ (2 <= List.length (Editor.marcadores_via2 st))%nat ->
  Editor.calcular_coordinacion_avanzada (Some a) (Some b) st
  = inr (Editor.mkEditor (Editor.marcadores_via1 st)
           (Editor.marcadores_via2 st) (Editor.controladores_esp st)
           (Editor.via_activa st) (Editor.modo_esp st)
           (Editor.undo_stack st) (Editor.tramos_vel_manuales st)
           (map (fila_de_tramo "V1")
              (tramos_avanzados true (snd (Editor.limites_velocidad a b)) st)
            ++ map (fila_de_tramo "V2")
                 (tramos_avanzados false
                    (snd (Editor.limites_velocidad a b)) st))
           (Editor.map_widget st)).
Proof.
  intros Hn. unfold Editor.calcular_coordinacion_avanzada. cbv zeta.
  assert (Hl1 : List.length (Editor.semaforos_de (Editor.marcadores_via1 st))
                = List.length (Editor.marcadores_via1 st)).
  { rewrite <- (semaforos_objeto_length (Editor.marcadores_via1 st)).
    unfold semaforos_objeto. now rewrite length_map. }
  assert (Hl2 : List.length (Editor.semaforos_de (Editor.marcadores_via2 st))
                = List.length (Editor.marcadores_via2 st)).
  { rewrite <- (semaforos_objeto_length (Editor.marcadores_via2 st)).
    unfold semaforos_objeto. now rewrite length_map. }
  rewrite Hl1, Hl2.
  destruct ((List.length (Editor.marcadores_via1 st) <? 2)%nat
            && (List.length (Editor.marcadores_via2 st) <? 2)%nat)%bool
    eqn:Hb.
  - apply andb_true_iff in Hb as [H1 H2].
    apply Nat.ltb_lt in H1. apply Nat.ltb_lt in H2. lia.
  - rewrite plan_avanzado_valor. reflexivity.
Qed.

(** The rows of [calcular_coordinacion_avanzada], over the reals. *)
Lemma calcular_coordinacion_avanzada_filas
  (entry_vel_min entry_vel_max : option R) (st : Editor.EditorMapaSemaforos) :
  exists filas,
    Editor.calcular_coordinacion_avanzada entry_vel_min entry_vel_max st
    = inr (Editor.mkEditor (Editor.marcadores_via1 st)
             (Editor.marcadores_via2 st) (Editor.controladores_esp st)
             (Editor.via_activa st) (Editor.modo_esp st)
             (Editor.undo_stack st) (Editor.tramos_vel_manuales st) filas
             (Editor.map_widget st))
    /\ (((List.length (Editor.marcadores_via1 st) < 2)%nat
         /\ (List.length (Editor.marcadores_via2 st) < 2)%nat)
        \/ entry_vel_min = None \/ entry_vel_max = None ->
        filas = Editor.tree st)
    /\ forall a b,
        (2 <= List.length (Editor.marcadores_via1 st))%nat
        \/ (2 <= List.length (Editor.marcadores_via2 st))%nat ->
        entry_vel_min = Some a -> entry_vel_max = Some b ->
        exists filas1 filas2,
          filas = filas1 ++ filas2
          /\ List.length filas1
             = (List.length (Editor.marcadores_via1 st) - 1)%nat
          /\ List.length filas2
             = (List.length (Editor.marcadores_via2 st) - 1)%nat
          /\ forall (es_via1 : bool) k fila,
              nth_error (if es_via1 then filas1 else filas2) k = Some fila ->
              let marcadores := if es_via1 then Editor.marcadores_via1 st
                                else Editor.marcadores_via2 st in
              exists m1 m2 d,
                nth_error (por_longitud marcadores) k = Some m1
                /\ nth_error (por_longitud marcadores) (S k) = Some m2
                /\ snd (fst m1) <= snd (fst m2)
                /\ haversine (fst (fst m1)) (snd (fst m1)) (fst (fst m2))
                     (snd (fst m2)) = inr d
                /\ Editor.f_via fila
                   = (if es_via1 then "V1"%string else "V2"%string)
                /\ Editor.f_i fila = Z.of_nat k
                /\ Editor.f_j fila = (Z.of_nat k + 1)%Z
                /\ Editor.f_dist_m fila = Editor.int_ d
                /\ (0 <= Editor.f_dist_m fila)%Z
                /\ (0 <= Editor.f_t_seg fila)%Z.
Proof.
  assert (Hfrm : Editor.mkEditor (Editor.marcadores_via1 st)
                   (Editor.marcadores_via2 st) (Editor.controladores_esp st)
                   (Editor.via_activa st) (Editor.modo_esp st)
                   (Editor.undo_stack st) (Editor.tramos_vel_manuales st)
                   (Editor.tree st) (Editor.map_widget st) = st)
    by (now destruct st).
  assert (Hsin : forall ea eb,
             ((List.length (Editor.marcadores_via1 st) < 2)%nat
              /\ (List.length (Editor.marcadores_via2 st) < 2)%nat)
             \/ ea = None \/ eb = None ->
             Editor.calcular_coordinacion_avanzada ea eb st = inr st).
  { intros ea eb H. unfold Editor.calcular_coordinacion_avanzada. cbv zeta.
    assert (Hl : forall ms, List.length (Editor.semaforos_de ms)
                            = List.length ms).
    { intros ms. rewrite <- (semaforos_objeto_length ms).
      unfold semaforos_objeto. now rewrite length_map. }
    rewrite !Hl.
    destruct ((List.length (Editor.marcadores_via1 st) <? 2)%nat
              && (List.length (Editor.marcadores_via2 st) <? 2)%nat)%bool
      eqn:Hb; [reflexivity|].
    destruct H as [[H1 H2] | [-> | ->]].
    - exfalso. apply andb_false_iff in Hb.
      destruct Hb as [Hb|Hb]; apply Nat.ltb_ge in Hb; lia.
    - reflexivity.
    - destruct ea; reflexivity. }
  destruct (le_lt_dec 2 (List.length (Editor.marcadores_via1 st))) as [H1|H1];
    [|destruct (le_lt_dec 2 (List.length (Editor.marcadores_via2 st)))
        as [H2|H2]].
  3: { exists (Editor.tree st). rewrite Hfrm. split; [apply Hsin; lia|].
       split; [reflexivity|]. intros a b Hn. lia. }
  all: destruct entry_vel_min as [a|];
    [destruct entry_vel_max as [b|]|];
    [ | exists (Editor.tree st); rewrite Hfrm;
        (split; [apply Hsin; auto|]); (split; [reflexivity|]);
        intros a' b' _ _ Hb'; discriminate
      | exists (Editor.tree st); rewrite Hfrm;
        (split; [apply Hsin; auto|]); (split; [reflexivity|]);
        intros a' b' _ Ha' _; discriminate ].
  all: eexists; (split; [apply calcular_coordinacion_avanzada_valor; lia|]);
    (split; [intros [[Ha Hb]|[Hx|Hx]]; [lia | discriminate | discriminate]|]);
    intros a' b' _ Ha Hb; injection Ha as <-; injection Hb as <-;
    eexists; eexists; (split; [reflexivity|]);
    (split; [rewrite length_map; apply (tramos_avanzados_length true)|]);
    (split; [rewrite length_map; apply (tramos_avanzados_length false)|]);
    intros es k fila Hf; destruct es;
    [apply (fila_avanzada_propiedades true _ st k fila Hf)
    | apply (fila_avanzada_propiedades false _ st k fila Hf)].
Qed.

(** X20. With fewer than two markers on both corridors, or a speed entry
    that does not parse, [calcular_coordinacion_avanzada] returns and
    leaves the editor as it was.  Whenever it returns it has changed only
    the table; with two markers or more on a corridor and two speeds the
    table then holds the rows of corridor 1 and then those of corridor 2,
    one per pair of neighbours of the markers sorted by longitude,
    numbered [k -> k + 1] from 0 and tagged with the corridor, with a
    distance and a time that are not negative. *)
Theorem calcular_coordinacion_avanzada_tabla
  (entry_vel_min entry_vel_max : option R) (st : Editor.EditorMapaSemaforos) :
  (((List.length (Editor.marcadores_via1 st) < 2)%nat
    /\ (List.length (Editor.marcadores_via2 st) < 2)%nat)
   \/ entry_vel_min = None \/ entry_vel_max = None ->
   Editor.calcular_coordinacion_avanzada entry_vel_min entry_vel_max st
   = inr st)
  /\ forall st',
      Editor.calcular_coordinacion_avanzada entry_vel_min entry_vel_max st
      = inr st' ->
      st' = Editor.mkEditor (Editor.marcadores_via1 st)
              (Editor.marcadores_via2 st) (Editor.controladores_esp st)
              (Editor.via_activa st) (Editor.modo_esp st)
              (Editor.undo_stack st) (Editor.tramos_vel_manuales st)
              (Editor.tree st') (Editor.map_widget st)
      /\ forall a b,
          (2 <= List.length (Editor.marcadores_via1 st))%nat
          \/ (2 <= List.length (Editor.marcadores_via2 st))%nat ->
          entry_vel_min = Some a -> entry_vel_max = Some b ->
          exists filas1 filas2,
            Editor.tree st' = filas1 ++ filas2
            /\ List.length filas1
               = (List.length (Editor.marcadores_via1 st) - 1)%nat
            /\ List.length filas2
               = (List.length (Editor.marcadores_via2 st) - 1)%nat
            /\ forall (es_via1 : bool) k fila,
                nth_error (if es_via1 then filas1 else filas2) k
                = Some fila ->
                let marcadores := if es_via1 then Editor.marcadores_via1 st
                                  else Editor.marcadores_via2 st in
                exists m1 m2 d,
                  nth_error (por_longitud marcadores) k = Some m1
                  /\ nth_error (por_longitud marcadores) (S k) = Some m2
                  /\ snd (fst m1) <= snd (fst m2)
                  /\ haversine (fst (fst m1)) (snd (fst m1)) (fst (fst m2))
                       (snd (fst m2)) = inr d
                  /\ Editor.f_via fila
                     = (if es_via1 then "V1"%string else "V2"%string)
                  /\ Editor.f_i fila = Z.of_nat k
                  /\ Editor.f_j fila = (Z.of_nat k + 1)%Z
                  /\ Editor.f_dist_m fila = Editor.int_ d
                  /\ (0 <= Editor.f_dist_m fila)%Z
                  /\ (0 <= Editor.f_t_seg fila)%Z.
Proof.
  destruct (calcular_coordinacion_avanzada_filas entry_vel_min entry_vel_max
              st) as (filas & Hret & Hsin & Hfilas).
  split.
  - intros H. rewrite Hret, (Hsin H). now destruct st.
  - intros st' Hst. rewrite Hret in Hst. injection Hst as <-.
    cbn [Editor.tree]. split; [reflexivity|]. exact Hfilas.
Qed.

(** Three markers on corridor 1 and two on corridor 2, a manual speed for
    the first segment of corridor 1, and the speed entries 30 and 60. *)
Lemma calcular_coordinacion_avanzada_tabla_testigo :
  exists st' filas1 filas2,
    Editor.calcular_coordinacion_avanzada (Some 30) (Some 60)
      (Editor.mkEditor
         [(0%R, 0%R, 0%nat); (0%R, 2%R, 1%nat); (0%R, 1%R, 2%nat)]
         [(1%R, 0%R, 3%nat); (1%R, 1%R, 4%nat)] [] 1 false []
         [(("V1"%string, 0%Z, 1%Z), 40%R)] [] 5)
    = inr st'
    /\ Editor.tree st' = filas1 ++ filas2
    /\ List.length filas1 = 2%nat
    /\ List.length filas2 = 1%nat
    /\ forall fila, nth_error filas2 0 = Some fila ->
         Editor.f_via fila = "V2"%string
         /\ Editor.f_i fila = 0%Z /\ Editor.f_j fila = 1%Z
         /\ (0 <= Editor.f_dist_m fila)%Z /\ (0 <= Editor.f_t_seg fila)%Z.
Proof.
  set (st := Editor.mkEditor
               [(0%R, 0%R, 0%nat); (0%R, 2%R, 1%nat); (0%R, 1%R, 2%nat)]
               [(1%R, 0%R, 3%nat); (1%R, 1%R, 4%nat)] [] 1 false []
               [(("V1"%string, 0%Z, 1%Z), 40%R)] [] 5).
  pose proof (calcular_coordinacion_avanzada_valor 30 60 st
                ltac:(left; simpl; lia)) as Hret.
  destruct (proj2 (calcular_coordinacion_avanzada_tabla (Some 30) (Some 60)
                     st) _ Hret) as [_ Hfilas].
  destruct (Hfilas 30 60 ltac:(left; simpl; lia) eq_refl eq_refl)
    as (filas1 & filas2 & Htree & Hl1 & Hl2 & Hk).
  eexists. exists filas1, filas2. split; [exact Hret|].
  split; [exact Htree|]. split; [exact Hl1|]. split; [exact Hl2|].
  intros fila Hf.
  destruct (Hk false 0%nat fila Hf)
    as (m1 & m2 & d & _ & _ & _ & _ & Hv & Hi & Hj & _ & Hd & Ht).
  repeat split; assumption.
Defined.

Lemma zonas_objeto_velocidades (P : R -> Prop) (es_via1 : bool)
  (manuales : list (Editor.clave * R)) :
  Forall (fun e => P (snd e)) manuales ->
  Forall (fun tv => P (vd_kmh tv)) (zonas_objeto es_via1 manuales).
Proof.
  intros H. unfold zonas_objeto. apply Forall_forall. intros tv Htv.
  apply in_map_iff in Htv as (e & <- & He). apply filter_In in He as [He _].
  rewrite Forall_forall in H. apply (H e He).
Qed.

Lemma divisor_ms_de_positiva (vd : R) : 0 < vd -> divisor_ms vd = vd * 1000 / 3600.
Proof.
  intros H. unfold divisor_ms. cbv zeta.
  destruct (Rle_dec (vd * 1000 / 3600) 0); [lra | reflexivity].
Qed.

Lemma tramos_avanzados_velocidad (es_via1 : bool) (a b : R)
  (st : Editor.EditorMapaSemaforos) (t : TramoCoordinacion) :
  Forall (fun e => 5 <= snd e <= 110) (Editor.tramos_vel_manuales st) ->
  In t (tramos_avanzados es_via1 (snd (Editor.limites_velocidad a b)) st) ->
  5 <= tc_vd_kmh t
  /\ offset_s t = dist_m t / (tc_vd_kmh t * 1000 / 3600).
Proof.
  intros Hman Hin. unfold tramos_avanzados in Hin. cbv zeta in Hin.
  apply in_map_iff in Hin as (k & <- & _).
  unfold tramo_de. cbn [tc_vd_kmh offset_s dist_m].
  pose proof (limites_velocidad_orden a b) as Hlim.
  assert (Hvd : 5 <= asignar_vd_a_tramo (Z.of_nat k)
                       (zonas_objeto es_via1 (Editor.tramos_vel_manuales st))
                       (snd (Editor.limites_velocidad a b))).
  { apply (asignar_vd_a_tramo_predicado (fun v => 5 <= v)); [lra|].
    apply (zonas_objeto_velocidades (fun v => 5 <= v)).
    eapply Forall_impl; [|exact Hman]. simpl. intros e He. lra. }
  split; [exact Hvd|]. rewrite divisor_ms_de_positiva by lra. reflexivity.
Qed.

(** X21. Where every manual speed stored is between 5 and 110 km/h,
    every segment of the plan [calcular_coordinacion_avanzada] asks for
    has a design speed of at least 5 km/h and an offset that is its
    distance over that speed in m/s: the floor of 0.1 m/s is not
    reached. *)
Theorem plan_avanzado_sin_piso (a b : R) (st : Editor.EditorMapaSemaforos) :
  Forall (fun e => 5 <= snd e <= 110) (Editor.tramos_vel_manuales st) ->
  exists plan,
    Editor.plan_avanzado a b st = inr plan
    /\ forall t, In t (dp_tramos (V1 plan)) \/ In t (dp_tramos (V2 plan)) ->
         5 <= tc_vd_kmh t
         /\ offset_s t = dist_m t / (tc_vd_kmh t * 1000 / 3600).
Proof.
  intros Hman. eexists. split; [apply plan_avanzado_valor|].
  cbn [V1 V2 dp_tramos]. intros t [Ht|Ht].
  - exact (tramos_avanzados_velocidad true a b st t Hman Ht).
  - exact (tramos_avanzados_velocidad false a b st t Hman Ht).
Qed.

(** Three markers on corridor 1 and two on corridor 2, with manual speeds
    of 40 km/h and 5 km/h for the two segments of corridor 1: the plan has
    three segments. *)
Lemma plan_avanzado_sin_piso_testigo :
  Forall (fun e => 5 <= snd e <= 110)
    [(("V1"%string, 0%Z, 1%Z), 40); (("V1"%string, 1%Z, 2%Z), 5)]
  /\ exists plan,
      Editor.plan_avanzado 30 60
        (Editor.mkEditor
           [(0%R, 0%R, 0%nat); (0%R, 2%R, 1%nat); (0%R, 1%R, 2%nat)]
           [(1%R, 0%R, 3%nat); (1%R, 1%R, 4%nat)] [] 1 false []
           [(("V1"%string, 0%Z, 1%Z), 40); (("V1"%string, 1%Z, 2%Z), 5)]
           [] 5)
      = inr plan
      /\ List.length (dp_tramos (V1 plan)) = 2%nat
      /\ List.length (dp_tramos (V2 plan)) = 1%nat
      /\ forall t, In t (dp_tramos (V1 plan)) \/ In t (dp_tramos (V2 plan)) ->
           5 <= tc_vd_kmh t
           /\ offset_s t = dist_m t / (tc_vd_kmh t * 1000 / 3600).
Proof.
  set (st := Editor.mkEditor
               [(0%R, 0%R, 0%nat); (0%R, 2%R, 1%nat); (0%R, 1%R, 2%nat)]
               [(1%R, 0%R, 3%nat); (1%R, 1%R, 4%nat)] [] 1 false []
               [(("V1"%string, 0%Z, 1%Z), 40); (("V1"%string, 1%Z, 2%Z), 5)]
               [] 5).
  assert (Hman : Forall (fun e => 5 <= snd e <= 110)
                   (Editor.tramos_vel_manuales st)).
  { repeat constructor; simpl; lra. }
  split; [exact Hman|].
  destruct (plan_avanzado_sin_piso 30 60 st Hman) as (plan & Hplan & Ht).
  exists plan. split; [exact Hplan|].
  rewrite plan_avanzado_valor in Hplan. injection Hplan as <-.
  cbn [V1 V2 dp_tramos] in *.
  split; [apply (tramos_avanzados_length true)|].
  split; [apply (tramos_avanzados_length false) | exact Ht].
Defined.

(** ** Manual speeds *)

Lemma clave_eqb_eq (a b : Editor.clave) :
  Editor.clave_eqb a b = true <-> a = b.
Proof.
  destruct a as [[va ia] ja], b as [[vb ib] jb]. unfold Editor.clave_eqb.
  rewrite !andb_true_iff, String.eqb_eq, !Z.eqb_eq. split.
  - intros [[-> ->] ->]. reflexivity.
  - intros H. injection H as -> -> ->. auto.
Qed.

Section DictLemas.

Context {K V : Type} (eqb : K -> K -> bool).
Hypothesis eqb_eq : forall a b, eqb a b = true <-> a = b.

Lemma dict_set_Forall (P : V -> Prop) (d : list (K * V)) (k : K) (v : V) :
  P v -> Forall (fun e => P (snd e)) d ->
  Forall (fun e => P (snd e)) (Editor.dict_set eqb d k v).
Proof.
  intros Hv Hd. induction Hd as [|[k' v'] d Hk' Hd IH]; simpl.
  - constructor; [exact Hv|constructor].
  - destruct (eqb k' k); constructor;
      [exact Hv | exact Hd | exact Hk' | exact IH].
Qed.

Lemma dict_set_claves (d : list (K * V)) (k : K) (v : V) :
  (In k (map fst d) /\ map fst (Editor.dict_set eqb d k v) = map fst d)
  \/ (~ In k (map fst d)
      /\ map fst (Editor.dict_set eqb d k v) = map fst d ++ [k]).
Proof.
  induction d as [|[k' v'] d IH]; simpl.
  - right. split; [tauto | reflexivity].
  - destruct (eqb k' k) eqn:Hk.
    + apply eqb_eq in Hk. subst k'. left. split; [now left | reflexivity].
    + assert (Hne : k' <> k).
      { intros ->. assert (eqb k k = true) by now apply eqb_eq. congruence. }
      destruct IH as [[Hin Heq] | [Hnin Heq]]; simpl; rewrite Heq.
      * left. split; [now right | reflexivity].
      * right. split; [|reflexivity]. intros [H|H]; [congruence | tauto].
Qed.

Lemma dict_set_NoDup (d : list (K * V)) (k : K) (v : V) :
  NoDup (map fst d) -> NoDup (map fst (Editor.dict_set eqb d k v)).
Proof.
  intros Hnd. destruct (dict_set_claves d k v) as [[_ ->] | [Hnin ->]].
  - exact Hnd.
  - apply NoDup_app.
    + exact Hnd.
    + constructor; [intros []|constructor].
    + intros x Hx [<-|[]]. now apply Hnin.
Qed.

Lemma dict_get_set (d : list (K * V)) (k : K) (v def : V) :
  Editor.dict_get eqb (Editor.dict_set eqb d k v) k def = v.
Proof.
  assert (Hkk : eqb k k = true) by now apply eqb_eq.
  induction d as [|[k' v'] d IH]; simpl.
  - now rewrite Hkk.
  - destruct (eqb k' k) eqn:Hk; simpl; rewrite Hk; [reflexivity | exact IH].
Qed.

Lemma dict_get_set_otra (d : list (K * V)) (k k' : K) (v def : V) :
  k' <> k ->
  Editor.dict_get eqb (Editor.dict_set eqb d k v) k' def
  = Editor.dict_get eqb d k' def.
Proof.
  intros Hne.
  assert (Hkk : eqb k k' = false).
  { destruct (eqb k k') eqn:H; [|reflexivity].
    apply eqb_eq in H. congruence. }
  induction d as [|[k0 v0] d IH]; simpl.
  - now rewrite Hkk.
  - destruct (eqb k0 k) eqn:Hk; simpl.
    + apply eqb_eq in Hk. subst k0. now rewrite Hkk.
    + now rewrite IH.
Qed.

End DictLemas.

Lemma editor_eta (st : Editor.EditorMapaSemaforos) :
  Editor.mkEditor (Editor.marcadores_via1 st) (Editor.marcadores_via2 st)
    (Editor.controladores_esp st) (Editor.via_activa st) (Editor.modo_esp st)
    (Editor.undo_stack st) (Editor.tramos_vel_manuales st) (Editor.tree st)
    (Editor.map_widget st) = st.
Proof. now destruct st. Qed.

(** What [agregar_tramo_manual] does to the table of manual speeds. *)
Lemma agregar_tramo_manual_casos (es_via1 : bool) (i j : option Z)
  (vel : option R) (st : Editor.EditorMapaSemaforos) :
  Editor.agregar_tramo_manual es_via1 i j vel st = st
  \/ exists i' j' vel',
      i = Some i' /\ j = Some j' /\ vel = Some vel' /\ 5 <= vel' <= 110
      /\ Editor.agregar_tramo_manual es_via1 i j vel st
         = Editor.mkEditor (Editor.marcadores_via1 st)
             (Editor.marcadores_via2 st) (Editor.controladores_esp st)
             (Editor.via_activa st) (Editor.modo_esp st)
             (Editor.undo_stack st)
             (Editor.dict_set Editor.clave_eqb
                (Editor.tramos_vel_manuales st)
                (if es_via1 then "V1"%string else "V2"%string, i', j') vel')
             (Editor.tree st) (Editor.map_widget st).
Proof.
  unfold Editor.agregar_tramo_manual.
  destruct i as [i'|]; [|now left]. destruct j as [j'|]; [|now left].
  destruct vel as [vel'|]; [|now left].
  destruct (Rlt_dec vel' 5); [now left|].
  destruct (Rlt_dec 110 vel'); [now left|].
  right. exists i', j', vel'. repeat split; try reflexivity; lra.
Qed.

(** X22. [agregar_tramo_manual] leaves the editor as it was when an index
    or the speed does not parse, and when the speed is below 5 or above
    110.  A speed from 5 to 110 is stored under the key of corridor and
    indices, whatever stood there, and the speeds under the other keys
    stay. *)
Theorem agregar_tramo_manual_tabla (es_via1 : bool)
  (entry_idx_i entry_idx_j : option Z) (entry_vel_tramo : option R)
  (st : Editor.EditorMapaSemaforos) :
  let st' := Editor.agregar_tramo_manual es_via1 entry_idx_i entry_idx_j
               entry_vel_tramo st in
  let via := if es_via1 then "V1"%string else "V2"%string in
  (entry_idx_i = None \/ entry_idx_j = None \/ entry_vel_tramo = None
   \/ (exists vel, entry_vel_tramo = Some vel /\ (vel < 5 \/ 110 < vel)) ->
   st' = st)
  /\ (forall i j vel def,
        entry_idx_i = Some i -> entry_idx_j = Some j ->
        entry_vel_tramo = Some vel -> 5 <= vel <= 110 ->
        Editor.dict_get Editor.clave_eqb (Editor.tramos_vel_manuales st')
          (via, i, j) def = vel
        /\ forall k, k <> (via, i, j) ->
             Editor.dict_get Editor.clave_eqb (Editor.tramos_vel_manuales st')
               k def
             = Editor.dict_get Editor.clave_eqb
                 (Editor.tramos_vel_manuales st) k def).
Proof.
  cbv zeta. split.
  - unfold Editor.agregar_tramo_manual.
    intros [-> | [-> | [-> | (vel & -> & Hv)]]].
    + reflexivity.
    + now destruct entry_idx_i.
    + destruct entry_idx_i; [destruct entry_idx_j|]; reflexivity.
    + destruct entry_idx_i; [destruct entry_idx_j|]; try reflexivity.
      destruct (Rlt_dec vel 5); [reflexivity|].
      destruct (Rlt_dec 110 vel); [reflexivity|]. lra.
  - intros i j vel def -> -> -> Hv. unfold Editor.agregar_tramo_manual.
    destruct (Rlt_dec vel 5); [lra|]. destruct (Rlt_dec 110 vel); [lra|].
    cbn [Editor.tramos_vel_manuales]. split.
    + apply (dict_get_set _ clave_eqb_eq).
    + intros k Hk. now apply (dict_get_set_otra _ clave_eqb_eq).
Qed.

(** ** What every state of the editor satisfies *)

Lemma fold_left_conserva {A S T : Type} (f : S -> A -> S) (g : S -> T) :
  (forall s a, g (f s a) = g s) ->
  forall l s, g (fold_left f l s) = g s.
Proof.
  intros H l. induction l as [|a l IH]; intros s; simpl; [reflexivity|].
  now rewrite IH, H.
Qed.

Lemma re_dibujar_todo_tabla (g1 g2 : list (R * R)) (ge : list (Z * R * R))
  (st : Editor.EditorMapaSemaforos) :
  Editor.tramos_vel_manuales (Editor.re_dibujar_todo g1 g2 ge st)
  = Editor.tramos_vel_manuales st
  /\ Editor.tree (Editor.re_dibujar_todo g1 g2 ge st) = Editor.tree st.
Proof.
  unfold Editor.re_dibujar_todo. cbv zeta. split.
  - rewrite (fold_left_conserva Editor.dibujar_esp Editor.tramos_vel_manuales)
      by (intros s [[c la] lo]; reflexivity).
    rewrite (fold_left_conserva Editor.dibujar_via2 Editor.tramos_vel_manuales)
      by (intros s [la lo]; reflexivity).
    now rewrite (fold_left_conserva Editor.dibujar_via1
                   Editor.tramos_vel_manuales)
      by (intros s [la lo]; reflexivity).
  - rewrite (fold_left_conserva Editor.dibujar_esp Editor.tree)
      by (intros s [[c la] lo]; reflexivity).
    rewrite (fold_left_conserva Editor.dibujar_via2 Editor.tree)
      by (intros s [la lo]; reflexivity).
    now rewrite (fold_left_conserva Editor.dibujar_via1 Editor.tree)
      by (intros s [la lo]; reflexivity).
Qed.

Lemma init_campos (archivo : option Editor.Datos) :
  Editor.undo_stack (Editor.init archivo) = []
  /\ Editor.tramos_vel_manuales (Editor.init archivo) = []
  /\ Editor.tree (Editor.init archivo) = [].
Proof.
  unfold Editor.init. cbv zeta.
  destruct archivo as [data|];
    match goal with
    | |- context [Editor.re_dibujar_todo ?g1 ?g2 ?ge ?s] =>
        destruct (re_dibujar_todo_campos g1 g2 ge s) as (_ & _ & _ & Hu);
        destruct (re_dibujar_todo_tabla g1 g2 ge s) as [Ht Htr]
    end; cbv zeta in Hu; rewrite Hu, Ht, Htr; repeat split.
Qed.

Lemma estado_valido_init (archivo : option Editor.Datos) :
  estado_valido (Editor.init archivo).
Proof.
  destruct (init_campos archivo) as (Hu & Ht & Htr).
  unfold estado_valido, pila_vigente. rewrite Hu, Ht, Htr. simpl.
  repeat split; constructor.
Qed.

Lemma pila_vigente_ext (st st' : Editor.EditorMapaSemaforos) :
  Editor.marcadores_via1 st' = Editor.marcadores_via1 st ->
  Editor.marcadores_via2 st' = Editor.marcadores_via2 st ->
  Editor.controladores_esp st' = Editor.controladores_esp st ->
  Editor.undo_stack st' = Editor.undo_stack st ->
  Editor.map_widget st' = Editor.map_widget st ->
  pila_vigente st -> pila_vigente st'.
Proof.
  intros H1 H2 H3 H4 H5 (Hnd & Hlt & Hviv).
  unfold pila_vigente, entrada_vigente in *.
  rewrite H1, H2, H3, H4, H5. auto.
Qed.

Lemma click_mapa_tabla (coords : R * R) (st : Editor.EditorMapaSemaforos) :
  Editor.tramos_vel_manuales (Editor.click_mapa coords st)
  = Editor.tramos_vel_manuales st
  /\ Editor.tree (Editor.click_mapa coords st) = Editor.tree st.
Proof.
  destruct coords as [la lo].
  unfold Editor.click_mapa, Editor.agregar_controlador_esp,
    Editor.agregar_semaforo.
  destruct (Editor.modo_esp st); [now split|]. cbv zeta. simpl.
  destruct (Editor.via_activa st =? 1)%Z; now split.
Qed.

Lemma deshacer_tabla (st st' : Editor.EditorMapaSemaforos) :
  Editor.deshacer_ultima_accion st = inr st' ->
  Editor.tramos_vel_manuales st' = Editor.tramos_vel_manuales st
  /\ Editor.tree st' = Editor.tree st.
Proof.
  unfold Editor.deshacer_ultima_accion.
  destruct (rev (Editor.undo_stack st)) as [|[tipo m] resto].
  - intros H. injection H as <-. now split.
  - destruct (String.eqb tipo "V1");
      [|destruct (String.eqb tipo "V2"); [|destruct (String.eqb tipo "ESP")]];
      try (match goal with
           | |- context [Editor.quitar_marcador ?es ?idxs ?xs] =>
               destruct (Editor.quitar_marcador es idxs xs); simpl
           end);
      intros H; try discriminate; injection H as <-; now split.
Qed.

Lemma deshacer_valido (st st' : Editor.EditorMapaSemaforos) :
  estado_valido st -> Editor.deshacer_ultima_accion st = inr st' ->
  estado_valido st'.
Proof.
  intros (Hp & Hm & Hk & Ht) Hd.
  destruct (deshacer_tabla st st' Hd) as [Hman Htree].
  unfold estado_valido. rewrite Hman, Htree.
  split; [|auto].
  destruct (Editor.undo_stack st) as [|e p] eqn:Hs.
  - unfold Editor.deshacer_ultima_accion in Hd. rewrite Hs in Hd. simpl in Hd.
    injection Hd as <-. exact Hp.
  - destruct (deshacer_vigente st Hp) as (st'' & Hd' & Hp' & _).
    + rewrite Hs. discriminate.
    + rewrite Hd in Hd'. injection Hd' as <-. exact Hp'.
Qed.

Lemma fila_onda_verde_no_negativa (via : string)
  (ordenados : list (R * R * Editor.marcador))
  (manuales : list (Editor.clave * R)) (vel_min vel_max : R) (k : nat) :
  5 <= vel_min <= vel_max ->
  (0 <= Editor.f_t_seg
          (fila_onda_verde via ordenados manuales vel_min vel_max k))%Z.
Proof.
  intros Hv. unfold fila_onda_verde. cbv zeta. cbn [Editor.f_t_seg].
  pose proof (vel_onda_verde_rango via manuales vel_min vel_max k
                ltac:(lra)) as Hvel.
  apply int_no_negativo_R. apply Rmult_le_pos.
  - apply distancia_no_negativa.
  - left. apply Rinv_0_lt_compat. lra.
Qed.

Lemma calcular_onda_verde_casos (es_via1 : bool) (ea eb : option R)
  (st : Editor.EditorMapaSemaforos) :
  Editor.calcular_onda_verde es_via1 ea eb st = inr st
  \/ exists filas,
      Editor.calcular_onda_verde es_via1 ea eb st
      = inr (Editor.mkEditor (Editor.marcadores_via1 st)
               (Editor.marcadores_via2 st) (Editor.controladores_esp st)
               (Editor.via_activa st) (Editor.modo_esp st)
               (Editor.undo_stack st) (Editor.tramos_vel_manuales st) filas
               (Editor.map_widget st))
      /\ filas <> []
      /\ Forall (fun f => (0 <= Editor.f_t_seg f)%Z) filas.
Proof.
  destruct (le_lt_dec 2 (List.length (if es_via1
                                      then Editor.marcadores_via1 st
                                      else Editor.marcadores_via2 st)))
    as [Hn|Hn].
  - destruct ea as [a|]; [destruct eb as [b|]|].
    + right. eexists. split; [apply (calcular_onda_verde_valor _ a b st Hn)|].
      split.
      * destruct (List.length _) as [|[|n]] eqn:Hl; [lia | lia | discriminate].
      * apply Forall_forall. intros f Hf.
        apply in_map_iff in Hf as (k & <- & _).
        apply fila_onda_verde_no_negativa, limites_velocidad_orden.
    + left. unfold Editor.calcular_onda_verde.
      destruct es_via1; simpl; now destruct (_ <? 2)%nat.
    + left. unfold Editor.calcular_onda_verde.
      destruct es_via1; simpl; now destruct (_ <? 2)%nat.
  - left. unfold Editor.calcular_onda_verde.
    assert (Hlt : (List.length (if es_via1 then Editor.marcadores_via1 st
                                else Editor.marcadores_via2 st) <? 2)%nat
                  = true) by (apply Nat.ltb_lt; lia).
    destruct es_via1; simpl; now rewrite Hlt.
Qed.

Lemma calcular_coordinacion_avanzada_casos (ea eb : option R)
  (st : Editor.EditorMapaSemaforos) :
  Editor.calcular_coordinacion_avanzada ea eb st = inr st
  \/ exists filas,
      Editor.calcular_coordinacion_avanzada ea eb st
      = inr (Editor.mkEditor (Editor.marcadores_via1 st)
               (Editor.marcadores_via2 st) (Editor.controladores_esp st)
               (Editor.via_activa st) (Editor.modo_esp st)
               (Editor.undo_stack st) (Editor.tramos_vel_manuales st) filas
               (Editor.map_widget st))
      /\ filas <> []
      /\ Forall (fun f => (0 <= Editor.f_t_seg f)%Z) filas.
Proof.
  assert (Hl : forall ms, List.length (Editor.semaforos_de ms)
                          = List.length ms).
  { intros ms. rewrite <- (semaforos_objeto_length ms).
    unfold semaforos_objeto. now rewrite length_map. }
  destruct ((List.length (Editor.marcadores_via1 st) <? 2)%nat
            && (List.length (Editor.marcadores_via2 st) <? 2)%nat)%bool
    eqn:Hb.
  - left. unfold Editor.calcular_coordinacion_avanzada. cbv zeta.
    now rewrite !Hl, Hb.
  - destruct ea as [a|]; [destruct eb as [b|]|].
    + apply andb_false_iff in Hb.
      assert (Hn : (2 <= List.length (Editor.marcadores_via1 st))%nat
                   \/ (2 <= List.length (Editor.marcadores_via2 st))%nat).
      { destruct Hb as [Hb|Hb]; apply Nat.ltb_ge in Hb; [now left|now right]. }
      right. eexists.
      split; [apply (calcular_coordinacion_avanzada_valor a b st Hn)|].
      split.
      * intros Hnil. apply (f_equal (@List.length _)) in Hnil.
        rewrite length_app, !length_map in Hnil.
        rewrite (tramos_avanzados_length true),
          (tramos_avanzados_length false) in Hnil.
        simpl in Hnil. lia.
      * apply Forall_app. split; apply Forall_forall; intros f Hf.
        -- apply In_nth_error in Hf as [k Hk].
           destruct (fila_avanzada_propiedades true _ st k f Hk)
             as (? & ? & ? & ? & ? & ? & ? & ? & ? & ? & ? & ? & H).
           exact H.
        -- apply In_nth_error in Hf as [k Hk].
           destruct (fila_avanzada_propiedades false _ st k f Hk)
             as (? & ? & ? & ? & ? & ? & ? & ? & ? & ? & ? & ? & H).
           exact H.
    + left. unfold Editor.calcular_coordinacion_avanzada. cbv zeta.
      now rewrite !Hl, Hb.
    + left. unfold Editor.calcular_coordinacion_avanzada. cbv zeta.
      now rewrite !Hl, Hb.
Qed.

Lemma alcanzable_valido (st : Editor.EditorMapaSemaforos) :
  alcanzable st -> estado_valido st.
Proof.
  induction 1 as [archivo | coords st _ IH | st _ IH | via st _ IH
                 | st st' _ IH Hd | es i j vel st _ IH
                 | es a b st st' _ IH Hc | a b st st' _ IH Hc].
  - apply estado_valido_init.
  - destruct IH as (Hp & Hm & Hk & Ht).
    destruct (click_mapa_tabla coords st) as [Hman Htree].
    unfold estado_valido. rewrite Hman, Htree.
    split; [now apply pila_vigente_click | auto].
  - destruct IH as (Hp & Hm & Hk & Ht). split; [|auto].
    now apply (pila_vigente_ext st).
  - destruct IH as (Hp & Hm & Hk & Ht). split; [|auto].
    now apply (pila_vigente_ext st).
  - now apply (deshacer_valido st).
  - destruct IH as (Hp & Hm & Hk & Ht).
    destruct (agregar_tramo_manual_casos es i j vel st)
      as [-> | (i' & j' & v' & _ & _ & _ & Hv & ->)];
      [exact (conj Hp (conj Hm (conj Hk Ht)))|].
    split; [now apply (pila_vigente_ext st)|].
    cbn [Editor.tramos_vel_manuales Editor.tree]. split; [|split].
    + now apply (dict_set_Forall _ (fun v => 5 <= v <= 110)).
    + apply (dict_set_NoDup _ clave_eqb_eq). exact Hk.
    + exact Ht.
  - destruct IH as (Hp & Hm & Hk & Ht).
    destruct (calcular_onda_verde_casos es a b st)
      as [Heq | (filas & Heq & _ & Hf)]; rewrite Heq in Hc;
      injection Hc as <-; [exact (conj Hp (conj Hm (conj Hk Ht)))|].
    split; [now apply (pila_vigente_ext st)|].
    exact (conj Hm (conj Hk Hf)).
  - destruct IH as (Hp & Hm & Hk & Ht).
    destruct (calcular_coordinacion_avanzada_casos a b st)
      as [Heq | (filas & Heq & _ & Hf)]; rewrite Heq in Hc;
      injection Hc as <-; [exact (conj Hp (conj Hm (conj Hk Ht)))|].
    split; [now apply (pila_vigente_ext st)|].
    exact (conj Hm (conj Hk Hf)).
Qed.

(** The example editors. *)
Lemma editor_con_marcadores_valor :
  editor_con_marcadores
  = Editor.mkEditor [(0, 0, 0%nat); (0, 1, 1%nat)] [] [] 1 false
      [("V1"%string, 0%nat); ("V1"%string, 1%nat)]
      [(("V1"%string, 0%Z, 1%Z), 40)] [] 2.
Proof.
  unfold editor_con_marcadores, Editor.agregar_tramo_manual.
  destruct (Rlt_dec 40 5); [lra|]. destruct (Rlt_dec 110 40); [lra|].
  reflexivity.
Qed.

Lemma editor_con_tabla_alcanzable :
  alcanzable editor_con_tabla
  /\ List.length (Editor.tree editor_con_tabla) = 1%nat
  /\ Editor.undo_stack editor_con_tabla
     = [("V1"%string, 0%nat); ("V1"%string, 1%nat)]
  /\ Editor.tramos_vel_manuales editor_con_tabla
     = [(("V1"%string, 0%Z, 1%Z), 40)].
Proof.
  assert (Hn : (2 <= List.length (Editor.marcadores_via1
                                    editor_con_marcadores))%nat).
  { rewrite editor_con_marcadores_valor. simpl. lia. }
  pose proof (calcular_onda_verde_valor true 30 60 editor_con_marcadores Hn)
    as Hret. cbv zeta in Hret.
  assert (Ha : alcanzable editor_con_marcadores).
  { unfold editor_con_marcadores.
    apply alc_tramo, alc_click, alc_click, alc_init. }
  unfold editor_con_tabla. rewrite Hret. split; [|split; [|split]].
  - exact (alc_onda_verde true (Some 30) (Some 60) _ _ Ha Hret).
  - cbn [Editor.tree]. rewrite length_map, length_seq.
    now rewrite editor_con_marcadores_valor.
  - cbn [Editor.undo_stack]. now rewrite editor_con_marcadores_valor.
  - cbn [Editor.tramos_vel_manuales]. now rewrite editor_con_marcadores_valor.
Qed.

(** X23. In every state the editor reaches from opening, by clicks on the
    map, changes of mode and corridor, undo, manual speeds and the two
    calculations, the undo stack is sound (its markers are distinct and
    each stands in the list of its kind), the manual speeds stand under
    distinct keys, and no base time of the table is negative. *)
Theorem estados_del_editor_validos (st : Editor.EditorMapaSemaforos) :
  alcanzable st ->
  pila_vigente st
  /\ NoDup (map fst (Editor.tramos_vel_manuales st))
  /\ Forall (fun f => (0 <= Editor.f_t_seg f)%Z) (Editor.tree st).
Proof.
  intros Ha. destruct (alcanzable_valido st Ha) as (Hp & _ & Hk & Ht).
  exact (conj Hp (conj Hk Ht)).
Qed.

(** The editor after two clicks, a manual speed and a run of
    [calcular_onda_verde]: two markers on the undo stack, one manual speed
    and one row in the table. *)
Lemma estados_del_editor_validos_testigo :
  alcanzable editor_con_tabla
  /\ List.length (Editor.undo_stack editor_con_tabla) = 2%nat
  /\ List.length (Editor.tramos_vel_manuales editor_con_tabla) = 1%nat
  /\ List.length (Editor.tree editor_con_tabla) = 1%nat
  /\ pila_vigente editor_con_tabla
  /\ NoDup (map fst (Editor.tramos_vel_manuales editor_con_tabla))
  /\ Forall (fun f => (0 <= Editor.f_t_seg f)%Z)
       (Editor.tree editor_con_tabla).
Proof.
  destruct editor_con_tabla_alcanzable as (Ha & Hl & Hu & Hm).
  split; [exact Ha|]. split; [now rewrite Hu|]. split; [now rewrite Hm|].
  split; [exact Hl|].
  exact (estados_del_editor_validos editor_con_tabla Ha).
Defined.

(** X24. In every state the editor reaches, undo raises nothing.  With an
    empty stack it changes nothing; otherwise it pops one entry and
    removes exactly one marker or controller from the map. *)
Theorem deshacer_quita_uno (st : Editor.EditorMapaSemaforos) :
  alcanzable st ->
  exists st',
    Editor.deshacer_ultima_accion st = inr st'
    /\ (Editor.undo_stack st = [] -> st' = st)
    /\ (Editor.undo_stack st <> [] ->
        S (total_marcadores st') = total_marcadores st
        /\ S (List.length (Editor.undo_stack st'))
           = List.length (Editor.undo_stack st)).
Proof.
  intros Ha. destruct (alcanzable_valido st Ha) as (Hp & _).
  destruct (Editor.undo_stack st) as [|e p] eqn:Hs.
  - exists st. split.
    + unfold Editor.deshacer_ultima_accion. now rewrite Hs.
    + split; [reflexivity | congruence].
  - destruct (deshacer_vigente st Hp) as (st' & Hd & _ & Ht & Hl).
    + rewrite Hs. discriminate.
    + exists st'. split; [exact Hd|]. split; [discriminate|].
      intros _. rewrite Hs in Hl. now split.
Qed.

(** Undo after a first click on the map. *)
Lemma deshacer_quita_uno_testigo :
  exists st',
    Editor.deshacer_ultima_accion
      (Editor.click_mapa (0, 0) (Editor.init None)) = inr st'
    /\ (Editor.undo_stack (Editor.click_mapa (0, 0) (Editor.init None)) = []
        -> st' = Editor.click_mapa (0, 0) (Editor.init None))
    /\ (Editor.undo_stack (Editor.click_mapa (0, 0) (Editor.init None)) <> []
        -> S (total_marcadores st')
           = total_marcadores (Editor.click_mapa (0, 0) (Editor.init None))
           /\ S (List.length (Editor.undo_stack st'))
              = List.length
                  (Editor.undo_stack
                     (Editor.click_mapa (0, 0) (Editor.init None)))).
Proof.
  apply (deshacer_quita_uno (Editor.click_mapa (0, 0) (Editor.init None))).
  apply alc_click. apply alc_init.
Defined.

(** X25. In every state the editor reaches, [simular_ajuste_difuso]
    raises nothing: with an empty table it returns after its warning,
    otherwise it plots the base times of the table and one adjusted green
    time per row, in the order of the rows, each from 10 to 90. *)
Theorem simular_ajuste_difuso_en_editor (st : Editor.EditorMapaSemaforos) :
  alcanzable st ->
  (Editor.tree st = [] -> Editor.simular_ajuste_difuso st = inr None)
  /\ (Editor.tree st <> [] ->
      exists tiempos_ajust,
        Editor.simular_ajuste_difuso st
        = inr (Some (map (fun f => float_ (Editor.f_t_seg f)) (Editor.tree st),
                     tiempos_ajust))
        /\ List.length tiempos_ajust = List.length (Editor.tree st)
        /\ Forall (fun r => (10 <= r <= 90)%Z) tiempos_ajust).
Proof.
  intros Ha. destruct (alcanzable_valido st Ha) as (_ & _ & _ & Ht).
  unfold Editor.simular_ajuste_difuso. split.
  - intros ->. reflexivity.
  - intros Hne.
    destruct (simular_ajuste_difuso_total (map Editor.f_t_seg (Editor.tree st)))
      as (rs & Hrs & Hlen & Hall).
    + apply Forall_forall. intros c Hc.
      apply in_map_iff in Hc as (f & <- & Hf).
      rewrite Forall_forall in Ht. now apply Ht.
    + destruct (Editor.tree st); [contradiction | discriminate].
    + exists rs. rewrite map_map in Hrs. rewrite length_map in Hlen.
      now split.
Qed.

(** The editor after two clicks, a manual speed and a run of
    [calcular_onda_verde]: the table has one row. *)
Lemma simular_ajuste_difuso_en_editor_testigo :
  alcanzable editor_con_tabla
  /\ List.length (Editor.tree editor_con_tabla) = 1%nat
  /\ exists tiempos_ajust,
      Editor.simular_ajuste_difuso editor_con_tabla
      = inr (Some (map (fun f => float_ (Editor.f_t_seg f))
                     (Editor.tree editor_con_tabla),
                   tiempos_ajust))
      /\ List.length tiempos_ajust
         = List.length (Editor.tree editor_con_tabla)
      /\ Forall (fun r => (10 <= r <= 90)%Z) tiempos_ajust.
Proof.
  destruct editor_con_tabla_alcanzable as (Ha & Hl & _).
  split; [exact Ha|]. split; [exact Hl|].
  apply (proj2 (simular_ajuste_difuso_en_editor editor_con_tabla Ha)).
  intros Hnil. rewrite Hnil in Hl. discriminate.
Defined.

(** ** Saving and opening *)

(** X26. What [guardar_config] writes is what the editor shows again when
    it opens the file: saving straight after opening gives the
    coordinates of both corridors and the ids and coordinates of the
    controllers as the file had them, in order, an absent key standing
    for an empty list; and the markers so loaded cannot be undone, the
    undo stack being empty. *)
Theorem guardar_tras_abrir (data : Editor.Datos) :
  Editor.guardar_config (Editor.init (Some data))
  = Editor.mkDatos (Some (Editor.get_o_vacia (Editor.dato_via1 data)))
      (Some (Editor.get_o_vacia (Editor.dato_via2 data)))
      (Some (Editor.get_o_vacia (Editor.dato_controladores_esp data)))
  /\ (forall st,
        Editor.guardar_config (Editor.init (Some (Editor.guardar_config st)))
        = Editor.guardar_config st)
  /\ Editor.deshacer_ultima_accion (Editor.init (Some data))
     = inr (Editor.init (Some data)).
Proof.
  assert (Hg : forall d,
             Editor.guardar_config (Editor.init (Some d))
             = Editor.mkDatos (Some (Editor.get_o_vacia (Editor.dato_via1 d)))
                 (Some (Editor.get_o_vacia (Editor.dato_via2 d)))
                 (Some (Editor.get_o_vacia
                          (Editor.dato_controladores_esp d)))).
  { intros d. unfold Editor.init. cbv zeta.
    destruct (re_dibujar_todo_campos (Editor.get_o_vacia (Editor.dato_via1 d))
                (Editor.get_o_vacia (Editor.dato_via2 d))
                (Editor.get_o_vacia (Editor.dato_controladores_esp d))
                (Editor.mkEditor [] [] [] 1 false [] [] [] 0))
      as (H1 & H2 & H3 & _).
    cbv zeta in H1, H2, H3. simpl in H1, H2, H3.
    unfold Editor.guardar_config.
    assert (Hfst : forall l : list (R * R * Editor.marcador),
               map (fun m => (fst (fst m), snd (fst m))) l = map fst l).
    { intros l. apply map_ext. now intros [[a b] c]. }
    now rewrite !Hfst, H1, H2, H3. }
  split; [apply Hg|]. split.
  - intros st. rewrite Hg. reflexivity.
  - destruct (init_campos (Some data)) as (Hu & _).
    unfold Editor.deshacer_ultima_accion. now rewrite Hu.
Qed.

(** * Further properties of the fuzzy controller and its caller *)

Local Open Scope Q_scope.

Lemma entradas_difusas_enteras (celda : Z) :
  (0 <= celda)%Z ->
  entradas_difusas (float_ celda)
  = (Z.min 50 (celda / 2), Z.min 60 (Z.max 5 (70 - celda))).
Proof.
  intros Hc. unfold entradas_difusas, float_. cbv zeta.
  rewrite !py_min_Zmin, py_max_Zmax. f_equal.
  - f_equal. rewrite int_no_negativo.
    + change 2 with (inject_Z 2). symmetry. apply Zdiv_Qdiv.
    + apply Qle_shift_div_l; [lra|].
      rewrite Zle_Qle in Hc. change (inject_Z 0) with 0 in Hc. lra.
  - do 2 f_equal. apply int_entero.
    unfold Z.sub. rewrite inject_Z_plus, inject_Z_opp. reflexivity.
Qed.

(** X27. For base times that are non-negative whole numbers, the inputs
    the caller derives stay inside the domains of the controller,
    vehicles from 0 to 50 and stop duration from 5 to 60; a longer base
    time never gives fewer vehicles nor a longer stop. *)
Theorem entradas_difusas_monotonas (c1 c2 : Z) :
  (0 <= c1 <= c2)%Z ->
  let e1 := entradas_difusas (float_ c1) in
  let e2 := entradas_difusas (float_ c2) in
  (0 <= fst e1 <= fst e2)%Z /\ (fst e2 <= 50)%Z
  /\ (5 <= snd e2 <= snd e1)%Z /\ (snd e1 <= 60)%Z.
Proof.
  intros [H1 H2]. cbv zeta.
  rewrite !entradas_difusas_enteras by lia. cbn [fst snd].
  assert (Hdiv : (c1 / 2 <= c2 / 2)%Z) by (apply Z.div_le_mono; lia).
  assert (H0 : (0 <= c1 / 2)%Z) by (apply Z.div_pos; lia).
  lia.
Qed.

(** Base times of 30 s and 80 s. *)
Lemma entradas_difusas_monotonas_testigo :
  let e1 := entradas_difusas (float_ 30) in
  let e2 := entradas_difusas (float_ 80) in
  (0 <= fst e1 <= fst e2)%Z /\ (fst e2 <= 50)%Z
  /\ (5 <= snd e2 <= snd e1)%Z /\ (snd e1 <= 60)%Z.
Proof.
  apply (entradas_difusas_monotonas 30 80). lia.
Defined.

(** X28. The three rules of [FuzzyTraffic] leave no gap: for every
    number of vehicles from 0 to 50 and every stop duration from 0 to 60,
    at least one rule fires with a strength above zero. *)
Theorem reglas_sin_hueco (vehiculos detencion : Q) :
  0 <= vehiculos <= 50 -> 0 <= detencion <= 60 ->
  0 < fuerza_regla1 vehiculos detencion
  \/ 0 < fuerza_regla2 vehiculos detencion
  \/ 0 < fuerza_regla3 vehiculos detencion.
Proof. apply alguna_regla_dispara. Qed.

(** Ten vehicles stopped for twenty seconds, where the low and the short
    sets end. *)
Lemma reglas_sin_hueco_testigo :
  0 < fuerza_regla1 10 20 \/ 0 < fuerza_regla2 10 20
  \/ 0 < fuerza_regla3 10 20.
Proof.
  apply (reglas_sin_hueco 10 20); split; vm_compute; discriminate.
Defined.

(** * The two calculations side by side *)

Local Open Scope R_scope.

Lemma zonas_objeto_vacia (es_via1 : bool) : zonas_objeto es_via1 [] = [].
Proof. reflexivity. Qed.

(** Without manual speeds a segment has the same row in both
    calculations. *)
Lemma filas_iguales_sin_manuales (es_via1 : bool) (a b : R)
  (st : Editor.EditorMapaSemaforos) :
  let marcadores := if es_via1 then Editor.marcadores_via1 st
                    else Editor.marcadores_via2 st in
  let via := if es_via1 then "V1"%string else "V2"%string in
  Editor.tramos_vel_manuales st = [] ->
  map (fila_onda_verde via (por_longitud marcadores)
         (Editor.tramos_vel_manuales st)
         (fst (Editor.limites_velocidad a b))
         (snd (Editor.limites_velocidad a b)))
    (seq 0 (List.length marcadores - 1))
  = map (fila_de_tramo via)
      (tramos_avanzados es_via1 (snd (Editor.limites_velocidad a b)) st).
Proof.
  cbv zeta. intros Hman. unfold tramos_avanzados. cbv zeta.
  set (marcadores := if es_via1 then Editor.marcadores_via1 st
                     else Editor.marcadores_via2 st).
  set (via := if es_via1 then "V1"%string else "V2"%string).
  rewrite map_map, semaforos_objeto_length, Hman, zonas_objeto_vacia.
  pose proof (limites_velocidad_orden a b) as Hlim.
  set (vmin := fst (Editor.limites_velocidad a b)) in *.
  set (vmax := snd (Editor.limites_velocidad a b)) in *.
  apply map_ext_in. intros k Hk. apply in_seq in Hk.
  rewrite !semaforos_objeto_nth by lia.
  unfold fila_onda_verde, fila_de_tramo, tramo_de, vel_onda_verde.
  cbv zeta. cbn [Editor.dict_get asignar_vd_a_tramo tc_i tc_j dist_m
                   tc_vd_kmh offset_s tiempo_viaje_s id_local lat lon].
  assert (Hv : Coordinacion.py_max vmin (Coordinacion.py_min vmax vmax)
               = vmax).
  { unfold Coordinacion.py_max, Coordinacion.py_min. caso_orden; lra. }
  rewrite Hv, divisor_ms_de_positiva by lra.
  f_equal. lia.
Qed.

(** X29. Without manual speeds the two calculations agree: for a corridor
    of at least two markers, the rows [calcular_onda_verde] writes are the
    rows [calcular_coordinacion_avanzada] writes for that corridor, column
    by column. *)
Theorem calculos_coinciden_sin_manuales (es_via1 : bool) (a b : R)
  (st : Editor.EditorMapaSemaforos) :
  Editor.tramos_vel_manuales st = [] ->
  (2 <= List.length (if es_via1 then Editor.marcadores_via1 st
                     else Editor.marcadores_via2 st))%nat ->
  exists st1 st2 filas1 filas2,
    Editor.calcular_onda_verde es_via1 (Some a) (Some b) st = inr st1
    /\ Editor.calcular_coordinacion_avanzada (Some a) (Some b) st = inr st2
    /\ Editor.tree st2 = filas1 ++ filas2
    /\ List.length filas1 = (List.length (Editor.marcadores_via1 st) - 1)%nat
    /\ Editor.tree st1 = (if es_via1 then filas1 else filas2).
Proof.
  intros Hman Hn.
  rewrite (calcular_onda_verde_valor es_via1 a b st Hn).
  rewrite (calcular_coordinacion_avanzada_valor a b st)
    by (destruct es_via1; [now left | now right]).
  eexists. eexists. eexists. eexists.
  split; [reflexivity|]. split; [reflexivity|].
  cbn [Editor.tree]. split; [reflexivity|].
  split; [rewrite length_map; apply (tramos_avanzados_length true)|].
  rewrite (filas_iguales_sin_manuales es_via1 a b st Hman).
  now destruct es_via1.
Qed.

(** Two markers on corridor 1 and no manual speed. *)
Lemma calculos_coinciden_sin_manuales_testigo :
  exists st1 st2 filas1 filas2,
    Editor.calcular_onda_verde true (Some 30) (Some 60)
      (Editor.mkEditor [(0%R, 0%R, 0%nat); (0%R, 1%R, 1%nat)] [] [] 1 false [] [] []
         2) = inr st1
    /\ Editor.calcular_coordinacion_avanzada (Some 30) (Some 60)
         (Editor.mkEditor [(0%R, 0%R, 0%nat); (0%R, 1%R, 1%nat)] [] [] 1 false [] []
            [] 2) = inr st2
    /\ Editor.tree st2 = filas1 ++ filas2
    /\ List.length filas1
       = (List.length
            (Editor.marcadores_via1
               (Editor.mkEditor [(0%R, 0%R, 0%nat); (0%R, 1%R, 1%nat)] [] [] 1 false
                  [] [] [] 2)) - 1)%nat
    /\ Editor.tree st1 = (if true then filas1 else filas2).
Proof.
  apply (calculos_coinciden_sin_manuales true 30 60
           (Editor.mkEditor [(0%R, 0%R, 0%nat); (0%R, 1%R, 1%nat)] [] [] 1 false []
              [] [] 2)).
  - reflexivity.
  - simpl. lia.
Defined.

(** X30. Either calculation run again on its own result changes nothing
    more: the table it writes depends on the markers, the manual speeds
    and the two entries, not on the table before. *)
Theorem calculos_idempotentes (es_via1 : bool) (ea eb : option R)
  (st : Editor.EditorMapaSemaforos) :
  (exists st1,
      Editor.calcular_onda_verde es_via1 ea eb st = inr st1
      /\ Editor.calcular_onda_verde es_via1 ea eb st1 = inr st1)
  /\ (exists st2,
         Editor.calcular_coordinacion_avanzada ea eb st = inr st2
         /\ Editor.calcular_coordinacion_avanzada ea eb st2 = inr st2).
Proof.
  split.
  - destruct (le_lt_dec 2 (List.length (if es_via1
                                        then Editor.marcadores_via1 st
                                        else Editor.marcadores_via2 st)))
      as [Hn|Hn];
      [destruct ea as [a|]; [destruct eb as [b|]|]|].
    + eexists. split; [apply (calcular_onda_verde_valor es_via1 a b st Hn)|].
      rewrite calcular_onda_verde_valor; [reflexivity|].
      now destruct es_via1.
    + exists st. assert (H : Editor.calcular_onda_verde es_via1 (Some a) None
                               st = inr st).
      { unfold Editor.calcular_onda_verde.
        destruct es_via1; simpl; now destruct (_ <? 2)%nat. }
      now split.
    + exists st. assert (H : Editor.calcular_onda_verde es_via1 None eb st
                             = inr st).
      { unfold Editor.calcular_onda_verde.
        destruct es_via1; simpl; now destruct (_ <? 2)%nat. }
      now split.
    + exists st. assert (H : Editor.calcular_onda_verde es_via1 ea eb st
                             = inr st).
      { unfold Editor.calcular_onda_verde.
        assert (Hlt : (List.length (if es_via1 then Editor.marcadores_via1 st
                                    else Editor.marcadores_via2 st) <? 2)%nat
                      = true) by (apply Nat.ltb_lt; lia).
        destruct es_via1; simpl; now rewrite Hlt. }
      now split.
  - assert (Hl : forall ms, List.length (Editor.semaforos_de ms)
                            = List.length ms).
    { intros ms. rewrite <- (semaforos_objeto_length ms).
      unfold semaforos_objeto. now rewrite length_map. }
    destruct ((List.length (Editor.marcadores_via1 st) <? 2)%nat
              && (List.length (Editor.marcadores_via2 st) <? 2)%nat)%bool
      eqn:Hb.
    + exists st.
      assert (H : Editor.calcular_coordinacion_avanzada ea eb st = inr st).
      { unfold Editor.calcular_coordinacion_avanzada. cbv zeta.
        now rewrite !Hl, Hb. }
      now split.
    + destruct ea as [a|]; [destruct eb as [b|]|].
      * apply andb_false_iff in Hb.
        assert (Hn : (2 <= List.length (Editor.marcadores_via1 st))%nat
                     \/ (2 <= List.length (Editor.marcadores_via2 st))%nat).
        { destruct Hb as [Hb|Hb]; apply Nat.ltb_ge in Hb;
            [now left | now right]. }
        eexists.
        split; [apply (calcular_coordinacion_avanzada_valor a b st Hn)|].
        rewrite calcular_coordinacion_avanzada_valor; [reflexivity|].
        exact Hn.
      * exists st.
        assert (H : Editor.calcular_coordinacion_avanzada (Some a) None st
                    = inr st).
        { unfold Editor.calcular_coordinacion_avanzada. cbv zeta.
          now rewrite !Hl, Hb. }
        now split.
      * exists st.
        assert (H : Editor.calcular_coordinacion_avanzada None eb st
                    = inr st).
        { unfold Editor.calcular_coordinacion_avanzada. cbv zeta.
          now rewrite !Hl, Hb. }
        now split.
Qed.
